(** * Overlay scrollbar: the geometry and event engine of
      [custom-scrollbar.component.ts]

    The component keeps a synthetic scrollbar thumb in step with a scrollable
    viewport.  This development embeds the TypeScript methods of
    [CustomScrollbarComponent] as Rocq functions over an explicit component /
    DOM / runtime state and proves properties of them.

    Conventions of the embedding.
    - A JavaScript [number] is a [num]: an exact rational, or one of the three
      IEEE special values [NaN], [+Infinity], [-Infinity].  Division by zero and
      the propagation of the special values follow IEEE 754; rounding to 53
      bits, overflow and the sign of zero are abstracted (the only divisors in
      the component are differences of two DOM measurements, which are never
      negative zero).  Where a property depends on rounding, module [Double]
      embeds the methods concerned once more with every arithmetic result
      rounded by a parameter [rnd]; with the identity for [rnd] they are the
      methods above.
    - A JavaScript string is a [string] of 8-bit characters (ASCII text).
    - Values the browser measures ([scrollTop], [scrollHeight], [clientHeight],
      [offsetHeight], pointer coordinates) are inputs: finite rationals stored
      in the state.  What the component asks of the browser (scroll requests,
      [preventDefault]) is appended to an effect log.
    - [Number::toString], which template literals apply to a number, depends on
      the binary representation and is a parameter [toStr] of the embedding. *)

From Stdlib Require Import QArith Qabs ZArith Bool List String Ascii Lia Lqa.
Import ListNotations.

Open Scope string_scope.

(** ** JavaScript numbers *)

Module JsNum.

Inductive num : Type :=
| Fin (q : Q)
| PInf
| NInf
| NaN.

Definition Qneg (q : Q) : bool := negb (Qle_bool 0 q).
Definition Qzero (q : Q) : bool := Qeq_bool q 0.

(** The infinity of a given sign ([true] is negative). *)
Definition inf (negative : bool) : num := if negative then NInf else PInf.

Definition neg (a : num) : num :=
  match a with
  | Fin x => Fin (- x)
  | PInf => NInf
  | NInf => PInf
  | NaN => NaN
  end.

Definition add (a b : num) : num :=
  match a, b with
  | NaN, _ | _, NaN => NaN
  | Fin x, Fin y => Fin (x + y)
  | PInf, NInf | NInf, PInf => NaN
  | PInf, _ | _, PInf => PInf
  | NInf, _ | _, NInf => NInf
  end.

Definition sub (a b : num) : num := add a (neg b).

(** Sign of a number that is not [NaN]; zero counts as positive. *)
Definition negative (a : num) : bool :=
  match a with
  | Fin x => Qneg x
  | NInf => true
  | PInf | NaN => false
  end.

Definition mul (a b : num) : num :=
  match a, b with
  | NaN, _ | _, NaN => NaN
  | Fin x, Fin y => Fin (x * y)
  | Fin x, i | i, Fin x =>
      if Qzero x then NaN else inf (xorb (Qneg x) (negative i))
  | i, j => inf (xorb (negative i) (negative j))
  end.

Definition div (a b : num) : num :=
  match a, b with
  | NaN, _ | _, NaN => NaN
  | Fin x, Fin y =>
      if Qzero y then (if Qzero x then NaN else inf (Qneg x))
      else Fin (x / y)
  | Fin _, _ => Fin 0
  | i, Fin y => inf (xorb (negative i) (Qneg y))
  | _, _ => NaN
  end.

(** [a <= b] of JavaScript: false as soon as an operand is [NaN]. *)
Definition le (a b : num) : bool :=
  match a, b with
  | NaN, _ | _, NaN => false
  | NInf, _ | _, PInf => true
  | Fin x, Fin y => Qle_bool x y
  | _, _ => false
  end.

(** [Math.max] and [Math.min] of two arguments. *)
Definition max (a b : num) : num :=
  match a, b with
  | NaN, _ | _, NaN => NaN
  | _, _ => if le a b then b else a
  end.

Definition min (a b : num) : num :=
  match a, b with
  | NaN, _ | _, NaN => NaN
  | _, _ => if le a b then a else b
  end.

(** Two numbers denote the same value. *)
Definition same (a b : num) : Prop :=
  match a, b with
  | Fin x, Fin y => x == y
  | PInf, PInf | NInf, NInf | NaN, NaN => True
  | _, _ => False
  end.

(** [lo <= a <= hi] for a finite [a]. *)
Definition within (lo hi : Q) (a : num) : Prop :=
  match a with
  | Fin x => lo <= x /\ x <= hi
  | _ => False
  end.

End JsNum.

Import JsNum.
Coercion Fin : Q >-> num.

Declare Scope num_scope.
Delimit Scope num_scope with num.
Bind Scope num_scope with num.
Infix "+" := add : num_scope.
Infix "-" := sub : num_scope.
Infix "*" := mul : num_scope.
Infix "/" := div : num_scope.
Infix "<=?" := le : num_scope.

(** ** JavaScript strings: [includes], the transform pattern, [parseFloat] *)

Module JsString.

(** [hay.includes(needle)]. *)
Fixpoint includes (needle hay : string) : bool :=
  if String.prefix needle hay then true
  else match hay with
       | EmptyString => false
       | String _ rest => includes needle rest
       end.

(** [a || b] on strings: the empty string is the only falsy one. *)
Definition or_else (a b : string) : string :=
  match a with
  | EmptyString => b
  | _ => a
  end.

Fixpoint drop (n : nat) (s : string) : string :=
  match n, s with
  | O, _ => s
  | S n', String _ rest => drop n' rest
  | S _, EmptyString => EmptyString
  end.

(** The class [\s], on ASCII: tab, line feed, vertical tab, form feed,
    carriage return, space. *)
Definition is_space (c : ascii) : bool :=
  let n := nat_of_ascii c in
  ((9 <=? n) && (n <=? 13))%nat || (n =? 32)%nat.

(** The class [[^,]]. *)
Definition not_comma (c : ascii) : bool :=
  negb (nat_of_ascii c =? 44)%nat.

(** *** A backtracking matcher in continuation-passing style.

    Each combinator takes the continuation [k] that matches the rest of the
    pattern against the rest of the input.  Quantifiers are greedy: they try
    the longest repetition first and give characters back one at a time when
    the continuation fails, as a JavaScript regular expression does. *)

Section Matcher.
Context {A : Type}.

(** A literal run of characters. *)
Definition lit (l : string) (k : string -> option A) (s : string) : option A :=
  if String.prefix l s then k (drop (String.length l) s) else None.

(** [c*] for a character class [c]. *)
Fixpoint star (c : ascii -> bool) (k : string -> option A) (s : string)
  : option A :=
  match s with
  | String a rest =>
      if c a then
        match star c k rest with
        | Some r => Some r
        | None => k s
        end
      else k s
  | EmptyString => k s
  end.

(** [(c+)] for a character class [c]: a capturing group; the continuation
    receives the captured text ([acc] is what the group has consumed so far,
    most recent character first). *)
Fixpoint plus_from (c : ascii -> bool) (acc : list ascii)
  (k : string -> string -> option A) (s : string) : option A :=
  match s with
  | String a rest =>
      if c a then
        match plus_from c (a :: acc) k rest with
        | Some r => Some r
        | None => k (string_of_list_ascii (rev (a :: acc))) rest
        end
      else None
  | EmptyString => None
  end.

Definition plus_group (c : ascii -> bool) (k : string -> string -> option A)
  (s : string) : option A :=
  plus_from c [] k s.

End Matcher.

(** The end of the pattern, [px,\s*0\)], after capture group 1; a match
    answers with the group. *)
Definition after_group (group1 : string) : string -> option string :=
  lit "px," (star is_space (lit "0)" (fun _ => Some group1))).

(** The pattern [/translate3d\(0,\s*([^,]+)px,\s*0\)/] anchored at the start
    of [s]; the result is capture group 1. *)
Definition translate3d_at (s : string) : option string :=
  lit "translate3d(0," (star is_space (plus_group not_comma after_group)) s.

(** [s.match(/translate3d\(0,\s*([^,]+)px,\s*0\)/)]: the leftmost position
    where the pattern matches; [Some g] stands for a match array whose
    element 1 is [g], [None] for [null]. *)
Fixpoint match_translate3d (s : string) : option string :=
  match translate3d_at s with
  | Some g => Some g
  | None =>
      match s with
      | EmptyString => None
      | String _ rest => match_translate3d rest
      end
  end.

(** Every character of [s] is in the class [c]. *)
Fixpoint every (c : ascii -> bool) (s : string) : bool :=
  match s with
  | EmptyString => true
  | String a rest => c a && every c rest
  end.

(** [s] is a text that can stand for the number in
    [translate3d(0, <number>px, 0)] without changing how the pattern reads
    it: not empty, no comma, no white space in front. *)
Definition plain (s : string) : bool :=
  match s with
  | EmptyString => false
  | String a _ => negb (is_space a) && every not_comma s
  end.

(** *** [parseFloat] *)

Definition digit (c : ascii) : option Z :=
  let n := nat_of_ascii c in
  if ((48 <=? n) && (n <=? 57))%nat then Some (Z.of_nat n - 48)%Z else None.

(** Reads a maximal run of decimal digits: its value on top of [acc], how
    many digits were read on top of [n], and the rest of the input. *)
Fixpoint digits (s : string) (acc : Z) (n : Z) : Z * Z * string :=
  match s with
  | String c rest =>
      match digit c with
      | Some d => digits rest (10 * acc + d)%Z (n + 1)%Z
      | None => (acc, n, s)
      end
  | EmptyString => (acc, n, s)
  end.

(** [m * 10^e]. *)
Definition scale10 (m e : Z) : Q :=
  if (0 <=? e)%Z then inject_Z (m * 10 ^ e)
  else Qmake m (Z.to_pos (10 ^ (- e))).

(** An optional [ExponentPart]: [e] or [E], an optional sign and at least
    one digit; anything else is no exponent. *)
Definition exponent (s : string) : Z :=
  match s with
  | String c rest =>
      if (Ascii.eqb c "e" || Ascii.eqb c "E")%bool then
        let '(negative, rest') :=
          match rest with
          | String "-" r => (true, r)
          | String "+" r => (false, r)
          | _ => (false, rest)
          end in
        let '(e, n, _) := digits rest' 0 0 in
        if (n =? 0)%Z then 0%Z else if negative then (- e)%Z else e
      else 0%Z
  | EmptyString => 0%Z
  end.

(** The longest prefix that is a [StrUnsignedDecimalLiteral]. *)
Definition unsigned_literal (s : string) : option num :=
  if String.prefix "Infinity" s then Some PInf
  else
    let '(i, ni, r1) := digits s 0 0 in
    match r1 with
    | String "." r2 =>
        let '(m, nd, r3) := digits r2 i ni in
        if (nd =? 0)%Z then None
        else Some (Fin (scale10 m (exponent r3 - (nd - ni))))
    | _ =>
        if (ni =? 0)%Z then None
        else Some (Fin (scale10 i (exponent r1)))
    end.

Fixpoint skip_space (s : string) : string :=
  match s with
  | String c rest => if is_space c then skip_space rest else s
  | EmptyString => s
  end.

(** [parseFloat(s)]: leading white space is skipped, the longest prefix that
    is a decimal literal is converted, and [NaN] is the answer when there is
    none. *)
Definition parseFloat (s : string) : num :=
  let t := skip_space s in
  let '(negative, body) :=
    match t with
    | String "-" r => (true, r)
    | String "+" r => (false, r)
    | _ => (false, t)
    end in
  match unsigned_literal body with
  | Some v => if negative then neg v else v
  | None => NaN
  end.

End JsString.

Import JsString.

(** ** The page: elements, inline styles, events *)

Module Dom.

(** An inline style declaration ([element.style]): property name, value and
    priority.  Assigning [style.display = v] is [setProperty "display" v ""].
    The declaration keeps the text it is given; what a browser makes of a
    value (normalising it, ignoring one it cannot parse) is not modelled. *)
Definition Style : Type := list (string * (string * string)).

Definition setProperty (name value priority : string) (s : Style) : Style :=
  (name, (value, priority))
    :: filter (fun e => negb (String.eqb (fst e) name)) s.

Definition getProperty (name : string) (s : Style) : option (string * string) :=
  option_map snd (find (fun e => String.eqb (fst e) name) s).

(** Reading a property that was never set gives the empty string. *)
Definition getPropertyValue (name : string) (s : Style) : string :=
  match getProperty name s with
  | Some (v, _) => v
  | None => ""
  end.

Definition getPropertyPriority (name : string) (s : Style) : string :=
  match getProperty name s with
  | Some (_, p) => p
  | None => ""
  end.

(** An [HTMLElement]: its inline style, and the height the layout gives it. *)
Record Element : Type := {
  style : Style;
  offsetHeight : Q
}.

Definition withStyle (f : Style -> Style) (e : Element) : Element :=
  {| style := f (style e); offsetHeight := offsetHeight e |}.

(** The scroll metrics of the viewport element. *)
Record Viewport : Type := {
  scrollTop : Q;
  scrollHeight : Q;
  clientHeight : Q
}.

(** What a handler reads from a [MouseEvent]: [clientY]; whether
    [event.target] is the thumb element; and the [top] of
    [event.currentTarget.getBoundingClientRect()]. *)
Record MouseEvent : Type := {
  clientY : Q;
  targetIsThumb : bool;
  currentTargetTop : Q
}.

(** What a handler reads from a [TouchEvent]: the [clientY] of each entry of
    [event.touches]. *)
Record TouchEvent : Type := {
  touches : list Q
}.

Inductive Event : Type :=
| Mouse (e : MouseEvent)
| Touch (e : TouchEvent).

(** Calls the component makes on objects it does not own. *)
Inductive Effect : Type :=
| PreventDefault
| StopPropagation
| AssignScrollTop (top : num)
| ScrollTo (top : num) (behavior : string).

End Dom.

Import Dom.

(** ** The runtime: bound functions, listeners, timers *)

Module Runtime.

(** The methods that are passed around as callbacks. *)
Inductive Method : Type :=
| OnThumbMouseDown
| OnThumbTouchStart
| OnDocumentMouseMove
| OnDocumentMouseUp
| OnDocumentTouchMove
| OnDocumentTouchEnd.

(** [method.bind(this)] makes a new function object at every call; [fn_id]
    is its identity. *)
Record BoundFn : Type := {
  fn_id : nat;
  fn_method : Method
}.

Inductive Target : Type :=
| ThumbEl
| Document.

Definition Target_eqb (a b : Target) : bool :=
  match a, b with
  | ThumbEl, ThumbEl | Document, Document => true
  | _, _ => false
  end.

Record Listener : Type := {
  on_target : Target;
  on_type : string;
  on_fn : BoundFn
}.

(** Whether a registered listener is the one that [target], [type] and the
    function object [f] designate. *)
Definition sameListener (target : Target) (type : string) (f : BoundFn)
  (l : Listener) : bool :=
  Target_eqb (on_target l) target
  && String.eqb (on_type l) type
  && Nat.eqb (fn_id (on_fn l)) (fn_id f).

(** The bodies of the arrow functions given to [setTimeout] and
    [setInterval]: [Recompute] is
    [{ this.updateThumbSize(); this.updateThumbPosition(); }] and
    [Recheck] is [{ this.updateThumbSize(); }]. *)
Inductive Callback : Type :=
| Recompute
| Recheck.

Record Timer : Type := {
  timer_id : nat;
  repeats : bool;
  delay : Z;
  callback : Callback
}.

Record MutationObserver : Type := {
  observing : bool
}.

End Runtime.

Import Runtime.

(** ** The component *)

Inductive ThemeColors : Type :=
| Green
| Blue.

Module Scheme.

Record ColorScheme : Type := {
  thumb : string;
  thumbHover : string;
  thumbActive : string;
  track : string;
  trackHover : string
}.

End Scheme.

Definition colorSchemes (t : ThemeColors) : Scheme.ColorScheme :=
  match t with
  | Green =>
      {| Scheme.thumb := "#08a208";
         Scheme.thumbHover := "rgba(21, 128, 61, 0.9)";
         Scheme.thumbActive := "rgba(20, 83, 45, 0.95)";
         Scheme.track := "rgba(224, 246,224,0.6)";
         Scheme.trackHover := "rgba(34, 197, 94, 0.25)" |}
  | Blue =>
      {| Scheme.thumb := "#0076CC";
         Scheme.thumbHover := "rgba(0, 80, 160, 0.9)";
         Scheme.thumbActive := "rgba(0, 60, 120, 0.95)";
         Scheme.track := "rgba(217,229,255,0.6)";
         Scheme.trackHover := "rgba(59, 130, 246, 0.25)" |}
  end.

(** The fields of [CustomScrollbarComponent].  [viewportEl] and [thumbEl] are
    assigned together by [ngAfterViewInit] and never again, so one flag
    [viewInit] records whether they are defined.  [routerSubscription] is
    the subscription to [router.events], which [takeUntil(destroy$)] ends.
    [dragStartY] only ever receives a pointer coordinate, a finite number;
    [thumbStartY] receives the result of [parseFloat]. *)
Record Component : Type := {
  scrollbarWidth : num;
  trackColorOverride : string;
  thumbColorOverride : string;
  viewInit : bool;
  routerSubscription : bool;
  currentThemeColor : ThemeColors;
  isDragging : bool;
  dragStartY : Q;
  thumbStartY : num;
  contentObserver : option MutationObserver
}.

(** The elements the component works on: the viewport, the thumb, the
    thumb's [parentElement] (the track, or [null]) and the inline style of
    [document.documentElement]. *)
Record Page : Type := {
  viewport : Viewport;
  thumb : Element;
  track : option Element;
  root : Style
}.

(** The environment: registered listeners, pending timers, the next fresh
    identity, the effect log (oldest first), whether [MutationObserver] is
    defined, and [router.url]. *)
Record Env : Type := {
  listeners : list Listener;
  timers : list Timer;
  nextId : nat;
  effects : list Effect;
  hasMutationObserver : bool;
  routerUrl : string
}.

Record State : Type := {
  comp : Component;
  page : Page;
  env : Env
}.

(** The outcome of running a method: it returns, or a [TypeError] is thrown
    (a property of [undefined] was read); either way the state reached is
    kept, since JavaScript does not roll back. *)
Inductive res : Type :=
| Done (st : State)
| TypeError (st : State).

Definition state_of (r : res) : State :=
  match r with
  | Done st | TypeError st => st
  end.

Definition andThen (r : res) (f : State -> res) : res :=
  match r with
  | Done st => f st
  | TypeError st => TypeError st
  end.

Notation "r ;; f" := (andThen r f) (at level 61, left associativity).

(** *** Field updates *)

Module Update.

Definition onComp (f : Component -> Component) (st : State) : State :=
  {| comp := f (comp st); page := page st; env := env st |}.

Definition onPage (f : Page -> Page) (st : State) : State :=
  {| comp := comp st; page := f (page st); env := env st |}.

Definition onEnv (f : Env -> Env) (st : State) : State :=
  {| comp := comp st; page := page st; env := f (env st) |}.

(** The [@Input()] properties, which the host template sets. *)
Definition inputs_ (width : num) (trackColor thumbColor : string)
  (c : Component) : Component :=
  {| scrollbarWidth := width;
     trackColorOverride := trackColor;
     thumbColorOverride := thumbColor;
     viewInit := viewInit c;
     routerSubscription := routerSubscription c;
     currentThemeColor := currentThemeColor c;
     isDragging := isDragging c;
     dragStartY := dragStartY c;
     thumbStartY := thumbStartY c;
     contentObserver := contentObserver c |}.

Definition viewInit_ (v : bool) (c : Component) : Component :=
  {| scrollbarWidth := scrollbarWidth c;
     trackColorOverride := trackColorOverride c;
     thumbColorOverride := thumbColorOverride c;
     viewInit := v;
     routerSubscription := routerSubscription c;
     currentThemeColor := currentThemeColor c;
     isDragging := isDragging c;
     dragStartY := dragStartY c;
     thumbStartY := thumbStartY c;
     contentObserver := contentObserver c |}.

Definition routerSubscription_ (v : bool) (c : Component) : Component :=
  {| scrollbarWidth := scrollbarWidth c;
     trackColorOverride := trackColorOverride c;
     thumbColorOverride := thumbColorOverride c;
     viewInit := viewInit c;
     routerSubscription := v;
     currentThemeColor := currentThemeColor c;
     isDragging := isDragging c;
     dragStartY := dragStartY c;
     thumbStartY := thumbStartY c;
     contentObserver := contentObserver c |}.

Definition currentThemeColor_ (v : ThemeColors) (c : Component) : Component :=
  {| scrollbarWidth := scrollbarWidth c;
     trackColorOverride := trackColorOverride c;
     thumbColorOverride := thumbColorOverride c;
     viewInit := viewInit c;
     routerSubscription := routerSubscription c;
     currentThemeColor := v;
     isDragging := isDragging c;
     dragStartY := dragStartY c;
     thumbStartY := thumbStartY c;
     contentObserver := contentObserver c |}.

Definition isDragging_ (v : bool) (c : Component) : Component :=
  {| scrollbarWidth := scrollbarWidth c;
     trackColorOverride := trackColorOverride c;
     thumbColorOverride := thumbColorOverride c;
     viewInit := viewInit c;
     routerSubscription := routerSubscription c;
     currentThemeColor := currentThemeColor c;
     isDragging := v;
     dragStartY := dragStartY c;
     thumbStartY := thumbStartY c;
     contentObserver := contentObserver c |}.

Definition dragStartY_ (v : Q) (c : Component) : Component :=
  {| scrollbarWidth := scrollbarWidth c;
     trackColorOverride := trackColorOverride c;
     thumbColorOverride := thumbColorOverride c;
     viewInit := viewInit c;
     routerSubscription := routerSubscription c;
     currentThemeColor := currentThemeColor c;
     isDragging := isDragging c;
     dragStartY := v;
     thumbStartY := thumbStartY c;
     contentObserver := contentObserver c |}.

Definition thumbStartY_ (v : num) (c : Component) : Component :=
  {| scrollbarWidth := scrollbarWidth c;
     trackColorOverride := trackColorOverride c;
     thumbColorOverride := thumbColorOverride c;
     viewInit := viewInit c;
     routerSubscription := routerSubscription c;
     currentThemeColor := currentThemeColor c;
     isDragging := isDragging c;
     dragStartY := dragStartY c;
     thumbStartY := v;
     contentObserver := contentObserver c |}.

Definition contentObserver_ (v : option MutationObserver) (c : Component)
  : Component :=
  {| scrollbarWidth := scrollbarWidth c;
     trackColorOverride := trackColorOverride c;
     thumbColorOverride := thumbColorOverride c;
     viewInit := viewInit c;
     routerSubscription := routerSubscription c;
     currentThemeColor := currentThemeColor c;
     isDragging := isDragging c;
     dragStartY := dragStartY c;
     thumbStartY := thumbStartY c;
     contentObserver := v |}.

Definition thumb_ (f : Element -> Element) (p : Page) : Page :=
  {| viewport := viewport p; thumb := f (thumb p); track := track p;
     root := root p |}.

(** An update of the track does nothing when the thumb has no parent. *)
Definition track_ (f : Element -> Element) (p : Page) : Page :=
  {| viewport := viewport p; thumb := thumb p;
     track := option_map f (track p); root := root p |}.

(** The browser lays the page out again: new scroll metrics and a new
    height of the thumb. *)
Definition layout_ (vp : Viewport) (thumbHeight : Q) (p : Page) : Page :=
  {| viewport := vp;
     thumb := {| style := style (thumb p); offsetHeight := thumbHeight |};
     track := track p; root := root p |}.

Definition root_ (f : Style -> Style) (p : Page) : Page :=
  {| viewport := viewport p; thumb := thumb p; track := track p;
     root := f (root p) |}.

Definition listeners_ (f : list Listener -> list Listener) (e : Env) : Env :=
  {| listeners := f (listeners e); timers := timers e; nextId := nextId e;
     effects := effects e; hasMutationObserver := hasMutationObserver e;
     routerUrl := routerUrl e |}.

Definition timers_ (f : list Timer -> list Timer) (e : Env) : Env :=
  {| listeners := listeners e; timers := f (timers e); nextId := nextId e;
     effects := effects e; hasMutationObserver := hasMutationObserver e;
     routerUrl := routerUrl e |}.

Definition nextId_ (n : nat) (e : Env) : Env :=
  {| listeners := listeners e; timers := timers e; nextId := n;
     effects := effects e; hasMutationObserver := hasMutationObserver e;
     routerUrl := routerUrl e |}.

Definition effects_ (f : list Effect -> list Effect) (e : Env) : Env :=
  {| listeners := listeners e; timers := timers e; nextId := nextId e;
     effects := f (effects e); hasMutationObserver := hasMutationObserver e;
     routerUrl := routerUrl e |}.

End Update.

(** *** What the methods do to the page and the environment *)

(** [this.thumbEl.style.<name> = value]. *)
Definition thumbStyle (name value : string) : State -> State :=
  Update.onPage (Update.thumb_ (withStyle (setProperty name value ""))).

(** [this.thumbEl.style.setProperty(name, value, priority)]. *)
Definition thumbSetProperty (name value priority : string) : State -> State :=
  Update.onPage (Update.thumb_ (withStyle (setProperty name value priority))).

(** [if (trackEl) { trackEl.style.<name> = value; }] for
    [trackEl = this.thumbEl.parentElement]. *)
Definition trackStyle (name value : string) : State -> State :=
  Update.onPage (Update.track_ (withStyle (setProperty name value ""))).

(** [if (trackEl) { trackEl.style.setProperty(name, value, priority); }]. *)
Definition trackSetProperty (name value priority : string) : State -> State :=
  Update.onPage (Update.track_ (withStyle (setProperty name value priority))).

(** [document.documentElement.style.setProperty(name, value)]. *)
Definition rootSetProperty (name value : string) : State -> State :=
  Update.onPage (Update.root_ (setProperty name value "")).

Definition perform (e : Effect) : State -> State :=
  Update.onEnv (Update.effects_ (fun log => (log ++ [e])%list)).

(** [method.bind(this)]: a function object with a fresh identity. *)
Definition bind (m : Method) (st : State) : BoundFn * State :=
  let n := nextId (env st) in
  ({| fn_id := n; fn_method := m |}, Update.onEnv (Update.nextId_ (S n)) st).

(** [target.addEventListener(type, f)]: ignored when this very function
    object is already registered for [type] on [target]. *)
Definition addEventListener (target : Target) (type : string) (f : BoundFn)
  : State -> State :=
  Update.onEnv (Update.listeners_ (fun ls =>
    if existsb (sameListener target type f) ls then ls
    else (ls ++ [{| on_target := target; on_type := type; on_fn := f |}])%list)).

(** [target.removeEventListener(type, f)]: removes the registration of this
    very function object, if there is one. *)
Definition removeEventListener (target : Target) (type : string) (f : BoundFn)
  : State -> State :=
  Update.onEnv (Update.listeners_ (fun ls =>
    filter (fun l => negb (sameListener target type f l)) ls)).

Definition schedule (again : bool) (cb : Callback) (ms : Z) (st : State)
  : State :=
  let n := nextId (env st) in
  Update.onEnv (Update.nextId_ (S n))
    (Update.onEnv (Update.timers_ (fun ts =>
       (ts ++ [{| timer_id := n; repeats := again; delay := ms;
                  callback := cb |}])%list)) st).

(** [setTimeout(cb, ms)] and [setInterval(cb, ms)]; the component never
    keeps the identifier they return. *)
Definition setTimeout : Callback -> Z -> State -> State := schedule false.
Definition setInterval : Callback -> Z -> State -> State := schedule true.

(** ** The methods of [CustomScrollbarComponent] *)

Section Methods.

(** [Number::toString], as applied by a template literal. *)
Variable toStr : num -> string.

Local Open Scope num_scope.

Definition updateThemeColor (url : string) : State -> State :=
  if includes "/machine" url
  then Update.onComp (Update.currentThemeColor_ Blue)
  else Update.onComp (Update.currentThemeColor_ Green).

Definition applyCustomization (st : State) : State :=
  if negb (viewInit (comp st)) then st
  else
    let colorScheme := colorSchemes (currentThemeColor (comp st)) in
    let st := trackStyle "width" (toStr (scrollbarWidth (comp st)) ++ "px") st in
    let thumbColor :=
      or_else (thumbColorOverride (comp st)) (Scheme.thumb colorScheme) in
    let st := thumbSetProperty "background-color" thumbColor "important" st in
    let trackColor :=
      or_else (trackColorOverride (comp st)) (Scheme.track colorScheme) in
    let st := trackSetProperty "background-color" trackColor "important" st in
    let st :=
      rootSetProperty "--custom-scrollbar-thumb-hover"
        (or_else (thumbColorOverride (comp st)) (Scheme.thumbHover colorScheme))
        st in
    let st :=
      rootSetProperty "--custom-scrollbar-thumb-active"
        (or_else (thumbColorOverride (comp st)) (Scheme.thumbActive colorScheme))
        st in
    rootSetProperty "--custom-scrollbar-track-hover"
      (or_else (trackColorOverride (comp st)) (Scheme.trackHover colorScheme))
      st.

(** [ngOnInit]: the theme of the current URL, and the subscription to
    [NavigationEnd] events (see [navigationEnd]). *)
Definition ngOnInit (st : State) : State :=
  let st := updateThemeColor (routerUrl (env st)) st in
  Update.onComp (Update.routerSubscription_ true) st.

(** The subscriber of [router.events], run for a [NavigationEnd] event while
    the subscription lasts. *)
Definition navigationEnd (url : string) (st : State) : State :=
  if routerSubscription (comp st) then
    let st := updateThemeColor url st in
    if viewInit (comp st) then applyCustomization st else st
  else st.

Definition updateThumbSize (st : State) : res :=
  if negb (viewInit (comp st)) then TypeError st
  else
    let scrollHeight : num := scrollHeight (viewport (page st)) in
    let clientHeight : num := clientHeight (viewport (page st)) in
    if scrollHeight <=? clientHeight + Fin 5 then
      let st := thumbStyle "display" "none" st in
      let st := trackStyle "display" "none" st in
      Done st
    else
      let st := thumbStyle "display" "block" st in
      let st := trackStyle "display" "block" st in
      let thumbHeightRatio := clientHeight / scrollHeight in
      let minThumbHeight : num := Fin 50 in
      let maxThumbHeight := clientHeight - Fin 20 in
      let calculatedHeight := clientHeight * thumbHeightRatio in
      let thumbHeight :=
        max minThumbHeight (min maxThumbHeight calculatedHeight) in
      Done (thumbStyle "height" (toStr thumbHeight ++ "px") st).

(** The earlier version of [updateThumbSize], kept in the class and called
    from nowhere. *)
Definition updateThumbSize_old (st : State) : res :=
  if negb (viewInit (comp st)) then TypeError st
  else
    let scrollHeight : num := scrollHeight (viewport (page st)) in
    let clientHeight : num := clientHeight (viewport (page st)) in
    if scrollHeight <=? clientHeight + Fin 5 then
      Done (thumbStyle "display" "none" st)
    else
      let st := thumbStyle "display" "block" st in
      let thumbHeightRatio := clientHeight / scrollHeight in
      let minThumbHeight : num := Fin 50 in
      let maxThumbHeight := clientHeight - Fin 20 in
      let calculatedHeight := clientHeight * thumbHeightRatio in
      let thumbHeight :=
        max minThumbHeight (min maxThumbHeight calculatedHeight) in
      Done (thumbStyle "height" (toStr thumbHeight ++ "px") st).

Definition updateThumbPosition (st : State) : res :=
  if negb (viewInit (comp st)) then TypeError st
  else
    let scrollTop : num := scrollTop (viewport (page st)) in
    let scrollHeight : num := scrollHeight (viewport (page st)) in
    let clientHeight : num := clientHeight (viewport (page st)) in
    let scrollPercentage := scrollTop / (scrollHeight - clientHeight) in
    let thumbMaxY := clientHeight - Fin (offsetHeight (thumb (page st))) in
    let thumbY := scrollPercentage * thumbMaxY in
    Done (thumbStyle "transform"
            ("translate3d(0, " ++ toStr thumbY ++ "px, 0)") st).

(** The arrow functions handed to the timers. *)
Definition runCallback (cb : Callback) (st : State) : res :=
  match cb with
  | Recompute => updateThumbSize st ;; updateThumbPosition
  | Recheck => updateThumbSize st
  end.

(** The callback of the [MutationObserver]. *)
Definition observerCallback (st : State) : State :=
  setTimeout Recompute 50 st.

Definition setupContentObserver (st : State) : State :=
  let st :=
    if hasMutationObserver (env st) then
      Update.onComp (Update.contentObserver_ (Some {| observing := true |})) st
    else st in
  setInterval Recheck 1000 st.

Definition ngAfterViewInit (st : State) : State :=
  let st := Update.onComp (Update.viewInit_ true) st in
  let st := applyCustomization st in
  let st := setTimeout Recompute 200 st in
  let st := setupContentObserver st in
  let '(f, st) := bind OnThumbMouseDown st in
  let st := addEventListener ThumbEl "mousedown" f st in
  let '(g, st) := bind OnThumbTouchStart st in
  addEventListener ThumbEl "touchstart" g st.

Definition ngOnDestroy (st : State) : State :=
  let st := Update.onComp (Update.routerSubscription_ false) st in
  let st :=
    if viewInit (comp st) then
      let '(f, st) := bind OnThumbMouseDown st in
      removeEventListener ThumbEl "mousedown" f st
    else st in
  let st :=
    if viewInit (comp st) then
      let '(g, st) := bind OnThumbTouchStart st in
      removeEventListener ThumbEl "touchstart" g st
    else st in
  match contentObserver (comp st) with
  | Some _ =>
      Update.onComp (Update.contentObserver_ (Some {| observing := false |})) st
  | None => st
  end.

Definition onContentScroll (st : State) : res :=
  if negb (isDragging (comp st)) then updateThumbPosition st
  else Done st.

Definition onThumbMouseDown (event : MouseEvent) (st : State) : res :=
  let st := perform PreventDefault st in
  let st := Update.onComp (Update.isDragging_ true) st in
  let st := Update.onComp (Update.dragStartY_ (clientY event)) st in
  if negb (viewInit (comp st)) then TypeError st
  else
    let transform := getPropertyValue "transform" (style (thumb (page st))) in
    let match_ := match_translate3d transform in
    let st :=
      Update.onComp
        (Update.thumbStartY_
           (match match_ with
            | Some group1 => parseFloat group1
            | None => Fin 0
            end)) st in
    let '(f, st) := bind OnDocumentMouseMove st in
    let st := addEventListener Document "mousemove" f st in
    let '(g, st) := bind OnDocumentMouseUp st in
    let st := addEventListener Document "mouseup" g st in
    Done (thumbStyle "opacity" "0.8" st).

Definition onDocumentMouseMove (event : MouseEvent) (st : State) : res :=
  if negb (isDragging (comp st)) then Done st
  else
    let st := perform PreventDefault st in
    let deltaY := Fin (clientY event) - Fin (dragStartY (comp st)) in
    let newThumbY := thumbStartY (comp st) + deltaY in
    if negb (viewInit (comp st)) then TypeError st
    else
      let thumbMaxY :=
        Fin (clientHeight (viewport (page st)))
        - Fin (offsetHeight (thumb (page st))) in
      let clampedThumbY := max (Fin 0) (min newThumbY thumbMaxY) in
      let st :=
        thumbStyle "transform"
          ("translate3d(0, " ++ toStr clampedThumbY ++ "px, 0)") st in
      let scrollPercentage := clampedThumbY / thumbMaxY in
      let scrollHeight : num := scrollHeight (viewport (page st)) in
      let clientHeight : num := clientHeight (viewport (page st)) in
      let newScrollTop := scrollPercentage * (scrollHeight - clientHeight) in
      Done (perform (AssignScrollTop newScrollTop) st).

Definition onDocumentMouseUp (st : State) : res :=
  if negb (isDragging (comp st)) then Done st
  else
    let st := Update.onComp (Update.isDragging_ false) st in
    let '(f, st) := bind OnDocumentMouseMove st in
    let st := removeEventListener Document "mousemove" f st in
    let '(g, st) := bind OnDocumentMouseUp st in
    let st := removeEventListener Document "mouseup" g st in
    if negb (viewInit (comp st)) then TypeError st
    else Done (thumbStyle "opacity" "" st).

Definition onTrackClick (event : MouseEvent) (st : State) : res :=
  if targetIsThumb event then Done st
  else
    let st := perform StopPropagation st in
    let clickY := Fin (clientY event) - Fin (currentTargetTop event) in
    if negb (viewInit (comp st)) then TypeError st
    else
      let thumbHeight : num := offsetHeight (thumb (page st)) in
      let targetThumbY := clickY - thumbHeight / Fin 2 in
      let thumbMaxY := Fin (clientHeight (viewport (page st))) - thumbHeight in
      let clampedThumbY := max (Fin 0) (min targetThumbY thumbMaxY) in
      let scrollPercentage := clampedThumbY / thumbMaxY in
      let scrollHeight : num := scrollHeight (viewport (page st)) in
      let clientHeight : num := clientHeight (viewport (page st)) in
      let newScrollTop := scrollPercentage * (scrollHeight - clientHeight) in
      Done (perform (ScrollTo newScrollTop "smooth") st).

Definition onThumbTouchStart (event : TouchEvent) (st : State) : res :=
  let st := perform PreventDefault st in
  let touch := hd_error (touches event) in
  let st := Update.onComp (Update.isDragging_ true) st in
  match touch with
  | None => TypeError st
  | Some touch_clientY =>
      let st := Update.onComp (Update.dragStartY_ touch_clientY) st in
      if negb (viewInit (comp st)) then TypeError st
      else
        let transform :=
          getPropertyValue "transform" (style (thumb (page st))) in
        let match_ := match_translate3d transform in
        let st :=
          Update.onComp
            (Update.thumbStartY_
               (match match_ with
                | Some group1 => parseFloat group1
                | None => Fin 0
                end)) st in
        let '(f, st) := bind OnDocumentTouchMove st in
        let st := addEventListener Document "touchmove" f st in
        let '(g, st) := bind OnDocumentTouchEnd st in
        let st := addEventListener Document "touchend" g st in
        Done (thumbStyle "opacity" "0.8" st)
  end.

Definition onDocumentTouchMove (event : TouchEvent) (st : State) : res :=
  if negb (isDragging (comp st)) then Done st
  else
    let st := perform PreventDefault st in
    match hd_error (touches event) with
    | None => TypeError st
    | Some touch_clientY =>
        let deltaY := Fin touch_clientY - Fin (dragStartY (comp st)) in
        let newThumbY := thumbStartY (comp st) + deltaY in
        if negb (viewInit (comp st)) then TypeError st
        else
          let thumbMaxY :=
            Fin (clientHeight (viewport (page st)))
            - Fin (offsetHeight (thumb (page st))) in
          let clampedThumbY := max (Fin 0) (min newThumbY thumbMaxY) in
          let st :=
            thumbStyle "transform"
              ("translate3d(0, " ++ toStr clampedThumbY ++ "px, 0)") st in
          let scrollPercentage := clampedThumbY / thumbMaxY in
          let scrollHeight : num := scrollHeight (viewport (page st)) in
          let clientHeight : num := clientHeight (viewport (page st)) in
          let newScrollTop :=
            scrollPercentage * (scrollHeight - clientHeight) in
          Done (perform (AssignScrollTop newScrollTop) st)
    end.

Definition onDocumentTouchEnd (st : State) : res :=
  if negb (isDragging (comp st)) then Done st
  else
    let st := Update.onComp (Update.isDragging_ false) st in
    let '(f, st) := bind OnDocumentTouchMove st in
    let st := removeEventListener Document "touchmove" f st in
    let '(g, st) := bind OnDocumentTouchEnd st in
    let st := removeEventListener Document "touchend" g st in
    if negb (viewInit (comp st)) then TypeError st
    else Done (thumbStyle "opacity" "" st).

Definition onWindowResize (st : State) : State :=
  setTimeout Recompute 100 st.

(** *** The event loop *)

(** Calling a bound function with an event object.  The browser hands a
    [MouseEvent] to listeners of mouse event types and a [TouchEvent] to
    listeners of touch event types; other pairings do not occur. *)
Definition call (m : Method) (ev : Event) (st : State) : res :=
  match m, ev with
  | OnThumbMouseDown, Mouse e => onThumbMouseDown e st
  | OnDocumentMouseMove, Mouse e => onDocumentMouseMove e st
  | OnDocumentMouseUp, Mouse _ => onDocumentMouseUp st
  | OnThumbTouchStart, Touch e => onThumbTouchStart e st
  | OnDocumentTouchMove, Touch e => onDocumentTouchMove e st
  | OnDocumentTouchEnd, Touch _ => onDocumentTouchEnd st
  | _, _ => Done st
  end.

(** An event of [type] reaches [target]: the listeners registered for it
    when the dispatch starts run in registration order; an exception in one
    of them is reported and does not stop the others. *)
Definition dispatch (target : Target) (type : string) (ev : Event)
  (st : State) : State :=
  fold_left
    (fun s l =>
       if Target_eqb (on_target l) target && String.eqb (on_type l) type
       then state_of (call (fn_method (on_fn l)) ev s)
       else s)
    (listeners (env st)) st.

(** A pending timer fires: a timeout is spent, an interval stays. *)
Definition fire (id : nat) (st : State) : State :=
  match find (fun t => Nat.eqb (timer_id t) id) (timers (env st)) with
  | Some t =>
      let st :=
        if repeats t then st
        else Update.onEnv (Update.timers_
               (filter (fun t' => negb (Nat.eqb (timer_id t') id)))) st in
      state_of (runCallback (callback t) st)
  | None => st
  end.

(** What can happen to a mounted component: an event reaches the listeners
    of a target; the viewport reports a scroll ([onContentScroll]); the
    track is clicked ([onTrackClick]); the window is resized
    ([onWindowResize]); the observed content mutates; a timer fires; the
    router ends a navigation; the browser lays the page out again. *)
Inductive Input : Type :=
| Deliver (target : Target) (type : string) (ev : Event)
| ViewportScrolled
| TrackClicked (e : MouseEvent)
| WindowResized
| ContentMutated
| TimerFired (id : nat)
| Navigated (url : string)
| Layout (vp : Viewport) (thumbHeight : Q).

Definition step (i : Input) (st : State) : State :=
  match i with
  | Deliver target type ev => dispatch target type ev st
  | ViewportScrolled => state_of (onContentScroll st)
  | TrackClicked e => state_of (onTrackClick e st)
  | WindowResized => onWindowResize st
  | ContentMutated =>
      match contentObserver (comp st) with
      | Some o => if observing o then observerCallback st else st
      | None => st
      end
  | TimerFired id => fire id st
  | Navigated url => navigationEnd url st
  | Layout vp thumbHeight =>
      Update.onPage (Update.layout_ vp thumbHeight) st
  end.

Definition run (inputs : list Input) (st : State) : State :=
  fold_left (fun s i => step i s) inputs st.

(** Whether timer [id], if it is pending, is the periodic recheck. *)
Definition recheckTimer (id : nat) (st : State) : bool :=
  match find (fun t => Nat.eqb (timer_id t) id) (timers (env st)) with
  | Some t =>
      match callback t with
      | Recheck => true
      | Recompute => false
      end
  | None => true
  end.

(** The inputs other than the delivery of an event to a listener and the
    firing of a [Recompute] timeout. *)
Definition ambient (st : State) (i : Input) : bool :=
  match i with
  | Deliver _ _ _ => false
  | TimerFired id => recheckTimer id st
  | _ => true
  end.

(** Every input of the run is [ambient] in the state it arrives in. *)
Fixpoint ambientRun (inputs : list Input) (st : State) : bool :=
  match inputs with
  | [] => true
  | i :: rest => ambient st i && ambientRun rest (step i st)
  end.

End Methods.

(** ** Identities

    Function objects and timers take their identity from [nextId], so every
    registered listener is older than the next object [bind] will make. *)
Definition fresh (st : State) : Prop :=
  Forall (fun l => (fn_id (on_fn l) < nextId (env st))%nat)
    (listeners (env st)).

(** A listener is [wired] when it stands where the component puts the
    method it calls: [onThumbMouseDown] on the thumb for [mousedown],
    [onDocumentMouseMove] on the document for [mousemove], and so on. *)
Definition wired (l : Listener) : bool :=
  match on_target l, fn_method (on_fn l) with
  | ThumbEl, OnThumbMouseDown => String.eqb (on_type l) "mousedown"
  | ThumbEl, OnThumbTouchStart => String.eqb (on_type l) "touchstart"
  | Document, OnDocumentMouseMove => String.eqb (on_type l) "mousemove"
  | Document, OnDocumentMouseUp => String.eqb (on_type l) "mouseup"
  | Document, OnDocumentTouchMove => String.eqb (on_type l) "touchmove"
  | Document, OnDocumentTouchEnd => String.eqb (on_type l) "touchend"
  | _, _ => false
  end.

(** Whether some listener is registered on [target] for [type]. *)
Definition listening (target : Target) (type : string) (st : State) : bool :=
  existsb
    (fun l => Target_eqb (on_target l) target && String.eqb (on_type l) type)
    (listeners (env st)).

(** What holds of a component from [ngAfterViewInit] on: the view is
    initialised, identities are fresh, every listener is wired, and the
    thumb listens for [mousedown]. *)
Definition live (st : State) : Prop :=
  viewInit (comp st) = true
  /\ fresh st
  /\ forallb wired (listeners (env st)) = true
  /\ listening ThumbEl "mousedown" st = true.

(** The effects that move the viewport: an assignment to [scrollTop] and a
    call of [scrollTo]. *)
Definition scrolls (e : Effect) : bool :=
  match e with
  | AssignScrollTop _ | ScrollTo _ _ => true
  | PreventDefault | StopPropagation => false
  end.

(** Timers take their identifier from [nextId] too: the pending ones are
    older than the next object and no two of them share an identifier. *)
Definition distinctTimers (st : State) : Prop :=
  Forall (fun t => (timer_id t < nextId (env st))%nat) (timers (env st))
  /\ NoDup (map timer_id (timers (env st))).

(** ** A decimal printer

    [decimalString] agrees with [Number::toString] on [NaN], on the
    infinities, on integers of magnitude below [1e21] and on decimal
    fractions with few digits; a longer expansion is cut after sixteen
    fractional digits.  It instantiates [toStr] in the examples. *)

Module Printer.

Definition digitString (d : Z) : string :=
  String (ascii_of_nat (48 + Z.to_nat d)) EmptyString.

Fixpoint natural (fuel : nat) (z : Z) : string :=
  match fuel with
  | O => ""
  | S fuel' =>
      if (z <? 10)%Z then digitString z
      else natural fuel' (z / 10)%Z ++ digitString (z mod 10)%Z
  end.

(** The digits of [r / d] after the decimal point, for [0 <= r < d]. *)
Fixpoint fraction (fuel : nat) (r d : Z) : string :=
  match fuel with
  | O => ""
  | S fuel' =>
      if (r =? 0)%Z then ""
      else digitString (10 * r / d)%Z ++ fraction fuel' ((10 * r) mod d)%Z d
  end.

Definition decimalString (n : num) : string :=
  match n with
  | NaN => "NaN"
  | PInf => "Infinity"
  | NInf => "-Infinity"
  | Fin q =>
      let a := Z.abs (Qnum q) in
      let d := Z.pos (Qden q) in
      let sign := if (Qnum q <? 0)%Z then "-" else "" in
      let whole := natural (S (Z.to_nat (Z.log2 a))) (a / d)%Z in
      let frac := fraction 16 (a mod d)%Z d in
      match frac with
      | EmptyString => if (a =? 0)%Z then "0" else sign ++ whole
      | _ => sign ++ whole ++ "." ++ frac
      end
  end.

End Printer.

Import Printer.

(** ** The numbers the methods compute

    The methods write numbers into strings ([style.height],
    [style.transform]).  The definitions below name the values of the local
    constants of the methods, so that statements can speak about them; the
    theorems relate them to what the methods write. *)

Module Geometry.

Local Open Scope num_scope.

(** [thumbHeight] in [updateThumbSize]. *)
Definition thumbHeight (vp : Viewport) : num :=
  let scrollHeight : num := scrollHeight vp in
  let clientHeight : num := clientHeight vp in
  let thumbHeightRatio := clientHeight / scrollHeight in
  let minThumbHeight : num := Fin 50 in
  let maxThumbHeight := clientHeight - Fin 20 in
  let calculatedHeight := clientHeight * thumbHeightRatio in
  max minThumbHeight (min maxThumbHeight calculatedHeight).

(** [thumbMaxY], the same expression in every method that uses it. *)
Definition thumbMaxY (vp : Viewport) (thumbEl : Element) : num :=
  Fin (clientHeight vp) - Fin (offsetHeight thumbEl).

(** [thumbY] in [updateThumbPosition]. *)
Definition thumbY (vp : Viewport) (thumbEl : Element) : num :=
  let scrollPercentage :=
    Fin (scrollTop vp) / (Fin (scrollHeight vp) - Fin (clientHeight vp)) in
  scrollPercentage * thumbMaxY vp thumbEl.

(** [newThumbY] in [onDocumentMouseMove] and [onDocumentTouchMove], for a
    pointer at [pointerY]: [thumbStartY + deltaY]. *)
Definition newThumbY (c : Component) (pointerY : Q) : num :=
  thumbStartY c + (Fin pointerY - Fin (dragStartY c)).

(** [clampedThumbY] in [onDocumentMouseMove], [onDocumentTouchMove] and
    [onTrackClick], for a candidate offset [y]. *)
Definition clampedThumbY (vp : Viewport) (thumbEl : Element) (y : num) : num :=
  max (Fin 0) (min y (thumbMaxY vp thumbEl)).

(** [newScrollTop] in the same three methods, for a clamped offset [y]. *)
Definition newScrollTop (vp : Viewport) (thumbEl : Element) (y : num) : num :=
  let scrollPercentage := y / thumbMaxY vp thumbEl in
  scrollPercentage * (Fin (scrollHeight vp) - Fin (clientHeight vp)).

(** The metrics of [vp] once the browser has scrolled it to [top]. *)
Definition scrolledTo (top : Q) (vp : Viewport) : Viewport :=
  {| scrollTop := top;
     scrollHeight := scrollHeight vp;
     clientHeight := clientHeight vp |}.

(** The [style.transform] of the thumb, where its position is written. *)
Definition thumbTransform (st : State) : string :=
  getPropertyValue "transform" (style (thumb (page st))).

(** The text of [`translate3d(0, ${y}px, 0)`]. *)
Definition translate3d (toStr : num -> string) (y : num) : string :=
  "translate3d(0, " ++ toStr y ++ "px, 0)".

End Geometry.

(** ** Arithmetic in doubles

    [updateThumbPosition] and [onDocumentMouseMove] once more, with the
    rounding that every arithmetic operation on doubles performs.  [rnd]
    sends the exact result of an operation to the double that stands for it;
    comparisons, [Math.max] and [Math.min] are exact.  Overflow is not
    modelled: a finite result stays finite. *)

Module Double.

Section Rounded.

Variable rnd : Q -> Q.
Variable toStr : num -> string.

Local Open Scope num_scope.

Definition round (x : num) : num :=
  match x with
  | Fin q => Fin (rnd q)
  | _ => x
  end.

(** [thumbMaxY], as every method computes it. *)
Definition thumbMaxY (vp : Viewport) (thumbEl : Element) : num :=
  round (Fin (clientHeight vp) - Fin (offsetHeight thumbEl)).

(** [thumbY] in [updateThumbPosition]. *)
Definition thumbY (vp : Viewport) (thumbEl : Element) : num :=
  let scrollPercentage :=
    round (Fin (scrollTop vp)
           / round (Fin (scrollHeight vp) - Fin (clientHeight vp))) in
  round (scrollPercentage * thumbMaxY vp thumbEl).

(** [newThumbY] in [onDocumentMouseMove], for a pointer at [pointerY]. *)
Definition newThumbY (c : Component) (pointerY : Q) : num :=
  let deltaY := round (Fin pointerY - Fin (dragStartY c)) in
  round (thumbStartY c + deltaY).

(** [clampedThumbY] in [onDocumentMouseMove], for a candidate offset [y]. *)
Definition clampedThumbY (vp : Viewport) (thumbEl : Element) (y : num) : num :=
  max (Fin 0) (min y (thumbMaxY vp thumbEl)).

(** [newScrollTop] in [onDocumentMouseMove], for a clamped offset [y]. *)
Definition newScrollTop (vp : Viewport) (thumbEl : Element) (y : num) : num :=
  let scrollPercentage := round (y / thumbMaxY vp thumbEl) in
  round (scrollPercentage
         * round (Fin (scrollHeight vp) - Fin (clientHeight vp))).

Definition updateThumbPosition (st : State) : res :=
  if negb (viewInit (comp st)) then TypeError st
  else
    let scrollTop : num := scrollTop (viewport (page st)) in
    let scrollHeight : num := scrollHeight (viewport (page st)) in
    let clientHeight : num := clientHeight (viewport (page st)) in
    let scrollPercentage :=
      round (scrollTop / round (scrollHeight - clientHeight)) in
    let thumbMaxY :=
      round (clientHeight - Fin (offsetHeight (thumb (page st)))) in
    let thumbY := round (scrollPercentage * thumbMaxY) in
    Done (thumbStyle "transform"
            ("translate3d(0, " ++ toStr thumbY ++ "px, 0)") st).

Definition onDocumentMouseMove (event : MouseEvent) (st : State) : res :=
  if negb (isDragging (comp st)) then Done st
  else
    let st := perform PreventDefault st in
    let deltaY := round (Fin (clientY event) - Fin (dragStartY (comp st))) in
    let newThumbY := round (thumbStartY (comp st) + deltaY) in
    if negb (viewInit (comp st)) then TypeError st
    else
      let thumbMaxY :=
        round (Fin (clientHeight (viewport (page st)))
               - Fin (offsetHeight (thumb (page st)))) in
      let clampedThumbY := max (Fin 0) (min newThumbY thumbMaxY) in
      let st :=
        thumbStyle "transform"
          ("translate3d(0, " ++ toStr clampedThumbY ++ "px, 0)") st in
      let scrollPercentage := round (clampedThumbY / thumbMaxY) in
      let scrollHeight : num := scrollHeight (viewport (page st)) in
      let clientHeight : num := clientHeight (viewport (page st)) in
      let newScrollTop :=
        round (scrollPercentage * round (scrollHeight - clientHeight)) in
      Done (perform (AssignScrollTop newScrollTop) st).

End Rounded.

End Double.

(** ** States used in the examples *)

Module Sample.

(** A component as its constructor leaves it, on a page whose viewport has
    the metrics [vp], whose thumb is laid out [thumbHeight] pixels high and
    sits in a track. *)
Definition newComponent (vp : Viewport) (thumbHeight : Q) : State :=
  {| comp :=
       {| scrollbarWidth := Fin 10;
          trackColorOverride := "";
          thumbColorOverride := "";
          viewInit := false;
          routerSubscription := false;
          currentThemeColor := Green;
          isDragging := false;
          dragStartY := 0;
          thumbStartY := Fin 0;
          contentObserver := None |};
     page :=
       {| viewport := vp;
          thumb := {| style := []; offsetHeight := thumbHeight |};
          track := Some {| style := []; offsetHeight := clientHeight vp |};
          root := [] |};
     env :=
       {| listeners := [];
          timers := [];
          nextId := 0;
          effects := [];
          hasMutationObserver := true;
          routerUrl := "/cells" |} |}.

(** The same component once [ngOnInit] and [ngAfterViewInit] have run. *)
Definition mounted (toStr : num -> string) (vp : Viewport) (thumbHeight : Q)
  : State :=
  ngAfterViewInit toStr (ngOnInit (newComponent vp thumbHeight)).

(** [mounted], in the middle of a drag that started at pointer position
    [startY] with the thumb at offset [thumbY]. *)
Definition dragging (toStr : num -> string) (vp : Viewport) (thumbHeight : Q)
  (startY : Q) (thumbY : num) : State :=
  Update.onComp
    (fun c =>
       Update.thumbStartY_ thumbY
         (Update.dragStartY_ startY (Update.isDragging_ true c)))
    (mounted toStr vp thumbHeight).

(** [mounted], for a host that sets [scrollbarWidth], [trackColorOverride]
    and [thumbColorOverride]. *)
Definition customized (toStr : num -> string) (width : num)
  (trackColor thumbColor : string) (vp : Viewport) (thumbHeight : Q) : State :=
  ngAfterViewInit toStr
    (ngOnInit
       (Update.onComp (Update.inputs_ width trackColor thumbColor)
          (newComponent vp thumbHeight))).

(** 300 pixels of a 1000 pixel content, scrolled to [top]. *)
Definition tall (top : Q) : Viewport :=
  {| scrollTop := top; scrollHeight := 1000; clientHeight := 300 |}.

(** Content that fits: nothing to scroll. *)
Definition fitting : Viewport :=
  {| scrollTop := 0; scrollHeight := 300; clientHeight := 300 |}.

(** 300 pixels of a content of [height] pixels, long enough for the thumb
    to stay at its minimum height. *)
Definition long (top height : Q) : Viewport :=
  {| scrollTop := top; scrollHeight := height; clientHeight := 300 |}.

(** A viewport lower than the minimum thumb height plus the edge margin. *)
Definition low (top : Q) (height : Q) : Viewport :=
  {| scrollTop := top; scrollHeight := 100; clientHeight := height |}.

Definition mouseAt (y : Q) : MouseEvent :=
  {| clientY := y; targetIsThumb := false; currentTargetTop := 0 |}.

End Sample.

(** * Properties *)

(** ** Inline styles *)

Section StyleFacts.

Lemma getProperty_set_same (name value priority : string) (s : Style) :
  getProperty name (setProperty name value priority s)
  = Some (value, priority).
Proof.
  unfold getProperty, setProperty. simpl.
  now rewrite String.eqb_refl.
Qed.

Lemma find_filter_other (n m : string) (s : Style) :
  String.eqb m n = false ->
  find (fun e => String.eqb (fst e) n)
       (filter (fun e => negb (String.eqb (fst e) m)) s)
  = find (fun e => String.eqb (fst e) n) s.
Proof.
  intros Hnm. induction s as [|[k v] s IH]; simpl; [reflexivity|].
  destruct (String.eqb k m) eqn:Hkm; simpl.
  - apply String.eqb_eq in Hkm. subst k. now rewrite Hnm.
  - destruct (String.eqb k n); [reflexivity | exact IH].
Qed.

Lemma getProperty_set_other (n m value priority : string) (s : Style) :
  String.eqb m n = false ->
  getProperty n (setProperty m value priority s) = getProperty n s.
Proof.
  intros Hnm. unfold getProperty, setProperty. simpl.
  rewrite Hnm. now rewrite find_filter_other.
Qed.

Lemma getPropertyValue_set_same (name value priority : string) (s : Style) :
  getPropertyValue name (setProperty name value priority s) = value.
Proof.
  unfold getPropertyValue. now rewrite getProperty_set_same.
Qed.

Lemma getPropertyPriority_set_same (name value priority : string) (s : Style) :
  getPropertyPriority name (setProperty name value priority s) = priority.
Proof.
  unfold getPropertyPriority. now rewrite getProperty_set_same.
Qed.

Lemma getPropertyValue_set_other (n m value priority : string) (s : Style) :
  String.eqb m n = false ->
  getPropertyValue n (setProperty m value priority s) = getPropertyValue n s.
Proof.
  intros Hnm. unfold getPropertyValue. now rewrite getProperty_set_other.
Qed.

End StyleFacts.

Create Rewrite HintDb style.
#[local] Hint Rewrite getPropertyValue_set_same getPropertyPriority_set_same
  : style.
#[local] Hint Rewrite getPropertyValue_set_other using reflexivity : style.

(** Closes a comparison of two rational constants. *)
Ltac qconst := unfold Qle, Qlt, Qeq; simpl; lia.

(** ** Hiding the scrollbar *)

(** C4.  When [scrollHeight <= clientHeight + 5], whatever [scrollTop] is,
    [updateThumbSize] returns after setting the [display] of the thumb to
    [none] and that of the track, the thumb's parent element when it has one,
    to [none] as well; no height is computed: [style.height] and
    [style.transform] of the thumb, the component's fields, the viewport and
    the environment are left as they were. *)
Theorem updateThumbSize_hides (toStr : num -> string) (st : State) :
  viewInit (comp st) = true ->
  scrollHeight (viewport (page st)) <= clientHeight (viewport (page st)) + 5 ->
  exists st',
    updateThumbSize toStr st = Done st'
    /\ getPropertyValue "display" (style (thumb (page st'))) = "none"
    /\ (forall t, track (page st) = Some t ->
        exists t', track (page st') = Some t'
                   /\ getPropertyValue "display" (style t') = "none")
    /\ getPropertyValue "height" (style (thumb (page st')))
       = getPropertyValue "height" (style (thumb (page st)))
    /\ getPropertyValue "transform" (style (thumb (page st')))
       = getPropertyValue "transform" (style (thumb (page st)))
    /\ comp st' = comp st
    /\ viewport (page st') = viewport (page st)
    /\ env st' = env st.
Proof.
  intros Hinit Hfit.
  unfold updateThumbSize. rewrite Hinit. simpl.
  apply Qle_bool_iff in Hfit. rewrite Hfit.
  eexists. split; [reflexivity|]. simpl.
  autorewrite with style.
  repeat split; try reflexivity.
  intros t Ht. rewrite Ht. simpl. eexists. split; [reflexivity|].
  simpl. now autorewrite with style.
Qed.

Lemma updateThumbSize_hides_witness :
  exists st',
    updateThumbSize decimalString
      (Sample.mounted decimalString Sample.fitting 0) = Done st'
    /\ getPropertyValue "display" (style (thumb (page st'))) = "none".
Proof.
  destruct (updateThumbSize_hides decimalString
              (Sample.mounted decimalString Sample.fitting 0))
    as (st' & Hrun & Hthumb & _).
  - reflexivity.
  - qconst.
  - exists st'. split; assumption.
Defined.

(** ** Arithmetic of [num] *)

Section NumFacts.

Lemma Qle_bool_false (x y : Q) : Qle_bool x y = false -> y < x.
Proof.
  intros H. apply Qnot_le_lt. intros Hle.
  apply Qle_bool_iff in Hle. congruence.
Qed.

Lemma Qzero_true (x : Q) : Qzero x = true <-> x == 0.
Proof. unfold Qzero. apply Qeq_bool_iff. Qed.

Lemma Qzero_false (x : Q) : Qzero x = false <-> ~ x == 0.
Proof.
  unfold Qzero. split.
  - intros H Hx. apply Qeq_bool_iff in Hx. congruence.
  - intros H. destruct (Qeq_bool x 0) eqn:E; [|reflexivity].
    apply Qeq_bool_iff in E. contradiction.
Qed.

Lemma Qneg_true (x : Q) : Qneg x = true <-> x < 0.
Proof.
  unfold Qneg. split.
  - intros H. apply Qle_bool_false. now apply negb_true_iff.
  - intros H. apply negb_true_iff.
    destruct (Qle_bool 0 x) eqn:E; [|reflexivity].
    apply Qle_bool_iff in E. exfalso. exact (Qlt_not_le _ _ H E).
Qed.

(** [Math.max(0, Math.min(y, m))] of finite numbers. *)
Lemma clamp_Fin (y m : Q) :
  max (Fin 0) (min (Fin y) (Fin m))
  = Fin (if Qle_bool y m
         then (if Qle_bool 0 y then y else 0)
         else (if Qle_bool 0 m then m else 0)).
Proof.
  simpl. destruct (Qle_bool y m); simpl.
  - now destruct (Qle_bool 0 y).
  - now destruct (Qle_bool 0 m).
Qed.

End NumFacts.

(** ** The height of the thumb *)

(** The value of [Geometry.thumbHeight] when scrolling is needed: a finite
    number, at least 50, which stays below [clientHeight - 20] as soon as
    that bound is itself at least 50 and is 50 otherwise. *)
Lemma thumbHeight_bounds (vp : Viewport) :
  clientHeight vp + 5 < scrollHeight vp ->
  exists h : Q,
    Geometry.thumbHeight vp = Fin h
    /\ 50 <= h
    /\ (70 <= clientHeight vp -> h <= clientHeight vp - 20)
    /\ (clientHeight vp < 70 -> h == 50).
Proof.
  destruct vp as [top sh ch]. simpl. intros Hneed.
  unfold Geometry.thumbHeight. simpl.
  destruct (Qzero sh) eqn:Hsh.
  - apply Qzero_true in Hsh.
    assert (Hch : ch < 0) by lra.
    assert (Hz : Qzero ch = false) by (apply Qzero_false; lra).
    assert (Hn : Qneg ch = true) by (now apply Qneg_true).
    rewrite Hz, Hn. simpl.
    destruct (Qle_bool 50 (ch + - (20))) eqn:E.
    + apply Qle_bool_iff in E. exfalso. lra.
    + exists 50. repeat split; try lra.
  - simpl.
    destruct (Qle_bool (ch + - (20)) (ch * (ch / sh))) eqn:E1; simpl.
    + destruct (Qle_bool 50 (ch + - (20))) eqn:E2.
      * apply Qle_bool_iff in E2.
        exists (ch + - (20)). repeat split; lra.
      * apply Qle_bool_false in E2.
        exists 50. repeat split; lra.
    + apply Qle_bool_false in E1.
      destruct (Qle_bool 50 (ch * (ch / sh))) eqn:E2.
      * apply Qle_bool_iff in E2.
        exists (ch * (ch / sh)). repeat split; lra.
      * apply Qle_bool_false in E2.
        exists 50. repeat split; lra.
Qed.

(** C2, as the code has it.  When [scrollHeight > clientHeight + 5],
    [updateThumbSize] shows the thumb and writes [thumbHeight]px into its
    [style.height], where [thumbHeight] is at least [minThumbHeight = 50];
    it is at most [clientHeight - 20] provided [clientHeight >= 70], and it
    is the minimum, 50, when [clientHeight < 70]. *)
Theorem updateThumbSize_height (toStr : num -> string) (st : State) :
  viewInit (comp st) = true ->
  clientHeight (viewport (page st)) + 5 < scrollHeight (viewport (page st)) ->
  exists (st' : State) (h : Q),
    updateThumbSize toStr st = Done st'
    /\ getPropertyValue "display" (style (thumb (page st'))) = "block"
    /\ getPropertyValue "height" (style (thumb (page st')))
       = toStr (Fin h) ++ "px"
    /\ Geometry.thumbHeight (viewport (page st)) = Fin h
    /\ 50 <= h
    /\ (70 <= clientHeight (viewport (page st)) ->
        h <= clientHeight (viewport (page st)) - 20)
    /\ (clientHeight (viewport (page st)) < 70 -> h == 50).
Proof.
  intros Hinit Hneed.
  destruct (thumbHeight_bounds (viewport (page st)) Hneed)
    as (h & Hh & Hmin & Hmax & Hlow).
  unfold updateThumbSize. rewrite Hinit. simpl.
  destruct (Qle_bool (scrollHeight (viewport (page st)))
              (clientHeight (viewport (page st)) + 5)) eqn:E.
  - apply Qle_bool_iff in E. exfalso. lra.
  - eexists. exists h. split; [reflexivity|]. simpl.
    autorewrite with style.
    unfold Geometry.thumbHeight in Hh. rewrite <- Hh.
    repeat split; assumption.
Qed.

Lemma updateThumbSize_height_witness :
  exists (st' : State) (h : Q),
    updateThumbSize decimalString
      (Sample.mounted decimalString (Sample.tall 0) 90) = Done st'
    /\ Geometry.thumbHeight (Sample.tall 0) = Fin h
    /\ 50 <= h.
Proof.
  destruct (updateThumbSize_height decimalString
              (Sample.mounted decimalString (Sample.tall 0) 90))
    as (st' & h & Hrun & _ & _ & Hh & Hmin & _).
  - reflexivity.
  - qconst.
  - exists st', h. repeat split; assumption.
Defined.

(** C2, as the claim states it, fails in a viewport 40 pixels high with 100
    pixels of content: scrolling is needed, the height written is 50px, and
    50 is above [clientHeight - edgeMargin = 20]. *)
Lemma updateThumbSize_height_above_margin :
  clientHeight (Sample.low 0 40) + 5 < scrollHeight (Sample.low 0 40)
  /\ Geometry.thumbHeight (Sample.low 0 40) = Fin 50
  /\ getPropertyValue "height"
       (style (thumb (page (state_of
          (updateThumbSize decimalString
             (Sample.mounted decimalString (Sample.low 0 40) 50))))))
     = "50px"
  /\ ~ 50 <= clientHeight (Sample.low 0 40) - 20.
Proof.
  repeat split; try reflexivity.
  intros H. revert H. qconst.
Qed.

(** ** The position of the thumb *)

(** C1, as the code has it.  [updateThumbPosition] writes
    [translate3d(0, thumbY px, 0)] with
    [thumbY = scrollTop / (scrollHeight - clientHeight) * thumbMaxY]; the
    division has no guard.  When the denominator is not zero, [thumbY] is
    that quotient times [thumbMaxY = clientHeight - offsetHeight]; when the
    denominator is zero, [thumbY] is no finite number at all, and it is [NaN]
    when moreover [scrollTop] is zero. *)
Theorem updateThumbPosition_offset (toStr : num -> string) (st : State) :
  viewInit (comp st) = true ->
  let vp := viewport (page st) in
  let thumbEl := thumb (page st) in
  exists st',
    updateThumbPosition toStr st = Done st'
    /\ getPropertyValue "transform" (style (thumb (page st')))
       = Geometry.translate3d toStr (Geometry.thumbY vp thumbEl)
    /\ (~ scrollHeight vp - clientHeight vp == 0 ->
        Geometry.thumbY vp thumbEl
        = Fin (scrollTop vp / (scrollHeight vp - clientHeight vp)
               * (clientHeight vp - offsetHeight thumbEl)))
    /\ (scrollHeight vp - clientHeight vp == 0 ->
        forall y : Q, Geometry.thumbY vp thumbEl <> Fin y)
    /\ (scrollHeight vp - clientHeight vp == 0 -> scrollTop vp == 0 ->
        Geometry.thumbY vp thumbEl = NaN).
Proof.
  intros Hinit vp thumbEl.
  unfold updateThumbPosition. rewrite Hinit. simpl.
  eexists. split; [reflexivity|]. simpl. autorewrite with style.
  split; [reflexivity|].
  unfold Geometry.thumbY, Geometry.thumbMaxY. fold vp thumbEl. simpl.
  repeat split.
  - intros Hden. apply Qzero_false in Hden.
    unfold Qminus in Hden. now rewrite Hden.
  - intros Hden y. apply Qzero_true in Hden.
    unfold Qminus in Hden. rewrite Hden.
    destruct (Qzero (scrollTop vp)), (Qneg (scrollTop vp)); simpl;
      try discriminate;
      destruct (Qzero (clientHeight vp + - offsetHeight thumbEl)),
        (Qneg (clientHeight vp + - offsetHeight thumbEl)); simpl; discriminate.
  - intros Hden Htop. apply Qzero_true in Hden, Htop.
    unfold Qminus in Hden. now rewrite Hden, Htop.
Qed.

Lemma updateThumbPosition_offset_witness :
  exists st',
    updateThumbPosition decimalString
      (Sample.mounted decimalString (Sample.tall 700) 90) = Done st'
    /\ getPropertyValue "transform" (style (thumb (page st')))
       = "translate3d(0, 210px, 0)".
Proof.
  destruct (updateThumbPosition_offset decimalString
              (Sample.mounted decimalString (Sample.tall 700) 90))
    as (st' & Hrun & Hwritten & _).
  - reflexivity.
  - exists st'. split; [exact Hrun|]. rewrite Hwritten. reflexivity.
Defined.

(** C1, as the claim states it, fails when the content fits the viewport
    exactly: the denominator is zero, no guard replaces the fraction by 0,
    and the offset that is computed and written is [NaN], not 0. *)
Lemma updateThumbPosition_unguarded :
  scrollHeight Sample.fitting - clientHeight Sample.fitting == 0
  /\ Geometry.thumbY Sample.fitting
       (thumb (page (Sample.mounted decimalString Sample.fitting 0))) = NaN
  /\ getPropertyValue "transform"
       (style (thumb (page (state_of
          (updateThumbPosition decimalString
             (Sample.mounted decimalString Sample.fitting 0))))))
     = "translate3d(0, NaNpx, 0)"
  /\ Geometry.translate3d decimalString (Fin 0) = "translate3d(0, 0px, 0)".
Proof.
  repeat split.
Qed.

(** ** Dragging *)

Section Drag.

Variable toStr : num -> string.

(** What a move does while a drag is active, in terms of the numbers of
    [Geometry]. *)
Lemma onDocumentMouseMove_dragging (event : MouseEvent) (st : State) :
  viewInit (comp st) = true ->
  isDragging (comp st) = true ->
  let vp := viewport (page st) in
  let thumbEl := thumb (page st) in
  let y := Geometry.clampedThumbY vp thumbEl (Geometry.newThumbY (comp st) (clientY event)) in
  onDocumentMouseMove toStr event st
  = Done (perform (AssignScrollTop (Geometry.newScrollTop vp thumbEl y))
            (thumbStyle "transform" (Geometry.translate3d toStr y)
               (perform PreventDefault st))).
Proof.
  intros Hinit Hdrag. unfold onDocumentMouseMove.
  rewrite Hdrag. simpl. rewrite Hinit. reflexivity.
Qed.

Lemma onDocumentTouchMove_dragging (event : TouchEvent) (touchY : Q)
  (st : State) :
  viewInit (comp st) = true ->
  isDragging (comp st) = true ->
  hd_error (touches event) = Some touchY ->
  let vp := viewport (page st) in
  let thumbEl := thumb (page st) in
  let y := Geometry.clampedThumbY vp thumbEl (Geometry.newThumbY (comp st) touchY) in
  onDocumentTouchMove toStr event st
  = Done (perform (AssignScrollTop (Geometry.newScrollTop vp thumbEl y))
            (thumbStyle "transform" (Geometry.translate3d toStr y)
               (perform PreventDefault st))).
Proof.
  intros Hinit Hdrag Htouch. unfold onDocumentTouchMove.
  rewrite Hdrag. simpl. rewrite Htouch, Hinit. reflexivity.
Qed.

End Drag.

(** [Math.max(0, Math.min(y, m))] for a track of length [m >= 0]: a finite
    number of [[0, m]]; it is 0 when [y <= 0], [m] when [m <= y], and [y]
    itself in between. *)
Lemma clamp_spec (y : num) (m : Q) :
  0 <= m ->
  y <> NaN ->
  exists c : Q,
    max (Fin 0) (min y (Fin m)) = Fin c
    /\ 0 <= c <= m
    /\ (le y (Fin 0) = true -> c == 0)
    /\ (le (Fin m) y = true -> c == m)
    /\ (forall q, y = Fin q -> 0 <= q <= m -> c == q).
Proof.
  intros Hm Hy. destruct y as [q| | |]; [| | |congruence].
  - rewrite clamp_Fin. eexists. split; [reflexivity|]. unfold le.
    destruct (Qle_bool q m) eqn:E1; destruct (Qle_bool 0 q) eqn:E2;
      destruct (Qle_bool 0 m) eqn:E3;
      try apply Qle_bool_iff in E1; try apply Qle_bool_iff in E2;
      try apply Qle_bool_iff in E3; try apply Qle_bool_false in E1;
      try apply Qle_bool_false in E2; try apply Qle_bool_false in E3;
      (split; [split; lra|];
       split; [intros H; apply Qle_bool_iff in H; lra|];
       split; [intros H; apply Qle_bool_iff in H; lra|];
       intros q' Hq' Hr; injection Hq' as <-; lra).
  - exists m. simpl.
    destruct (Qle_bool 0 m) eqn:E.
    + repeat split; try lra; intros; try discriminate; lra.
    + apply Qle_bool_false in E. lra.
  - exists 0. simpl. repeat split; try lra; intros; discriminate.
Qed.

(** C5, as the code has it.  For a drag move on a track of length
    [thumbMaxY = clientHeight - offsetHeight >= 0] and a [thumbStartY] that
    is a number, the handler writes [translate3d(0, c px, 0)] where
    [c = Math.max(0, Math.min(thumbStartY + deltaY, thumbMaxY))] lies in
    [[0, thumbMaxY]]: exactly 0 when the candidate is at or before the start
    of the track, exactly [thumbMaxY] when it is at or past its end, and the
    candidate itself in between.  The touch handler does the same with the
    first touch point. *)
Theorem onDocumentMouseMove_clamps (toStr : num -> string)
  (event : MouseEvent) (st : State) :
  viewInit (comp st) = true ->
  isDragging (comp st) = true ->
  thumbStartY (comp st) <> NaN ->
  offsetHeight (thumb (page st)) <= clientHeight (viewport (page st)) ->
  let vp := viewport (page st) in
  let thumbEl := thumb (page st) in
  let thumbMaxY := clientHeight vp - offsetHeight thumbEl in
  let candidate := Geometry.newThumbY (comp st) (clientY event) in
  exists (st' : State) (c : Q),
    onDocumentMouseMove toStr event st = Done st'
    /\ getPropertyValue "transform" (style (thumb (page st')))
       = Geometry.translate3d toStr (Fin c)
    /\ Geometry.clampedThumbY vp thumbEl candidate = Fin c
    /\ 0 <= c <= thumbMaxY
    /\ (le candidate (Fin 0) = true -> c == 0)
    /\ (le (Fin thumbMaxY) candidate = true -> c == thumbMaxY)
    /\ (forall q, candidate = Fin q -> 0 <= q <= thumbMaxY -> c == q)
    /\ (forall touchEvent,
          hd_error (touches touchEvent) = Some (clientY event) ->
          exists st'',
            onDocumentTouchMove toStr touchEvent st = Done st''
            /\ getPropertyValue "transform" (style (thumb (page st'')))
               = Geometry.translate3d toStr (Fin c)).
Proof.
  intros Hinit Hdrag Hstart Hfits vp thumbEl thumbMaxY candidate.
  assert (Hcand : candidate <> NaN).
  { unfold candidate, Geometry.newThumbY.
    destruct (thumbStartY (comp st)); simpl; congruence. }
  assert (Hlen : 0 <= thumbMaxY) by (unfold thumbMaxY, vp, thumbEl; lra).
  destruct (clamp_spec candidate thumbMaxY Hlen Hcand)
    as (c & Hc & Hrange & Hlow & Hhigh & Hmid).
  assert (Hy : Geometry.clampedThumbY vp thumbEl candidate = Fin c)
    by exact Hc.
  eexists. exists c.
  split; [apply (onDocumentMouseMove_dragging toStr event st Hinit Hdrag)|].
  fold vp thumbEl candidate. rewrite Hy. simpl. autorewrite with style.
  repeat split; try assumption; try tauto.
  intros touchEvent Htouch. eexists. split.
  - apply (onDocumentTouchMove_dragging toStr touchEvent _ st
             Hinit Hdrag Htouch).
  - fold vp thumbEl candidate. rewrite Hy. simpl.
    now autorewrite with style.
Qed.

Lemma onDocumentMouseMove_clamps_witness :
  exists (st' : State) (c : Q),
    onDocumentMouseMove decimalString (Sample.mouseAt 140)
      (Sample.dragging decimalString (Sample.tall 0) 90 100 (Fin 50))
    = Done st'
    /\ getPropertyValue "transform" (style (thumb (page st')))
       = Geometry.translate3d decimalString (Fin c)
    /\ c == 90.
Proof.
  destruct (onDocumentMouseMove_clamps decimalString (Sample.mouseAt 140)
              (Sample.dragging decimalString (Sample.tall 0) 90 100 (Fin 50)))
    as (st' & c & Hrun & Hwritten & _ & _ & _ & _ & Hmid & _).
  - reflexivity.
  - reflexivity.
  - discriminate.
  - qconst.
  - exists st', c. repeat split; try assumption.
    apply (Hmid (50 + (140 + - (100)))); [reflexivity | split; qconst].
Defined.

(** C5, as the claim states it, fails on a track shorter than the thumb.  In
    a viewport 40 pixels high the thumb is 50 pixels high, so
    [thumbMaxY = -10]; a drag 1000 pixels past the end writes the offset 0,
    which is neither [thumbMaxY] nor inside [[0, thumbMaxY]]. *)
Lemma onDocumentMouseMove_short_track :
  Geometry.thumbHeight (Sample.low 0 40) = Fin 50
  /\ clientHeight (Sample.low 0 40) - 50 == -10
  /\ getPropertyValue "transform"
       (style (thumb (page (state_of
          (onDocumentMouseMove decimalString (Sample.mouseAt 1000)
             (Sample.dragging decimalString (Sample.low 0 40) 50 0 (Fin 0)))))))
     = "translate3d(0, 0px, 0)"
  /\ ~ within 0 (clientHeight (Sample.low 0 40) - 50) (Fin 0)
  /\ ~ 0 == clientHeight (Sample.low 0 40) - 50.
Proof.
  repeat split; try reflexivity.
  - unfold within. intros [_ H]. revert H. qconst.
  - intros H. revert H. qconst.
Qed.

(** ** Fractions of the scroll range *)

(** The scroll fraction of a scroll position inside the scroll range. *)
Lemma fraction_range (top range : Q) :
  0 < range -> 0 <= top <= range ->
  0 <= top / range <= 1.
Proof.
  intros Hrange [H0 H1]. split.
  - apply Qle_shift_div_l; lra.
  - apply Qle_shift_div_r; lra.
Qed.

(** ** Click to seek *)

(** C8.  A click whose target is the thumb leaves everything as it is.  Any
    other click on the track stops the propagation of the event and asks
    the viewport for one smooth scroll, [scrollTo({top, behavior: 'smooth'})];
    nothing else changes.  The target offset is
    [(clientY - rect.top) - thumbHeight / 2] clamped by
    [Math.max(0, Math.min(_, thumbMaxY))], which lies in [[0, thumbMaxY]]
    whenever [thumbMaxY >= 0]; and [top] is obtained from the clamped offset
    [y] by [y / thumbMaxY * (scrollHeight - clientHeight)]: the number a drag
    move assigns to [scrollTop] whenever its own clamped offset is [y]. *)
Theorem onTrackClick_seeks (toStr : num -> string) (event : MouseEvent)
  (st : State) :
  let vp := viewport (page st) in
  let thumbEl := thumb (page st) in
  let targetThumbY :=
    ((Fin (clientY event) - Fin (currentTargetTop event))
     - Fin (offsetHeight thumbEl) / Fin 2)%num in
  let y := max (Fin 0) (min targetThumbY (Geometry.thumbMaxY vp thumbEl)) in
  let top := Geometry.newScrollTop vp thumbEl y in
  viewInit (comp st) = true ->
  (targetIsThumb event = true -> onTrackClick event st = Done st)
  /\ (targetIsThumb event = false ->
      exists st',
        onTrackClick event st = Done st'
        /\ effects (env st')
           = (effects (env st) ++ [StopPropagation; ScrollTo top "smooth"])%list
        /\ comp st' = comp st
        /\ page st' = page st
        /\ listeners (env st') = listeners (env st)
        /\ timers (env st') = timers (env st))
  /\ (offsetHeight thumbEl <= clientHeight vp ->
      within 0 (clientHeight vp - offsetHeight thumbEl) y)
  /\ (forall (move : MouseEvent) (d : State),
        viewInit (comp d) = true ->
        isDragging (comp d) = true ->
        page d = page st ->
        Geometry.clampedThumbY vp thumbEl
          (Geometry.newThumbY (comp d) (clientY move)) = y ->
        exists d',
          onDocumentMouseMove toStr move d = Done d'
          /\ effects (env d')
             = (effects (env d) ++ [PreventDefault; AssignScrollTop top])%list).
Proof.
  intros vp thumbEl targetThumbY y top Hinit. split; [|split; [|split]].
  - intros Hthumb. unfold onTrackClick. now rewrite Hthumb.
  - intros Htrack. unfold onTrackClick. rewrite Htrack. simpl.
    rewrite Hinit. simpl. eexists. split; [reflexivity|]. simpl.
    rewrite <- app_assoc. repeat split.
  - intros Hfits.
    assert (Hlen : 0 <= clientHeight vp - offsetHeight thumbEl) by lra.
    destruct (clamp_spec targetThumbY _ Hlen) as (c & Hc & Hrange & _).
    { unfold targetThumbY. simpl. discriminate. }
    unfold y, Geometry.thumbMaxY.
    change (Fin (clientHeight vp) - Fin (offsetHeight thumbEl))%num
      with (Fin (clientHeight vp - offsetHeight thumbEl)).
    rewrite Hc. exact Hrange.
  - intros move d Hinit' Hdrag Hpage Hy.
    eexists. split;
      [apply (onDocumentMouseMove_dragging toStr move d Hinit' Hdrag)|].
    simpl. rewrite <- app_assoc. simpl. rewrite Hpage.
    fold vp thumbEl. rewrite Hy. reflexivity.
Qed.

Lemma onTrackClick_seeks_witness :
  exists (st' : State) (top : Q),
    onTrackClick
      {| clientY := 255; targetIsThumb := false; currentTargetTop := 0 |}
      (Sample.mounted decimalString (Sample.tall 0) 90) = Done st'
    /\ effects (env st') = [StopPropagation; ScrollTo (Fin top) "smooth"]
    /\ top == 700.
Proof.
  destruct (onTrackClick_seeks decimalString
              {| clientY := 255; targetIsThumb := false;
                 currentTargetTop := 0 |}
              (Sample.mounted decimalString (Sample.tall 0) 90) eq_refl)
    as (_ & Hseek & _ & _).
  destruct (Hseek eq_refl) as (st' & Hrun & Heffects & _).
  exists st'. eexists. split; [exact Hrun|].
  split; [rewrite Heffects; reflexivity|]. qconst.
Defined.

(** C8, as the claim states it, fails on a track shorter than the thumb.  In
    a viewport 40 pixels high the thumb is 50 pixels high, so
    [thumbMaxY = -10]; a click 30 pixels down the track has the target
    offset 5, and [Math.max(0, Math.min(5, -10))] is 0: not the target
    clamped to [[0, thumbMaxY]], an interval that has no point.  The scroll
    requested is a scroll to the top. *)
Lemma onTrackClick_short_track :
  Geometry.thumbHeight (Sample.low 0 40) = Fin 50
  /\ clientHeight (Sample.low 0 40) - 50 == -10
  /\ Geometry.clampedThumbY (Sample.low 0 40)
       {| style := []; offsetHeight := 50 |}
       ((Fin 30 - Fin 0) - Fin 50 / Fin 2)%num
     = Fin 0
  /\ ~ within 0 (clientHeight (Sample.low 0 40) - 50) (Fin 0)
  /\ exists top : Q,
       effects (env (state_of
         (onTrackClick
            {| clientY := 30; targetIsThumb := false; currentTargetTop := 0 |}
            (Sample.mounted decimalString (Sample.low 0 40) 50))))
       = [StopPropagation; ScrollTo (Fin top) "smooth"]
       /\ top == 0.
Proof.
  split; [reflexivity|]. split; [qconst|]. split; [reflexivity|].
  split; [unfold within; intros [_ H]; revert H; qconst|].
  eexists. split; [vm_compute; reflexivity | qconst].
Qed.

(** ** Reading the offset of the thumb back from its transform *)

Section TransformPattern.

Lemma string_of_rev_cons (a : ascii) (acc : list ascii) (t : string) :
  string_of_list_ascii (rev (a :: acc)) ++ t
  = string_of_list_ascii (rev acc) ++ String a t.
Proof.
  simpl. induction (rev acc) as [|b l IH]; simpl; [reflexivity|].
  now rewrite IH.
Qed.

Lemma append_empty_r (s : string) : s ++ "" = s.
Proof. induction s as [|a s IH]; simpl; [reflexivity | now rewrite IH]. Qed.

(** On [px, 0)] the group cannot take one more character and succeed. *)
Lemma plus_from_px (acc : list ascii) :
  plus_from not_comma acc after_group "px, 0)" = None.
Proof. reflexivity. Qed.

Lemma after_group_px (group1 : string) :
  after_group group1 "px, 0)" = Some group1.
Proof. reflexivity. Qed.

(** The group [([^,]+)] runs up to the comma, then gives back [px]. *)
Lemma plus_from_number (t : string) :
  forall acc : list ascii,
    t <> "" ->
    every not_comma t = true ->
    plus_from not_comma acc after_group (t ++ "px, 0)")
    = Some (string_of_list_ascii (rev acc) ++ t).
Proof.
  induction t as [|a t IH]; intros acc Hne Hall; [congruence|].
  simpl in Hall. apply andb_true_iff in Hall as [Ha Hall].
  change (String a t ++ "px, 0)") with (String a (t ++ "px, 0)")).
  cbn [plus_from]. rewrite Ha.
  destruct t as [|b t].
  - change ("" ++ "px, 0)") with "px, 0)".
    rewrite plus_from_px, after_group_px.
    rewrite <- (string_of_rev_cons a acc "").
    now rewrite append_empty_r.
  - rewrite IH; [|discriminate|exact Hall].
    now rewrite string_of_rev_cons.
Qed.

Lemma lit_append {A : Type} (l rest : string) (k : string -> option A) :
  lit l k (l ++ rest) = k rest.
Proof.
  unfold lit.
  assert (H : String.prefix l (l ++ rest) = true
              /\ drop (String.length l) (l ++ rest) = rest).
  { induction l as [|a l [IH1 IH2]]; simpl.
    - split; [now destruct rest | reflexivity].
    - destruct (ascii_dec a a) as [_|Hneq]; [|congruence]. now split. }
  destruct H as [-> ->]. reflexivity.
Qed.

Lemma star_cons_true {A : Type} (c : ascii -> bool) (k : string -> option A)
  (a : ascii) (s : string) :
  c a = true ->
  star c k (String a s)
  = match star c k s with
    | Some r => Some r
    | None => k (String a s)
    end.
Proof. intros H. cbn [star]. now rewrite H. Qed.

Lemma star_cons_false {A : Type} (c : ascii -> bool) (k : string -> option A)
  (a : ascii) (s : string) :
  c a = false ->
  star c k (String a s) = k (String a s).
Proof. intros H. cbn [star]. now rewrite H. Qed.

(** The pattern reads back the text that stands where the component writes
    the number. *)
Lemma match_translate3d_written (t : string) :
  plain t = true ->
  match_translate3d ("translate3d(0, " ++ t ++ "px, 0)") = Some t.
Proof.
  intros Hplain. destruct t as [|a t]; [discriminate|].
  cbn [plain] in Hplain. apply andb_true_iff in Hplain as [Ha Hall].
  apply negb_true_iff in Ha.
  assert (Hat :
    translate3d_at ("translate3d(0, " ++ String a t ++ "px, 0)")
    = Some (String a t)).
  { unfold translate3d_at.
    change ("translate3d(0, " ++ String a t ++ "px, 0)")
      with ("translate3d(0," ++ String " " (String a (t ++ "px, 0)"))).
    rewrite lit_append.
    rewrite (star_cons_true is_space _ " ") by reflexivity.
    rewrite (star_cons_false is_space _ a) by exact Ha.
    unfold plus_group.
    change (String a (t ++ "px, 0)")) with (String a t ++ "px, 0)").
    now rewrite (plus_from_number (String a t) [] ltac:(discriminate) Hall). }
  change (match_translate3d ("translate3d(0, " ++ String a t ++ "px, 0)"))
    with (match translate3d_at
                  ("translate3d(0, " ++ String a t ++ "px, 0)") with
          | Some g => Some g
          | None =>
              match_translate3d ("ranslate3d(0, " ++ String a t ++ "px, 0)")
          end).
  now rewrite Hat.
Qed.

End TransformPattern.

Example match_written_offset :
  option_map parseFloat (match_translate3d "translate3d(0, 62.5px, 0)")
  = Some (Fin 62.5).
Proof. reflexivity. Qed.

Example match_no_transform : match_translate3d "" = None.
Proof. reflexivity. Qed.

Example match_other_transform : match_translate3d "scaleX(1.2)" = None.
Proof. reflexivity. Qed.

Example parseFloat_not_a_number : parseFloat "NaN" = NaN.
Proof. reflexivity. Qed.

(** C9.  At the start of a drag, by mouse or by touch, the handler returns
    with [isDragging] set and [dragStartY] taken from the pointer, and
    [thumbStartY] is read from the thumb's [style.transform]: it is 0 when
    the transform does not match [/translate3d\(0,\s*([^,]+)px,\s*0\)/], and
    [parseFloat] of capture group 1 when it does; in particular, when the
    transform is [translate3d(0, t px, 0)] for a text [t] as the component
    writes it, [thumbStartY] is [parseFloat t]. *)
Theorem thumbStartY_from_transform (event : MouseEvent)
  (touchEvent : TouchEvent) (touchY : Q) (st : State) :
  let transform := getPropertyValue "transform" (style (thumb (page st))) in
  viewInit (comp st) = true ->
  hd_error (touches touchEvent) = Some touchY ->
  exists down start : State,
    onThumbMouseDown event st = Done down
    /\ onThumbTouchStart touchEvent st = Done start
    /\ isDragging (comp down) = true
    /\ isDragging (comp start) = true
    /\ dragStartY (comp down) = clientY event
    /\ dragStartY (comp start) = touchY
    /\ (match_translate3d transform = None ->
        thumbStartY (comp down) = Fin 0 /\ thumbStartY (comp start) = Fin 0)
    /\ (forall group1 : string,
          match_translate3d transform = Some group1 ->
          thumbStartY (comp down) = parseFloat group1
          /\ thumbStartY (comp start) = parseFloat group1)
    /\ (forall t : string,
          plain t = true ->
          transform = "translate3d(0, " ++ t ++ "px, 0)" ->
          thumbStartY (comp down) = parseFloat t
          /\ thumbStartY (comp start) = parseFloat t).
Proof.
  intros transform Hinit Htouch.
  unfold onThumbMouseDown, onThumbTouchStart.
  rewrite Htouch. simpl. rewrite Hinit. simpl.
  fold transform.
  do 2 eexists. split; [reflexivity|]. split; [reflexivity|]. simpl.
  do 4 (split; [reflexivity|]).
  split; [intros Hnone; rewrite Hnone; split; reflexivity|].
  split; [intros group1 Hsome; rewrite Hsome; split; reflexivity|].
  intros t Hplain Htransform.
  assert (Hsome : match_translate3d transform = Some t)
    by (rewrite Htransform; now apply match_translate3d_written).
  rewrite Hsome. split; reflexivity.
Qed.

Lemma thumbStartY_from_transform_witness :
  exists down start : State,
    onThumbMouseDown (Sample.mouseAt 120)
      (state_of (updateThumbPosition decimalString
                   (Sample.mounted decimalString (Sample.tall 300) 90)))
    = Done down
    /\ onThumbTouchStart {| touches := [120] |}
         (state_of (updateThumbPosition decimalString
                      (Sample.mounted decimalString (Sample.tall 300) 90)))
       = Done start
    /\ thumbStartY (comp down) = Fin 90
    /\ thumbStartY (comp start) = Fin 90.
Proof.
  destruct (thumbStartY_from_transform (Sample.mouseAt 120)
              {| touches := [120] |} 120
              (state_of (updateThumbPosition decimalString
                           (Sample.mounted decimalString (Sample.tall 300) 90))))
    as (down & start & Hdown & Hstart & _ & _ & _ & _ & _ & _ & Hwritten).
  - reflexivity.
  - reflexivity.
  - exists down, start.
    destruct (Hwritten "90" eq_refl eq_refl) as [Hd Hs].
    repeat split; assumption.
Defined.

(** ** Position and drag are inverse to each other, in doubles *)

Section RoundTrip.

(** The standard model of arithmetic in doubles: the double that stands for
    an exact result [x] differs from it by at most [u * |x|], where [u] is
    the unit roundoff ([2^-53]). *)
Variable rnd : Q -> Q.
Variable u : Q.
Hypothesis rnd_error : forall x : Q, Qabs (rnd x - x) <= u * Qabs x.
Hypothesis u_small : 0 <= u <= 1 # 16.

Variable toStr : num -> string.

Lemma rnd_near (x : Q) : 0 <= x -> x * (1 - u) <= rnd x <= x * (1 + u).
Proof.
  intros Hx. pose proof (rnd_error x) as H.
  rewrite (Qabs_pos x Hx) in H. apply Qabs_Qle_condition in H. lra.
Qed.

Lemma rnd_nonneg (x : Q) : 0 <= x -> 0 <= rnd x.
Proof. intros Hx. destruct (rnd_near x Hx) as [H _]. nra. Qed.

Lemma rnd_pos (x : Q) : 0 < x -> 0 < rnd x.
Proof.
  intros Hx. destruct (rnd_near x (Qlt_le_weak _ _ Hx)) as [H _]. nra.
Qed.

Lemma rnd_zero (x : Q) : x == 0 -> rnd x == 0.
Proof.
  intros Hx. pose proof (rnd_error x) as H.
  assert (Hax : Qabs x == 0) by (rewrite Hx; reflexivity).
  rewrite Hax, Qmult_0_r in H. apply Qabs_Qle_condition in H. lra.
Qed.

Lemma scale_up (a b k : Q) : 0 <= k -> a <= b -> a * k <= b * k.
Proof. intros. nra. Qed.

Lemma cancel_r (a b k : Q) : 0 < k -> a * k <= b * k -> a <= b.
Proof. intros Hk H. nra. Qed.

Lemma scale_between (l a b k r : Q) :
  l == a * k -> b * k == r -> 0 <= k -> a <= b -> l <= r.
Proof. intros -> <-. apply scale_up. Qed.

Ltac by_scale a b k := apply (scale_between _ a b k); [ring | ring | |].

(** The error of the round trip.  [t] is the scroll position, [R] the scroll
    range, [M] the exact length of the track; [y] is the offset the position
    formula gives in doubles and [c] a candidate offset within one rounding
    of it; the drag formula, applied to [c] clamped, gives [t] back within
    [8 * u * R]. *)
Lemma round_trip_error (t R M c : Q) :
  0 < R -> 0 < M -> 0 <= t <= R ->
  let d := rnd R in
  let m := rnd M in
  let y := rnd (rnd (t / d) * m) in
  y * (1 - u) <= c <= y * (1 + u) ->
  let clamped :=
    if Qle_bool c m then (if Qle_bool 0 c then c else 0)
    else (if Qle_bool 0 m then m else 0) in
  Qabs (rnd (rnd (clamped / m) * d) - t) <= 8 * u * R.
Proof.
  intros HR HM [Ht0 Ht1] d m y Hc clamped.
  set (lo := 1 - u) in *. set (hi := 1 + u) in *.
  assert (Hlo : 0 < lo) by (unfold lo; lra).
  assert (Hlo1 : lo <= 1) by (unfold lo; lra).
  assert (Hhi : 1 <= hi) by (unfold hi; lra).
  assert (Hd : R * lo <= d <= R * hi) by (apply rnd_near; lra).
  assert (Hdpos : 0 < d) by (apply rnd_pos; lra).
  assert (Hm : M * lo <= m <= M * hi) by (apply rnd_near; lra).
  assert (Hmpos : 0 < m) by (apply rnd_pos; lra).
  set (q := t / d) in *.
  assert (Hq : q * d == t) by (unfold q; field; lra).
  assert (Hq0 : 0 <= q) by (unfold q; apply Qle_shift_div_l; lra).
  set (p := rnd q) in *.
  assert (Hp : q * lo <= p <= q * hi) by (apply rnd_near; exact Hq0).
  assert (Hp0 : 0 <= p) by (apply rnd_nonneg; exact Hq0).
  assert (Hpm0 : 0 <= p * m) by (apply Qmult_le_0_compat; lra).
  assert (Hy : p * m * lo <= y <= p * m * hi)
    by (apply rnd_near; exact Hpm0).
  assert (Hy0 : 0 <= y) by (apply rnd_nonneg; exact Hpm0).
  assert (Hc0 : 0 <= c) by nra.
  set (h3 := hi * hi * hi). set (l3 := lo * lo * lo).
  assert (Hh3 : 1 <= h3) by (unfold h3, hi; nra).
  assert (Hl3 : 0 < l3 <= 1) by (unfold l3, lo; nra).
  assert (Hchi : c <= q * m * h3).
  { apply Qle_trans with (y * hi); [lra|].
    apply Qle_trans with (p * m * hi * hi);
      [by_scale y (p * m * hi) hi; lra|].
    unfold h3. by_scale p (q * hi) (m * hi * hi); [|lra].
    repeat apply Qmult_le_0_compat; lra. }
  assert (Hclo : q * m * l3 <= c).
  { apply Qle_trans with (y * lo); [|lra].
    apply Qle_trans with (p * m * lo * lo);
      [|by_scale (p * m * lo) y lo; lra].
    unfold l3. by_scale (q * lo) p (m * lo * lo); [|lra].
    repeat apply Qmult_le_0_compat; lra. }
  apply Qabs_Qle_condition.
  unfold clamped.
  destruct (Qle_bool c m) eqn:Hcm.
  - (* the candidate is on the track *)
    apply Qle_bool_iff in Hcm.
    assert (E0 : Qle_bool 0 c = true) by (apply Qle_bool_iff; exact Hc0).
    rewrite E0.
    set (r := c / m).
    assert (Hr : r * m == c) by (unfold r; field; lra).
    assert (Hr0 : 0 <= r) by (unfold r; apply Qle_shift_div_l; lra).
    assert (Hrhi : r <= q * h3)
      by (apply (cancel_r _ _ m Hmpos); rewrite Hr; lra).
    assert (Hrlo : q * l3 <= r)
      by (apply (cancel_r _ _ m Hmpos); rewrite Hr; lra).
    set (sp := rnd r).
    assert (Hsp : r * lo <= sp <= r * hi) by (apply rnd_near; exact Hr0).
    assert (Hsp0 : 0 <= sp) by (apply rnd_nonneg; exact Hr0).
    assert (Hz0 : 0 <= sp * d) by (apply Qmult_le_0_compat; lra).
    destruct (rnd_near (sp * d) Hz0) as [Htlo Hthi].
    fold lo hi in Htlo, Hthi.
    set (top' := rnd (sp * d)) in *.
    assert (Hup : top' <= t * (h3 * hi * hi)).
    { apply Qle_trans with (sp * d * hi); [exact Hthi|].
      apply Qle_trans with (r * hi * d * hi);
        [by_scale sp (r * hi) (d * hi); [|lra];
         repeat apply Qmult_le_0_compat; lra|].
      apply Qle_trans with (q * h3 * hi * d * hi);
        [by_scale r (q * h3) (hi * d * hi); [|lra];
         repeat apply Qmult_le_0_compat; lra|].
      rewrite <- Hq. apply Qle_lteq. right. ring. }
    assert (Hdown : t * (l3 * lo * lo) <= top').
    { apply Qle_trans with (sp * d * lo); [|exact Htlo].
      apply Qle_trans with (r * lo * d * lo);
        [|by_scale (r * lo) sp (d * lo); [|lra];
          repeat apply Qmult_le_0_compat; lra].
      apply Qle_trans with (q * l3 * lo * d * lo);
        [|by_scale (q * l3) r (lo * d * lo); [|lra];
          repeat apply Qmult_le_0_compat; lra].
      rewrite <- Hq. apply Qle_lteq. right. ring. }
    assert (P5 : h3 * hi * hi <= 1 + 8 * u) by (unfold h3, hi; nra).
    assert (p5 : 1 - 8 * u <= l3 * lo * lo) by (unfold l3, lo; nra).
    split; nra.
  - (* the candidate is past the end of the track *)
    apply Qle_bool_false in Hcm.
    assert (E0 : Qle_bool 0 m = true) by (apply Qle_bool_iff; lra).
    rewrite E0.
    assert (Hr : m / m == 1) by (field; lra).
    assert (Hsp : lo <= rnd (m / m) <= hi).
    { destruct (rnd_near (m / m)) as [Hsplo Hsphi]; [rewrite Hr; lra|].
      split.
      - apply Qle_trans with (m / m * (1 - u)); [|exact Hsplo].
        rewrite Hr. unfold lo. lra.
      - apply Qle_trans with (m / m * (1 + u)); [exact Hsphi|].
        rewrite Hr. unfold hi. lra. }
    set (sp := rnd (m / m)) in *.
    assert (Hz0 : 0 <= sp * d) by (apply Qmult_le_0_compat; lra).
    destruct (rnd_near (sp * d) Hz0) as [Htlo Hthi].
    fold lo hi in Htlo, Hthi.
    set (top' := rnd (sp * d)) in *.
    assert (Hup : top' <= R * h3).
    { apply Qle_trans with (sp * d * hi); [exact Hthi|].
      apply Qle_trans with (hi * d * hi);
        [by_scale sp hi (d * hi); [|lra];
         apply Qmult_le_0_compat; lra|].
      unfold h3. by_scale d (R * hi) (hi * hi); [|lra].
      apply Qmult_le_0_compat; lra. }
    assert (Hdown : R * l3 <= top').
    { apply Qle_trans with (sp * d * lo); [|exact Htlo].
      apply Qle_trans with (lo * d * lo);
        [|by_scale lo sp (d * lo); [|lra];
          apply Qmult_le_0_compat; lra].
      unfold l3. by_scale (R * lo) d (lo * lo); [|lra].
      apply Qmult_le_0_compat; lra. }
    assert (Hone : 1 <= q * h3).
    { apply (cancel_r _ _ m Hmpos).
      apply Qle_trans with c; [lra|].
      apply Qle_trans with (q * m * h3); [exact Hchi|].
      apply Qle_lteq. right. ring. }
    assert (Ht : R * lo <= t * h3).
    { apply Qle_trans with d; [lra|]. rewrite <- Hq.
      by_scale 1 (q * h3) d; lra. }
    assert (p3 : 1 - 8 * u <= l3) by (unfold l3, lo; nra).
    assert (P3 : 1 + 3 * u <= h3 <= 1 + (13 # 4) * u)
      by (unfold h3, hi; nra).
    assert (P6 : h3 * h3 - 8 * u * h3 <= lo).
    { apply Qle_trans with (h3 * (1 - (19 # 4) * u)).
      - apply Qle_trans with (h3 * (h3 - 8 * u));
          [apply Qle_lteq; right; ring|].
        rewrite !(Qmult_comm h3).
        by_scale (h3 - 8 * u) (1 - (19 # 4) * u) h3; lra.
      - apply Qle_trans with ((1 + (13 # 4) * u) * (1 - (19 # 4) * u)).
        + by_scale h3 (1 + (13 # 4) * u) (1 - (19 # 4) * u); lra.
        + unfold lo. nra. }
    assert (H1 : R * (1 - 8 * u) <= R * l3)
      by (by_scale (1 - 8 * u) l3 R; lra).
    assert (H2 : R * (h3 * h3 - 8 * u * h3) <= R * lo)
      by (by_scale (h3 * h3 - 8 * u * h3) lo R; lra).
    assert (H3 : R * h3 - 8 * u * R - t <= 0).
    { apply (cancel_r _ _ h3); [lra|].
      apply Qle_trans with (R * (h3 * h3 - 8 * u * h3) - t * h3);
        [apply Qle_lteq; right; ring|].
      lra. }
    split; lra.
Qed.

(** The offset of the position formula, in doubles. *)
Lemma Double_thumbY (vp : Viewport) (thumbEl : Element) :
  clientHeight vp < scrollHeight vp ->
  Double.thumbY rnd vp thumbEl
  = Fin (rnd (rnd (scrollTop vp / rnd (scrollHeight vp - clientHeight vp))
              * rnd (clientHeight vp - offsetHeight thumbEl))).
Proof.
  intros Hscroll.
  assert (Hd : Qzero (rnd (scrollHeight vp - clientHeight vp)) = false).
  { apply Qzero_false. intros H.
    pose proof (rnd_pos (scrollHeight vp - clientHeight vp)). lra. }
  unfold Double.thumbY, Double.thumbMaxY, Double.round, sub, add, neg, div,
    mul.
  fold (Qminus (scrollHeight vp) (clientHeight vp)).
  fold (Qminus (clientHeight vp) (offsetHeight thumbEl)).
  now rewrite Hd.
Qed.

(** The scroll position of the drag formula, in doubles. *)
Lemma Double_newScrollTop (vp : Viewport) (thumbEl : Element) (y : Q) :
  offsetHeight thumbEl < clientHeight vp ->
  Double.newScrollTop rnd vp thumbEl (Fin y)
  = Fin (rnd (rnd (y / rnd (clientHeight vp - offsetHeight thumbEl))
              * rnd (scrollHeight vp - clientHeight vp))).
Proof.
  intros Hthumb.
  assert (Hm : Qzero (rnd (clientHeight vp - offsetHeight thumbEl)) = false).
  { apply Qzero_false. intros H.
    pose proof (rnd_pos (clientHeight vp - offsetHeight thumbEl)). lra. }
  unfold Double.newScrollTop, Double.thumbMaxY, Double.round, sub, add, neg,
    div, mul.
  fold (Qminus (scrollHeight vp) (clientHeight vp)).
  fold (Qminus (clientHeight vp) (offsetHeight thumbEl)).
  now rewrite Hm.
Qed.

Lemma Double_updateThumbPosition (st : State) :
  viewInit (comp st) = true ->
  Double.updateThumbPosition rnd toStr st
  = Done (thumbStyle "transform"
            (Geometry.translate3d toStr
               (Double.thumbY rnd (viewport (page st)) (thumb (page st))))
            st).
Proof.
  intros Hinit. unfold Double.updateThumbPosition. now rewrite Hinit.
Qed.

Lemma Double_onDocumentMouseMove_dragging (event : MouseEvent) (st : State) :
  viewInit (comp st) = true ->
  isDragging (comp st) = true ->
  let vp := viewport (page st) in
  let thumbEl := thumb (page st) in
  let y :=
    Double.clampedThumbY rnd vp thumbEl
      (Double.newThumbY rnd (comp st) (clientY event)) in
  Double.onDocumentMouseMove rnd toStr event st
  = Done (perform (AssignScrollTop (Double.newScrollTop rnd vp thumbEl y))
            (thumbStyle "transform" (Geometry.translate3d toStr y)
               (perform PreventDefault st))).
Proof.
  intros Hinit Hdrag. unfold Double.onDocumentMouseMove.
  rewrite Hdrag. simpl. rewrite Hinit. reflexivity.
Qed.

(** A drag move whose candidate offset is within one rounding of the offset
    that the position formula gives at [vp]. *)
Lemma Double_move_back (vp : Viewport) (thumbEl : Element)
  (move : MouseEvent) (d : State) (c : Q) :
  clientHeight vp < scrollHeight vp ->
  0 <= scrollTop vp <= scrollHeight vp - clientHeight vp ->
  offsetHeight thumbEl < clientHeight vp ->
  viewInit (comp d) = true ->
  isDragging (comp d) = true ->
  viewport (page d) = vp ->
  offsetHeight (thumb (page d)) = offsetHeight thumbEl ->
  Double.newThumbY rnd (comp d) (clientY move) = Fin c ->
  (forall y, Double.thumbY rnd vp thumbEl = Fin y ->
             y * (1 - u) <= c <= y * (1 + u)) ->
  exists (d' : State) (top' : Q),
    Double.onDocumentMouseMove rnd toStr move d = Done d'
    /\ effects (env d')
       = (effects (env d) ++ [PreventDefault; AssignScrollTop (Fin top')])%list
    /\ Qabs (top' - scrollTop vp)
       <= 8 * u * (scrollHeight vp - clientHeight vp).
Proof.
  intros Hscroll Htop Hthumb Hinit Hdrag Hvp Hheight Hcand Hnear.
  specialize (Hnear _ (Double_thumbY vp thumbEl Hscroll)).
  set (m := rnd (clientHeight vp - offsetHeight thumbEl)).
  set (clamped :=
         if Qle_bool c m then (if Qle_bool 0 c then c else 0)
         else (if Qle_bool 0 m then m else 0)).
  assert (Hclamped :
    Double.clampedThumbY rnd (viewport (page d)) (thumb (page d))
      (Double.newThumbY rnd (comp d) (clientY move)) = Fin clamped).
  { rewrite Hcand, Hvp. unfold Double.clampedThumbY, Double.thumbMaxY.
    rewrite Hheight.
    change (Double.round rnd
              (Fin (clientHeight vp) - Fin (offsetHeight thumbEl))%num)
      with (Fin m).
    apply clamp_Fin. }
  assert (Hscrolls :
    Double.newScrollTop rnd (viewport (page d)) (thumb (page d)) (Fin clamped)
    = Fin (rnd (rnd (clamped / m)
                * rnd (scrollHeight vp - clientHeight vp)))).
  { rewrite Hvp. unfold m.
    rewrite <- (Double_newScrollTop vp thumbEl clamped Hthumb).
    unfold Double.newScrollTop, Double.thumbMaxY. now rewrite Hheight. }
  eexists. exists (rnd (rnd (clamped / m)
                        * rnd (scrollHeight vp - clientHeight vp))).
  split; [apply (Double_onDocumentMouseMove_dragging move d Hinit Hdrag)|].
  cbv zeta. rewrite Hclamped, Hscrolls. split.
  - simpl. now rewrite <- app_assoc.
  - apply (round_trip_error (scrollTop vp)
             (scrollHeight vp - clientHeight vp)
             (clientHeight vp - offsetHeight thumbEl) c);
      [lra | lra | exact Htop | exact Hnear].
Qed.

End RoundTrip.

(** With the identity for [rnd] the methods of [Double] are the methods of
    the component in exact arithmetic. *)
Lemma Double_exact (toStr : num -> string) (event : MouseEvent) (st : State) :
  Double.updateThumbPosition (fun q => q) toStr st
  = updateThumbPosition toStr st
  /\ Double.onDocumentMouseMove (fun q => q) toStr event st
     = onDocumentMouseMove toStr event st.
Proof.
  assert (Hid : forall x : num, Double.round (fun q => q) x = x)
    by (intros [q| | |]; reflexivity).
  unfold Double.updateThumbPosition, updateThumbPosition,
    Double.onDocumentMouseMove, onDocumentMouseMove.
  cbv zeta. now rewrite !Hid.
Qed.

(** C3, as the code has it.  Take metrics with [scrollHeight > clientHeight],
    a [scrollTop] in [[0, scrollHeight - clientHeight]] and a thumb shorter
    than the viewport ([thumbMaxY > 0]), and doubles whose operations round
    with relative error at most [u].  [updateThumbPosition] writes an offset
    [y].  A drag move whose candidate offset is [y], up to the rounding of
    the addition that forms it, assigns to [scrollTop] a number within
    [8 * u * (scrollHeight - clientHeight)] of the original [scrollTop].
    The drag that starts on the thumb so positioned is such a move as long
    as the pointer stays where it was pressed: [onThumbMouseDown] reads [y]
    back from the transform, when the text of [y] is one that the pattern
    and [parseFloat] read back. *)
Theorem drag_inverts_position (rnd : Q -> Q) (u : Q)
  (toStr : num -> string) (st : State) :
  let vp := viewport (page st) in
  let thumbEl := thumb (page st) in
  let range := scrollHeight vp - clientHeight vp in
  (forall x : Q, Qabs (rnd x - x) <= u * Qabs x) ->
  0 <= u <= 1 # 16 ->
  viewInit (comp st) = true ->
  clientHeight vp < scrollHeight vp ->
  0 <= scrollTop vp <= range ->
  offsetHeight thumbEl < clientHeight vp ->
  exists (positioned : State) (y : Q),
    Double.updateThumbPosition rnd toStr st = Done positioned
    /\ Double.thumbY rnd vp thumbEl = Fin y
    /\ Geometry.thumbTransform positioned = Geometry.translate3d toStr (Fin y)
    /\ (forall (move : MouseEvent) (d : State) (c : Q),
          viewInit (comp d) = true ->
          isDragging (comp d) = true ->
          viewport (page d) = vp ->
          offsetHeight (thumb (page d)) = offsetHeight thumbEl ->
          Double.newThumbY rnd (comp d) (clientY move) = Fin c ->
          y * (1 - u) <= c <= y * (1 + u) ->
          exists (d' : State) (top' : Q),
            Double.onDocumentMouseMove rnd toStr move d = Done d'
            /\ effects (env d')
               = (effects (env d)
                  ++ [PreventDefault; AssignScrollTop (Fin top')])%list
            /\ Qabs (top' - scrollTop vp) <= 8 * u * range)
    /\ (forall down move : MouseEvent,
          plain (toStr (Fin y)) = true ->
          same (parseFloat (toStr (Fin y))) (Fin y) ->
          clientY move == clientY down ->
          exists (pressed d' : State) (top' : Q),
            onThumbMouseDown down positioned = Done pressed
            /\ same (thumbStartY (comp pressed)) (Fin y)
            /\ Double.onDocumentMouseMove rnd toStr move pressed = Done d'
            /\ effects (env d')
               = (effects (env st)
                  ++ [PreventDefault; PreventDefault;
                      AssignScrollTop (Fin top')])%list
            /\ Qabs (top' - scrollTop vp) <= 8 * u * range).
Proof.
  intros vp thumbEl range Hrnd Hu Hinit Hscroll Htop Hthumb.
  pose proof (Double_thumbY rnd u Hrnd Hu vp thumbEl Hscroll) as Hy.
  set (y := rnd (rnd (scrollTop vp / rnd (scrollHeight vp - clientHeight vp))
                 * rnd (clientHeight vp - offsetHeight thumbEl))) in *.
  assert (Hy0 : 0 <= y).
  { unfold y. apply (rnd_nonneg rnd u Hrnd Hu).
    apply Qmult_le_0_compat.
    - apply (rnd_nonneg rnd u Hrnd Hu). apply Qle_shift_div_l.
      + apply (rnd_pos rnd u Hrnd Hu). lra.
      + unfold range in Htop. lra.
    - apply (rnd_nonneg rnd u Hrnd Hu). lra. }
  assert (Hback : forall (move : MouseEvent) (d : State) (c : Q),
    viewInit (comp d) = true ->
    isDragging (comp d) = true ->
    viewport (page d) = vp ->
    offsetHeight (thumb (page d)) = offsetHeight thumbEl ->
    Double.newThumbY rnd (comp d) (clientY move) = Fin c ->
    y * (1 - u) <= c <= y * (1 + u) ->
    exists (d' : State) (top' : Q),
      Double.onDocumentMouseMove rnd toStr move d = Done d'
      /\ effects (env d')
         = (effects (env d)
            ++ [PreventDefault; AssignScrollTop (Fin top')])%list
      /\ Qabs (top' - scrollTop vp) <= 8 * u * range).
  { intros move d c Hinit' Hdrag Hvp Hheight Hcand Hnear.
    apply (Double_move_back rnd u Hrnd Hu toStr vp thumbEl move d c);
      try assumption.
    intros y' Hy'. rewrite Hy in Hy'. injection Hy' as <-. exact Hnear. }
  exists (thumbStyle "transform" (Geometry.translate3d toStr (Fin y)) st), y.
  split; [rewrite (Double_updateThumbPosition rnd toStr st Hinit);
          fold vp thumbEl; now rewrite Hy|].
  split; [exact Hy|].
  split; [unfold Geometry.thumbTransform; simpl;
          now autorewrite with style|].
  split; [exact Hback|].
  intros down move Hplain Hparse Hstill.
  set (positioned :=
         thumbStyle "transform" (Geometry.translate3d toStr (Fin y)) st).
  assert (Hsome :
    match_translate3d
      (getPropertyValue "transform" (style (thumb (page positioned))))
    = Some (toStr (Fin y))).
  { unfold positioned. simpl. autorewrite with style.
    now apply match_translate3d_written. }
  assert (Hpress : exists pressed : State,
    onThumbMouseDown down positioned = Done pressed
    /\ thumbStartY (comp pressed) = parseFloat (toStr (Fin y))
    /\ dragStartY (comp pressed) = clientY down
    /\ viewInit (comp pressed) = true
    /\ isDragging (comp pressed) = true
    /\ viewport (page pressed) = vp
    /\ offsetHeight (thumb (page pressed)) = offsetHeight thumbEl
    /\ effects (env pressed) = (effects (env st) ++ [PreventDefault])%list).
  { unfold onThumbMouseDown.
    cbn [comp perform Update.onEnv Update.onComp Update.isDragging_
         Update.dragStartY_ viewInit page].
    change (viewInit (comp positioned)) with (viewInit (comp st)).
    rewrite Hinit. cbn [negb]. rewrite Hsome.
    eexists. split; [reflexivity|]. simpl. now repeat split. }
  destruct Hpress
    as (pressed & Hdown & Hstart & Hpointer & Hinit' & Hdrag & Hvp & Hheight
        & Heffects).
  destruct (parseFloat (toStr (Fin y))) as [y'| | |];
    try contradiction.
  simpl in Hparse.
  set (delta := rnd (clientY move - dragStartY (comp pressed))).
  assert (Hdelta : delta == 0).
  { unfold delta. apply (rnd_zero rnd u Hrnd). rewrite Hpointer. lra. }
  assert (Hcand : Double.newThumbY rnd (comp pressed) (clientY move)
                  = Fin (rnd (y' + delta))).
  { unfold Double.newThumbY. rewrite Hstart. reflexivity. }
  destruct (Hback move pressed (rnd (y' + delta)) Hinit' Hdrag Hvp Hheight
              Hcand) as (d' & top' & Hmove & Hlog & Herr).
  { destruct (rnd_near rnd u Hrnd (y' + delta)) as [Hlow Hhigh]; [lra|].
    split.
    - apply Qle_trans with ((y' + delta) * (1 - u)); [|exact Hlow].
      rewrite Hdelta, Hparse. lra.
    - apply Qle_trans with ((y' + delta) * (1 + u)); [exact Hhigh|].
      rewrite Hdelta, Hparse. lra. }
  exists pressed, d', top'.
  split; [exact Hdown|]. split; [rewrite Hstart; exact Hparse|].
  split; [exact Hmove|].
  split; [|exact Herr].
  rewrite Hlog, Heffects. now rewrite <- app_assoc.
Qed.

(** A rounding that is never exact: every result is too large by the
    factor [1 + 1/256]. *)
Lemma inflate_error (x : Q) :
  Qabs (x * (1 + (1 # 256)) - x) <= (1 # 256) * Qabs x.
Proof.
  setoid_replace (x * (1 + (1 # 256)) - x) with (x * (1 # 256)) by ring.
  rewrite Qabs_Qmult, Qmult_comm. apply Qle_refl.
Qed.

Lemma drag_inverts_position_witness :
  (exists (d' : State) (top' : Q),
     Double.onDocumentMouseMove (fun x => x * (1 + (1 # 256))) decimalString
       (Sample.mouseAt 100)
       (Sample.dragging decimalString (Sample.tall 300) 90 100
          (Double.thumbY (fun x => x * (1 + (1 # 256))) (Sample.tall 300)
             {| style := []; offsetHeight := 90 |}))
     = Done d'
     /\ effects (env d') = [PreventDefault; AssignScrollTop (Fin top')]
     /\ ~ top' == 300
     /\ Qabs (top' - 300) <= 8 * (1 # 256) * 700)
  /\ (exists (pressed d' : State) (top' : Q),
        onThumbMouseDown (Sample.mouseAt 100)
          (state_of
             (Double.updateThumbPosition (fun x => x * (1 + (1 # 256)))
                decimalString
                (Sample.mounted decimalString (Sample.tall 300) 90)))
        = Done pressed
        /\ Double.onDocumentMouseMove (fun x => x * (1 + (1 # 256)))
             decimalString (Sample.mouseAt 100) pressed
           = Done d'
        /\ effects (env d')
           = [PreventDefault; PreventDefault; AssignScrollTop (Fin top')]
        /\ Qabs (top' - 300) <= 8 * (1 # 256) * 700).
Proof.
  destruct (drag_inverts_position (fun x => x * (1 + (1 # 256))) (1 # 256)
              decimalString
              (Sample.mounted decimalString (Sample.tall 300) 90))
    as (positioned & y & Hpos & Hy & _ & Hback & Hgesture).
  - exact inflate_error.
  - split; qconst.
  - reflexivity.
  - qconst.
  - split; qconst.
  - qconst.
  - vm_compute in Hy. injection Hy as <-. split.
    + destruct (Hback (Sample.mouseAt 100)
                  (Sample.dragging decimalString (Sample.tall 300) 90 100
                     (Double.thumbY (fun x => x * (1 + (1 # 256)))
                        (Sample.tall 300)
                        {| style := []; offsetHeight := 90 |}))
                  _ eq_refl eq_refl eq_refl eq_refl eq_refl)
        as (d' & top' & Hrun & Hlog & Herr).
      * split; qconst.
      * exists d', top'. split; [exact Hrun|]. split; [exact Hlog|].
        split; [|exact Herr].
        rewrite (Double_onDocumentMouseMove_dragging
                   (fun x => x * (1 + (1 # 256))) decimalString) in Hrun
          by reflexivity.
        injection Hrun as <-. vm_compute in Hlog.
        injection Hlog as <-. qconst.
    + destruct (Hgesture (Sample.mouseAt 100) (Sample.mouseAt 100))
        as (pressed & d' & top' & Hdown & _ & Hrun & Hlog & Herr).
      * vm_compute. reflexivity.
      * vm_compute. reflexivity.
      * reflexivity.
      * exists pressed, d', top'. rewrite Hpos.
        split; [exact Hdown|]. split; [exact Hrun|].
        split; [exact Hlog | exact Herr].
Defined.

(** C3, as the claim states it, fails when the thumb is as high as the
    viewport.  With [clientHeight = 50] and [scrollHeight = 100] the thumb is
    50 pixels high, [thumbMaxY = 0], every scroll position maps to the
    offset 0, and the drag formula divides 0 by 0: from [scrollTop = 25] the
    round trip assigns [NaN], in exact arithmetic and with rounding alike. *)
Lemma drag_loses_position_on_full_thumb :
  clientHeight (Sample.low 25 50) < scrollHeight (Sample.low 25 50)
  /\ 0 <= scrollTop (Sample.low 25 50)
     <= scrollHeight (Sample.low 25 50) - clientHeight (Sample.low 25 50)
  /\ Geometry.thumbHeight (Sample.low 25 50) = Fin 50
  /\ effects (env (state_of
       (onDocumentMouseMove decimalString (Sample.mouseAt 100)
          (Sample.dragging decimalString (Sample.low 25 50) 50 100
             (Geometry.thumbY (Sample.low 25 50)
                {| style := []; offsetHeight := 50 |})))))
     = [PreventDefault; AssignScrollTop NaN]
  /\ effects (env (state_of
       (Double.onDocumentMouseMove (fun x => x * (1 + (1 # 256)))
          decimalString (Sample.mouseAt 100)
          (Sample.dragging decimalString (Sample.low 25 50) 50 100
             (Double.thumbY (fun x => x * (1 + (1 # 256)))
                (Sample.low 25 50)
                {| style := []; offsetHeight := 50 |})))))
     = [PreventDefault; AssignScrollTop NaN].
Proof.
  repeat split; try (vm_compute; reflexivity); qconst.
Qed.

(** The pattern reads the transform only in the spelling the component
    writes.  Handed back in another spelling, the text does not match and
    the drag starts from offset 0; the first part of the theorem above then
    applies to the moves that bring the candidate offset to the thumb. *)
Example other_spelling_not_read :
  match_translate3d "translate3d(0px, 90px, 0px)" = None
  /\ match_translate3d "translate3d(0, 90px, 0)" = Some "90".
Proof. split; reflexivity. Qed.

(** ** Colours *)

Lemma or_else_set (a b : string) : a <> "" -> or_else a b = a.
Proof. destruct a; [congruence | reflexivity]. Qed.

(** C10.  Once the view is initialised, [applyCustomization] gives a
    non-empty [thumbColorOverride] to the thumb's [background-color] (with
    priority [important]) and to both [--custom-scrollbar-thumb-hover] and
    [--custom-scrollbar-thumb-active], and a non-empty [trackColorOverride]
    to the track's [background-color] and to
    [--custom-scrollbar-track-hover]: none of the theme's colours for that
    element is applied.  With an empty override each of the five takes its
    own colour of the current theme. *)
Theorem applyCustomization_overrides (toStr : num -> string) (st : State) :
  let st' := applyCustomization toStr st in
  let scheme := colorSchemes (currentThemeColor (comp st)) in
  let thumbColor := thumbColorOverride (comp st) in
  let trackColor := trackColorOverride (comp st) in
  viewInit (comp st) = true ->
  (thumbColor <> "" ->
   getProperty "background-color" (style (thumb (page st')))
   = Some (thumbColor, "important")
   /\ getPropertyValue "--custom-scrollbar-thumb-hover" (root (page st'))
      = thumbColor
   /\ getPropertyValue "--custom-scrollbar-thumb-active" (root (page st'))
      = thumbColor)
  /\ (trackColor <> "" ->
      (forall t, track (page st') = Some t ->
         getProperty "background-color" (style t)
         = Some (trackColor, "important"))
      /\ getPropertyValue "--custom-scrollbar-track-hover" (root (page st'))
         = trackColor)
  /\ (thumbColor = "" ->
      getProperty "background-color" (style (thumb (page st')))
      = Some (Scheme.thumb scheme, "important")
      /\ getPropertyValue "--custom-scrollbar-thumb-hover" (root (page st'))
         = Scheme.thumbHover scheme
      /\ getPropertyValue "--custom-scrollbar-thumb-active" (root (page st'))
         = Scheme.thumbActive scheme)
  /\ (trackColor = "" ->
      (forall t, track (page st') = Some t ->
         getProperty "background-color" (style t)
         = Some (Scheme.track scheme, "important"))
      /\ getPropertyValue "--custom-scrollbar-track-hover" (root (page st'))
         = Scheme.trackHover scheme).
Proof.
  intros st' scheme thumbColor trackColor Hinit.
  unfold st', applyCustomization. rewrite Hinit. simpl.
  fold scheme thumbColor trackColor.
  autorewrite with style. rewrite getProperty_set_same.
  assert (Htrack : forall color t,
    option_map
      (withStyle (setProperty "background-color" color "important"))
      (option_map
         (withStyle
            (setProperty "width" (toStr (scrollbarWidth (comp st)) ++ "px") ""))
         (track (page st))) = Some t ->
    getProperty "background-color" (style t) = Some (color, "important")).
  { intros color t Ht. destruct (track (page st)); [|discriminate].
    injection Ht as <-. simpl. apply getProperty_set_same. }
  split; [|split; [|split]].
  - intros Hset. now rewrite !or_else_set.
  - intros Hset. rewrite !or_else_set by assumption.
    split; [apply Htrack | reflexivity].
  - intros Hunset. rewrite Hunset. now repeat split.
  - intros Hunset. rewrite Hunset. simpl.
    split; [apply Htrack | reflexivity].
Qed.

Lemma applyCustomization_overrides_witness :
  getPropertyValue "--custom-scrollbar-thumb-active"
    (root (page (applyCustomization decimalString
       (Sample.customized decimalString (Fin 6) "" "#336699"
          (Sample.tall 0) 90))))
  = "#336699".
Proof.
  destruct (applyCustomization_overrides decimalString
              (Sample.customized decimalString (Fin 6) "" "#336699"
                 (Sample.tall 0) 90) eq_refl)
    as (Hthumb & _).
  destruct Hthumb as (_ & _ & Hactive); [discriminate|].
  exact Hactive.
Defined.

(** ** Scroll events and ambient recomputation during a drag *)

Section DuringDrag.

Variable toStr : num -> string.

(** [updateThumbSize] never writes the position of the thumb, and touches
    no field of the component. *)
Lemma updateThumbSize_keeps_position (st : State) :
  Geometry.thumbTransform (state_of (updateThumbSize toStr st))
  = Geometry.thumbTransform st
  /\ comp (state_of (updateThumbSize toStr st)) = comp st.
Proof.
  unfold updateThumbSize, Geometry.thumbTransform.
  destruct (viewInit (comp st)); simpl; [|now split].
  destruct (Qle_bool _ _); simpl; autorewrite with style; now split.
Qed.

Lemma applyCustomization_keeps_position (st : State) :
  Geometry.thumbTransform (applyCustomization toStr st)
  = Geometry.thumbTransform st
  /\ isDragging (comp (applyCustomization toStr st)) = isDragging (comp st).
Proof.
  unfold applyCustomization, Geometry.thumbTransform.
  destruct (viewInit (comp st)); simpl; autorewrite with style; now split.
Qed.

(** One ambient input leaves a drag active and the thumb where it is. *)
Lemma ambient_step (i : Input) (st : State) :
  isDragging (comp st) = true ->
  ambient st i = true ->
  isDragging (comp (step toStr i st)) = true
  /\ Geometry.thumbTransform (step toStr i st) = Geometry.thumbTransform st.
Proof.
  intros Hdrag Hamb.
  destruct i as [target type ev| |e| | |id|url|vp h]; simpl in Hamb |- *.
  - discriminate.
  - unfold onContentScroll. rewrite Hdrag. now split.
  - unfold onTrackClick.
    destruct (targetIsThumb e); simpl; [now split|].
    destruct (viewInit (comp st)); simpl; now split.
  - now split.
  - destruct (contentObserver (comp st)) as [o|]; [|now split].
    destruct (observing o); now split.
  - unfold fire. unfold recheckTimer in Hamb.
    destruct (find _ (timers (env st))) as [t|]; [|now split].
    destruct (callback t); [discriminate|]. simpl.
    destruct (repeats t).
    + destruct (updateThumbSize_keeps_position st) as [-> ->].
      now split.
    + match goal with
      | |- context [updateThumbSize toStr ?s] =>
          destruct (updateThumbSize_keeps_position s) as [-> ->]
      end.
      now split.
  - unfold navigationEnd.
    destruct (routerSubscription (comp st)); [|now split].
    unfold updateThemeColor.
    destruct (includes "/machine" url); simpl;
      (destruct (viewInit (comp st)); [|now split]);
      match goal with
      | |- context [applyCustomization toStr ?s] =>
          destruct (applyCustomization_keeps_position s) as [-> ->]
      end; now split.
  - now split.
Qed.

Lemma ambient_run (inputs : list Input) :
  forall st : State,
    isDragging (comp st) = true ->
    ambientRun toStr inputs st = true ->
    isDragging (comp (run toStr inputs st)) = true
    /\ Geometry.thumbTransform (run toStr inputs st)
       = Geometry.thumbTransform st.
Proof.
  induction inputs as [|i inputs IH]; intros st Hdrag Hamb.
  - now split.
  - simpl in Hamb. apply andb_true_iff in Hamb as [Hi Hrest].
    destruct (ambient_step i st Hdrag Hi) as [Hdrag' Hsame].
    destruct (IH (step toStr i st) Hdrag' Hrest) as [Hdrag'' Hsame'].
    unfold run in *. simpl. split; [exact Hdrag''|].
    now rewrite Hsame'.
Qed.

End DuringDrag.

(** C6, as the code has it.  While a drag is active, a scroll event of the
    viewport does nothing at all, and the periodic recheck never writes the
    position of the thumb; more generally no run of scroll events, periodic
    rechecks, track clicks, resize and mutation notifications, navigations
    and layout changes ends the drag or changes the thumb's transform.  In
    the idle state a scroll event recomputes the position. *)
Theorem scroll_suppressed_while_dragging (toStr : num -> string)
  (inputs : list Input) (dragged idle : State) :
  isDragging (comp dragged) = true ->
  isDragging (comp idle) = false ->
  ambientRun toStr inputs dragged = true ->
  onContentScroll toStr dragged = Done dragged
  /\ Geometry.thumbTransform (state_of (runCallback toStr Recheck dragged))
     = Geometry.thumbTransform dragged
  /\ isDragging (comp (run toStr inputs dragged)) = true
  /\ Geometry.thumbTransform (run toStr inputs dragged)
     = Geometry.thumbTransform dragged
  /\ onContentScroll toStr idle = updateThumbPosition toStr idle.
Proof.
  intros Hdrag Hidle Hamb.
  split; [unfold onContentScroll; now rewrite Hdrag|].
  split; [apply updateThumbSize_keeps_position|].
  destruct (ambient_run toStr inputs dragged Hdrag Hamb) as [Hkept Hsame].
  split; [exact Hkept|]. split; [exact Hsame|].
  unfold onContentScroll. now rewrite Hidle.
Qed.

Lemma scroll_suppressed_while_dragging_witness :
  Geometry.thumbTransform
    (run decimalString
       [ViewportScrolled; TimerFired 1; WindowResized; ViewportScrolled]
       (Sample.dragging decimalString (Sample.tall 300) 90 100 (Fin 0)))
  = "".
Proof.
  destruct (scroll_suppressed_while_dragging decimalString
              [ViewportScrolled; TimerFired 1; WindowResized; ViewportScrolled]
              (Sample.dragging decimalString (Sample.tall 300) 90 100 (Fin 0))
              (Sample.mounted decimalString (Sample.tall 300) 90)
              eq_refl eq_refl eq_refl)
    as (_ & _ & _ & Hsame & _).
  rewrite Hsame. reflexivity.
Defined.

(** C6, as the claim states it, fails for the recomputation that a mutation
    (or a resize) schedules.  A drag moves the thumb to 50px; the content
    then grows and the observer's timeout fires while the drag is still
    active: [updateThumbPosition] runs and moves the thumb to 25px. *)
Lemma recompute_writes_position_during_drag :
  Geometry.thumbTransform
    (run decimalString
       [TimerFired 0;
        Deliver ThumbEl "mousedown" (Mouse (Sample.mouseAt 100));
        Deliver Document "mousemove" (Mouse (Sample.mouseAt 150))]
       (Sample.mounted decimalString (Sample.long 0 3000) 50))
  = "translate3d(0, 50px, 0)"
  /\ isDragging (comp
       (run decimalString
          [TimerFired 0;
           Deliver ThumbEl "mousedown" (Mouse (Sample.mouseAt 100));
           Deliver Document "mousemove" (Mouse (Sample.mouseAt 150));
           Layout (Sample.long 540 5700) 50;
           ContentMutated;
           TimerFired 6]
          (Sample.mounted decimalString (Sample.long 0 3000) 50)))
     = true
  /\ Geometry.thumbTransform
       (run decimalString
          [TimerFired 0;
           Deliver ThumbEl "mousedown" (Mouse (Sample.mouseAt 100));
           Deliver Document "mousemove" (Mouse (Sample.mouseAt 150));
           Layout (Sample.long 540 5700) 50;
           ContentMutated;
           TimerFired 6]
          (Sample.mounted decimalString (Sample.long 0 3000) 50))
     = "translate3d(0, 25px, 0)".
Proof.
  repeat split; vm_compute; reflexivity.
Qed.

(** ** Teardown *)

(** [ngOnDestroy] cancels no timer: the component never kept an identifier
    to cancel one with. *)
Lemma ngOnDestroy_keeps_timers (st : State) :
  timers (env (ngOnDestroy st)) = timers (env st).
Proof.
  unfold ngOnDestroy.
  destruct (viewInit (comp st)) eqn:Hinit; simpl;
    repeat (rewrite Hinit; simpl);
    destruct (contentObserver (comp st)); reflexivity.
Qed.

(** Removing a function object newer than every registered one removes
    nothing. *)
Lemma filter_newer (target : Target) (type : string) (f : BoundFn)
  (ls : list Listener) :
  Forall (fun l => (fn_id (on_fn l) < fn_id f)%nat) ls ->
  filter (fun l => negb (sameListener target type f l)) ls = ls.
Proof.
  intros Hold. induction ls as [|l ls IH]; [reflexivity|].
  inversion Hold as [|? ? Hl Hls]; subst. simpl.
  unfold sameListener at 1.
  replace (Nat.eqb (fn_id (on_fn l)) (fn_id f)) with false
    by (symmetry; apply Nat.eqb_neq; lia).
  rewrite andb_false_r. simpl. now rewrite IH.
Qed.

Lemma older_than_next (n m : nat) (ls : list Listener) :
  (n <= m)%nat ->
  Forall (fun l => (fn_id (on_fn l) < n)%nat) ls ->
  Forall (fun l => (fn_id (on_fn l) < m)%nat) ls.
Proof.
  intros Hnm H. eapply Forall_impl; [|exact H]. simpl. intros. lia.
Qed.

(** [ngOnDestroy] passes to [removeEventListener] what [bind] has just made,
    so in a state with fresh identities it unregisters nothing. *)
Lemma ngOnDestroy_keeps_listeners (st : State) :
  fresh st ->
  listeners (env (ngOnDestroy st)) = listeners (env st).
Proof.
  intros Hold. unfold ngOnDestroy, fresh in *.
  destruct (viewInit (comp st)) eqn:Hinit; simpl;
    repeat (rewrite Hinit; simpl).
  - destruct (contentObserver (comp st)); simpl;
      rewrite (filter_newer ThumbEl "mousedown"
                 {| fn_id := nextId (env st); fn_method := OnThumbMouseDown |}
                 (listeners (env st)) Hold);
      (rewrite filter_newer; [reflexivity|]); simpl;
      (eapply older_than_next; [|exact Hold]); lia.
  - destruct (contentObserver (comp st)); reflexivity.
Qed.

(** C7 on a mounted component.  After [ngOnDestroy] the router subscription
    is over and the observer is disconnected, but the timers are those of
    before, the periodic recheck among them, and so are the listeners of the
    thumb.  The recheck still fires and writes to the thumb; a [mousedown]
    on the thumb still starts a drag. *)
Theorem teardown_leaves_timer_and_listeners :
  let live := Sample.mounted decimalString (Sample.tall 0) 90 in
  let dead := ngOnDestroy live in
  routerSubscription (comp dead) = false
  /\ contentObserver (comp dead) = Some {| observing := false |}
  /\ timers (env dead) = timers (env live)
  /\ In {| timer_id := 1; repeats := true; delay := 1000;
           callback := Recheck |} (timers (env dead))
  /\ listeners (env dead) = listeners (env live)
  /\ map on_type (listeners (env dead)) = ["mousedown"; "touchstart"]
  /\ getPropertyValue "display" (style (thumb (page dead))) = ""
  /\ getPropertyValue "display"
       (style (thumb (page (step decimalString (TimerFired 1) dead))))
     = "block"
  /\ isDragging (comp dead) = false
  /\ isDragging (comp
       (step decimalString
          (Deliver ThumbEl "mousedown" (Mouse (Sample.mouseAt 100))) dead))
     = true.
Proof.
  cbv zeta. repeat split; try reflexivity.
  simpl. right. left. reflexivity.
Qed.

(** ** Identities stay fresh *)

Section Fresh.

Variable toStr : num -> string.

Lemma older_filter (n : nat) (p : Listener -> bool) (ls : list Listener) :
  Forall (fun l => (fn_id (on_fn l) < n)%nat) ls ->
  Forall (fun l => (fn_id (on_fn l) < n)%nat) (filter p ls).
Proof.
  intros H. apply Forall_forall. intros l Hl.
  apply filter_In in Hl as [Hl _].
  now apply (proj1 (Forall_forall _ _) H).
Qed.

(** Splits on the tests of a method, then checks the listeners it leaves:
    old ones, and ones made from identities below the new [nextId]. *)
Ltac fresh_solve H :=
  unfold fresh in *; simpl;
  repeat match goal with
         | |- context [if ?b then _ else _] => destruct b; simpl
         | |- context [match ?o with Some _ => _ | None => _ end] =>
             destruct o; simpl
         end;
  repeat first
    [ apply older_filter
    | apply Forall_app; split
    | apply Forall_cons; [simpl; lia|]
    | apply Forall_nil
    | (eapply older_than_next; [|exact H]; lia) ].

Lemma fresh_updateThumbSize (st : State) :
  fresh st -> fresh (state_of (updateThumbSize toStr st)).
Proof. intros H. unfold updateThumbSize. fresh_solve H. Qed.

Lemma fresh_updateThumbPosition (st : State) :
  fresh st -> fresh (state_of (updateThumbPosition toStr st)).
Proof. intros H. unfold updateThumbPosition. fresh_solve H. Qed.

Lemma fresh_runCallback (cb : Callback) (st : State) :
  fresh st -> fresh (state_of (runCallback toStr cb st)).
Proof.
  intros H. destruct cb; simpl; [|now apply fresh_updateThumbSize].
  pose proof (fresh_updateThumbSize st H) as H1.
  destruct (updateThumbSize toStr st) as [st1|st1]; simpl in *;
    [now apply fresh_updateThumbPosition | exact H1].
Qed.

Lemma fresh_applyCustomization (st : State) :
  fresh st -> fresh (applyCustomization toStr st).
Proof. intros H. unfold applyCustomization. fresh_solve H. Qed.

Lemma fresh_ngOnInit (st : State) : fresh st -> fresh (ngOnInit st).
Proof.
  intros H. unfold ngOnInit, updateThemeColor. fresh_solve H.
Qed.

Lemma fresh_ngAfterViewInit (st : State) :
  fresh st -> fresh (ngAfterViewInit toStr st).
Proof.
  intros H. unfold ngAfterViewInit, applyCustomization, setupContentObserver.
  fresh_solve H.
Qed.

Lemma fresh_ngOnDestroy (st : State) : fresh st -> fresh (ngOnDestroy st).
Proof. intros H. unfold ngOnDestroy. fresh_solve H. Qed.

Lemma fresh_onThumbMouseDown (event : MouseEvent) (st : State) :
  fresh st -> fresh (state_of (onThumbMouseDown event st)).
Proof. intros H. unfold onThumbMouseDown. fresh_solve H. Qed.

Lemma fresh_call (m : Method) (ev : Event) (st : State) :
  fresh st -> fresh (state_of (call toStr m ev st)).
Proof.
  intros H.
  destruct m, ev as [e|e]; simpl; try exact H;
    unfold onThumbMouseDown, onThumbTouchStart, onDocumentMouseMove,
      onDocumentMouseUp, onDocumentTouchMove, onDocumentTouchEnd;
    fresh_solve H.
Qed.

Lemma fresh_dispatch (target : Target) (type : string) (ev : Event)
  (st : State) :
  fresh st -> fresh (dispatch toStr target type ev st).
Proof.
  unfold dispatch. generalize (listeners (env st)) as ls. intros ls.
  revert st. induction ls as [|l ls IH]; intros st H; simpl; [exact H|].
  apply IH. destruct (_ && _); [now apply fresh_call | exact H].
Qed.

Lemma fresh_step (i : Input) (st : State) :
  fresh st -> fresh (step toStr i st).
Proof.
  intros H. destruct i as [target type ev| |e| | |id|url|vp h]; simpl.
  - now apply fresh_dispatch.
  - unfold onContentScroll.
    destruct (isDragging (comp st)); simpl;
      [exact H | now apply fresh_updateThumbPosition].
  - unfold onTrackClick. fresh_solve H.
  - unfold onWindowResize. fresh_solve H.
  - unfold observerCallback. fresh_solve H.
  - unfold fire. destruct (find _ _) as [t|]; [|exact H].
    apply fresh_runCallback. destruct (repeats t); exact H.
  - unfold navigationEnd.
    destruct (routerSubscription (comp st)); [|exact H].
    destruct (viewInit _).
    + apply fresh_applyCustomization.
      unfold updateThemeColor. fresh_solve H.
    + unfold updateThemeColor. fresh_solve H.
  - exact H.
Qed.

Lemma fresh_run (inputs : list Input) :
  forall st : State, fresh st -> fresh (run toStr inputs st).
Proof.
  induction inputs as [|i inputs IH]; intros st H; [exact H|].
  apply (IH (step toStr i st)). now apply fresh_step.
Qed.

Lemma fresh_mounted (vp : Viewport) (thumbHeight : Q) :
  fresh (Sample.mounted toStr vp thumbHeight).
Proof.
  apply fresh_ngAfterViewInit, fresh_ngOnInit. constructor.
Qed.

End Fresh.

(** ** Listeners and timers that outlive their use *)

(** Whatever has happened to the component since a state with fresh
    identities, [ngOnDestroy] unregisters no listener and cancels no
    timer. *)
Theorem teardown_unregisters_nothing (toStr : num -> string)
  (inputs : list Input) (st : State) :
  fresh st ->
  let reached := run toStr inputs st in
  listeners (env (ngOnDestroy reached)) = listeners (env reached)
  /\ timers (env (ngOnDestroy reached)) = timers (env reached).
Proof.
  intros Hfresh reached. split.
  - apply ngOnDestroy_keeps_listeners. now apply fresh_run.
  - apply ngOnDestroy_keeps_timers.
Qed.

Lemma teardown_unregisters_nothing_witness :
  List.length (listeners (env (ngOnDestroy
    (run decimalString
       [TimerFired 0;
        Deliver ThumbEl "mousedown" (Mouse (Sample.mouseAt 100));
        Deliver Document "mouseup" (Mouse (Sample.mouseAt 100))]
       (Sample.mounted decimalString (Sample.tall 0) 90)))))
  = 4%nat.
Proof.
  destruct (teardown_unregisters_nothing decimalString
              [TimerFired 0;
               Deliver ThumbEl "mousedown" (Mouse (Sample.mouseAt 100));
               Deliver Document "mouseup" (Mouse (Sample.mouseAt 100))]
              (Sample.mounted decimalString (Sample.tall 0) 90)
              (fresh_mounted decimalString (Sample.tall 0) 90))
    as [Hlisteners _].
  rewrite Hlisteners. reflexivity.
Defined.

Lemma existsb_newer (target : Target) (type : string) (f : BoundFn)
  (ls : list Listener) :
  Forall (fun l => (fn_id (on_fn l) < fn_id f)%nat) ls ->
  existsb (sameListener target type f) ls = false.
Proof.
  intros Hold. induction ls as [|l ls IH]; [reflexivity|].
  inversion Hold as [|? ? Hl Hls]; subst. simpl.
  unfold sameListener at 1.
  replace (Nat.eqb (fn_id (on_fn l)) (fn_id f)) with false
    by (symmetry; apply Nat.eqb_neq; lia).
  rewrite andb_false_r. simpl. now apply IH.
Qed.

(** The end of a drag detaches nothing either: [onDocumentMouseUp] and
    [onDocumentTouchEnd] leave the listeners as they are, so a mouse drag
    from press to release leaves its [mousemove] and [mouseup] listeners on
    the document, two more after every drag. *)
Theorem drag_end_keeps_listeners (event : MouseEvent) (st : State) :
  fresh st ->
  viewInit (comp st) = true ->
  listeners (env (state_of (onDocumentMouseUp st))) = listeners (env st)
  /\ listeners (env (state_of (onDocumentTouchEnd st))) = listeners (env st)
  /\ exists f g : nat,
       listeners (env (state_of
         (onThumbMouseDown event st ;; onDocumentMouseUp)))
       = (listeners (env st)
          ++ [{| on_target := Document; on_type := "mousemove";
                 on_fn := {| fn_id := f;
                             fn_method := OnDocumentMouseMove |} |};
              {| on_target := Document; on_type := "mouseup";
                 on_fn := {| fn_id := g;
                             fn_method := OnDocumentMouseUp |} |}])%list.
Proof.
  intros Hfresh Hinit. unfold fresh in Hfresh.
  assert (Hend : forall s : State,
    fresh s ->
    listeners (env (state_of (onDocumentMouseUp s))) = listeners (env s)).
  { intros s Hs. unfold onDocumentMouseUp, fresh in *.
    destruct (isDragging (comp s)); simpl; [|reflexivity].
    assert (Hboth :
      filter (fun l => negb (sameListener Document "mouseup"
                {| fn_id := S (nextId (env s));
                   fn_method := OnDocumentMouseUp |} l))
        (filter (fun l => negb (sameListener Document "mousemove"
                   {| fn_id := nextId (env s);
                      fn_method := OnDocumentMouseMove |} l))
           (listeners (env s)))
      = listeners (env s)).
    { rewrite (filter_newer Document "mousemove"
                 {| fn_id := nextId (env s);
                    fn_method := OnDocumentMouseMove |}
                 (listeners (env s)) Hs).
      apply filter_newer. simpl.
      eapply older_than_next; [|exact Hs]. lia. }
    destruct (viewInit (comp s)); simpl; exact Hboth. }
  split; [now apply Hend|]. split.
  - unfold onDocumentTouchEnd.
    destruct (isDragging (comp st)); simpl; [|reflexivity].
    assert (Hboth :
      filter (fun l => negb (sameListener Document "touchend"
                {| fn_id := S (nextId (env st));
                   fn_method := OnDocumentTouchEnd |} l))
        (filter (fun l => negb (sameListener Document "touchmove"
                   {| fn_id := nextId (env st);
                      fn_method := OnDocumentTouchMove |} l))
           (listeners (env st)))
      = listeners (env st)).
    { rewrite (filter_newer Document "touchmove"
                 {| fn_id := nextId (env st);
                    fn_method := OnDocumentTouchMove |}
                 (listeners (env st)) Hfresh).
      apply filter_newer. simpl.
      eapply older_than_next; [|exact Hfresh]. lia. }
    rewrite Hinit. simpl. exact Hboth.
  - exists (nextId (env st)), (S (nextId (env st))).
    pose proof (fresh_onThumbMouseDown event st Hfresh) as Hdown.
    assert (Hrun : exists s, onThumbMouseDown event st = Done s).
    { unfold onThumbMouseDown. simpl. rewrite Hinit. simpl. eauto. }
    destruct Hrun as [s Hs]. rewrite Hs in Hdown |- *. simpl in Hdown |- *.
    rewrite (Hend s Hdown).
    unfold onThumbMouseDown in Hs. simpl in Hs. rewrite Hinit in Hs.
    simpl in Hs. injection Hs as <-. simpl.
    rewrite (existsb_newer Document "mousemove"
               {| fn_id := nextId (env st);
                  fn_method := OnDocumentMouseMove |}
               (listeners (env st)) Hfresh).
    rewrite existsb_app. simpl.
    rewrite (existsb_newer Document "mouseup"
               {| fn_id := S (nextId (env st));
                  fn_method := OnDocumentMouseUp |}
               (listeners (env st)))
      by (simpl; eapply older_than_next; [|exact Hfresh]; lia).
    simpl. now rewrite <- app_assoc.
Qed.

Lemma drag_end_keeps_listeners_witness :
  map on_type (listeners (env (state_of
    (onThumbMouseDown (Sample.mouseAt 100)
       (Sample.mounted decimalString (Sample.tall 0) 90)
     ;; onDocumentMouseUp))))
  = ["mousedown"; "touchstart"; "mousemove"; "mouseup"].
Proof.
  destruct (drag_end_keeps_listeners (Sample.mouseAt 100)
              (Sample.mounted decimalString (Sample.tall 0) 90)
              (fresh_mounted decimalString (Sample.tall 0) 90) eq_refl)
    as (_ & _ & f & g & Hleft).
  rewrite Hleft. reflexivity.
Defined.

(** ** Recomputing twice *)

Section FilterTwice.

Context {A : Type}.

Lemma filter_twice1 (p : A -> bool) (l : list A) :
  filter p (filter p l) = filter p l.
Proof.
  induction l as [|a l IH]; simpl; [reflexivity|].
  destruct (p a) eqn:E; simpl; rewrite ?E, IH; reflexivity.
Qed.

Lemma filter_twice2 (p q : A -> bool) (l : list A) :
  filter p (filter q (filter p (filter q l))) = filter p (filter q l).
Proof.
  induction l as [|a l IH]; simpl; [reflexivity|].
  destruct (q a) eqn:Eq; simpl; [|exact IH].
  destruct (p a) eqn:Ep; simpl; [|exact IH].
  rewrite Eq. simpl. rewrite Ep. now rewrite IH.
Qed.

Lemma filter_twice3 (p q r : A -> bool) (l : list A) :
  filter p (filter q (filter r (filter p (filter q (filter r l)))))
  = filter p (filter q (filter r l)).
Proof.
  induction l as [|a l IH]; simpl; [reflexivity|].
  destruct (r a) eqn:Er; simpl; [|exact IH].
  destruct (q a) eqn:Eq; simpl; [|exact IH].
  destruct (p a) eqn:Ep; simpl; [|exact IH].
  rewrite Er. simpl. rewrite Eq. simpl. rewrite Ep. now rewrite IH.
Qed.

End FilterTwice.

(** The three ways the recomputation [updateThumbSize();
    updateThumbPosition()] can go. *)
Lemma recompute_cases (toStr : num -> string) (st : State) :
  let vp := viewport (page st) in
  let position :=
    thumbStyle "transform"
      (Geometry.translate3d toStr (Geometry.thumbY vp (thumb (page st)))) in
  runCallback toStr Recompute st
  = if negb (viewInit (comp st)) then TypeError st
    else if Qle_bool (scrollHeight vp) (clientHeight vp + 5) then
      Done (position
              (trackStyle "display" "none" (thumbStyle "display" "none" st)))
    else
      Done (position
              (thumbStyle "height"
                 (toStr (Geometry.thumbHeight vp) ++ "px")
                 (trackStyle "display" "block"
                    (thumbStyle "display" "block" st)))).
Proof.
  unfold runCallback, updateThumbSize, updateThumbPosition.
  destruct (viewInit (comp st)) eqn:Hinit; simpl; [|reflexivity].
  destruct (Qle_bool _ _); simpl; rewrite Hinit; reflexivity.
Qed.

(** Running the recomputation a second time on metrics that have not
    changed leaves the whole state, and with it the geometry of the thumb,
    as the first run left it. *)
Lemma State_eq (s1 s2 : State) :
  comp s1 = comp s2 -> page s1 = page s2 -> env s1 = env s2 -> s1 = s2.
Proof. destruct s1, s2. simpl. now intros -> -> ->. Qed.

Lemma Page_eq (p1 p2 : Page) :
  viewport p1 = viewport p2 -> thumb p1 = thumb p2 -> track p1 = track p2 ->
  root p1 = root p2 -> p1 = p2.
Proof. destruct p1, p2. simpl. now intros -> -> -> ->. Qed.

Lemma thumb_thumbStyle (name value : string) (st : State) :
  thumb (page (thumbStyle name value st))
  = withStyle (setProperty name value "") (thumb (page st)).
Proof. reflexivity. Qed.

Lemma thumb_trackStyle (name value : string) (st : State) :
  thumb (page (trackStyle name value st)) = thumb (page st).
Proof. reflexivity. Qed.

Lemma track_thumbStyle (name value : string) (st : State) :
  track (page (thumbStyle name value st)) = track (page st).
Proof. reflexivity. Qed.

Lemma track_trackStyle (name value : string) (st : State) :
  track (page (trackStyle name value st))
  = option_map (withStyle (setProperty name value "")) (track (page st)).
Proof. reflexivity. Qed.

Theorem recompute_idempotent (toStr : num -> string) (st : State) :
  let once := state_of (runCallback toStr Recompute st) in
  state_of (runCallback toStr Recompute once) = once.
Proof.
  cbv zeta. rewrite (recompute_cases toStr st). cbv zeta.
  destruct (viewInit (comp st)) eqn:Hinit; cbn [negb];
    [|cbn [state_of]; rewrite recompute_cases, Hinit; reflexivity].
  destruct (Qle_bool _ _) eqn:Hfit; cbn [state_of];
    match goal with
    | |- state_of (runCallback _ _ ?s) = _ =>
        rewrite (recompute_cases toStr s); cbv zeta;
        change (viewInit (comp s)) with (viewInit (comp st));
        change (viewport (page s)) with (viewport (page st));
        change (Geometry.thumbY (viewport (page st)) (thumb (page s)))
          with (Geometry.thumbY (viewport (page st)) (thumb (page st)))
    end;
    rewrite Hinit, Hfit; cbn [negb state_of];
    generalize (Geometry.translate3d toStr
                  (Geometry.thumbY (viewport (page st)) (thumb (page st))));
    intros position;
    try (generalize (toStr (Geometry.thumbHeight (viewport (page st)))
                     ++ "px"); intros height);
    (apply State_eq; [reflexivity| |reflexivity]);
    (apply Page_eq; [reflexivity| | |reflexivity]);
    repeat first
      [ rewrite thumb_thumbStyle | rewrite thumb_trackStyle
      | rewrite track_thumbStyle | rewrite track_trackStyle ];
    try (destruct (track (page st)) as [t|]; [|reflexivity]);
    unfold withStyle, setProperty; simpl;
    rewrite ?filter_twice3, ?filter_twice2, ?filter_twice1; reflexivity.
Qed.

(** ** The theme *)

Lemma prefix_append (l s : string) :
  String.prefix l s = true <-> exists rest, s = l ++ rest.
Proof.
  revert s. induction l as [|a l IH]; intros s.
  - split; [intros _; now exists s | intros _; now destruct s].
  - destruct s as [|b s]; simpl.
    + split; [discriminate | intros [rest H]; discriminate].
    + destruct (ascii_dec a b) as [<-|Hab].
      * rewrite IH. split; intros [rest H]; exists rest; congruence.
      * split; [discriminate | intros [rest H]; congruence].
Qed.

(** [includes needle hay] holds exactly when [needle] occurs in [hay]. *)
Lemma includes_occurs (needle hay : string) :
  includes needle hay = true
  <-> exists before after, hay = before ++ needle ++ after.
Proof.
  induction hay as [|c hay IH].
  - cbn [includes]. destruct (String.prefix needle "") eqn:E.
    + split; [intros _ | reflexivity].
      apply prefix_append in E as [rest E]. now exists "", rest.
    + split; [discriminate|]. intros ([|b before] & after & H).
      * assert (String.prefix needle "" = true)
          by (apply prefix_append; now exists after).
        congruence.
      * discriminate.
  - cbn [includes]. destruct (String.prefix needle (String c hay)) eqn:E.
    + split; [intros _ | reflexivity].
      apply prefix_append in E as [rest E]. now exists "", rest.
    + rewrite IH. split.
      * intros (before & after & ->). now exists (String c before), after.
      * intros ([|b before] & after & H).
        -- assert (String.prefix needle (String c hay) = true)
             by (apply prefix_append; now exists after).
           congruence.
        -- injection H as _ ->. now exists before, after.
Qed.

(** The theme after [updateThemeColor] is blue exactly when the URL contains
    [/machine], green otherwise.  While the subscription lasts a navigation
    sets that theme and, once the view is initialised, applies its colours:
    the thumb and the track get the [background-color] of the new theme, the
    three custom properties its hover and active colours, an override of the
    host taking the place of each.  It leaves the geometry of the thumb
    (display, height, transform) and the drag alone; before the view is
    initialised it only sets the theme, and once the subscription is over it
    does nothing. *)
Theorem theme_follows_url (toStr : num -> string) (url : string)
  (st : State) :
  let theme := currentThemeColor (comp (updateThemeColor url st)) in
  let scheme := colorSchemes theme in
  let st' := navigationEnd toStr url st in
  (theme = Blue <-> exists before after, url = before ++ "/machine" ++ after)
  /\ (theme = Green
      <-> ~ exists before after, url = before ++ "/machine" ++ after)
  /\ (routerSubscription (comp st) = true ->
      viewInit (comp st) = true ->
      currentThemeColor (comp st') = theme
      /\ getProperty "background-color" (style (thumb (page st')))
         = Some (or_else (thumbColorOverride (comp st)) (Scheme.thumb scheme),
                 "important")
      /\ (forall t, track (page st') = Some t ->
            getProperty "background-color" (style t)
            = Some (or_else (trackColorOverride (comp st))
                      (Scheme.track scheme),
                    "important"))
      /\ getPropertyValue "--custom-scrollbar-thumb-hover" (root (page st'))
         = or_else (thumbColorOverride (comp st)) (Scheme.thumbHover scheme)
      /\ getPropertyValue "--custom-scrollbar-thumb-active" (root (page st'))
         = or_else (thumbColorOverride (comp st)) (Scheme.thumbActive scheme)
      /\ getPropertyValue "--custom-scrollbar-track-hover" (root (page st'))
         = or_else (trackColorOverride (comp st)) (Scheme.trackHover scheme))
  /\ (routerSubscription (comp st) = true ->
      viewInit (comp st) = false ->
      st' = updateThemeColor url st)
  /\ (routerSubscription (comp st) = false -> st' = st)
  /\ (forall name : string,
        In name ["display"; "height"; "transform"] ->
        getPropertyValue name (style (thumb (page st')))
        = getPropertyValue name (style (thumb (page st))))
  /\ isDragging (comp st') = isDragging (comp st).
Proof.
  cbv zeta.
  pose proof (includes_occurs "/machine" url) as Hocc.
  split; [|split; [|split; [|split; [|split; [|split]]]]].
  - unfold updateThemeColor. destruct (includes "/machine" url); simpl.
    + split; [intros _; now apply Hocc | reflexivity].
    + split; [discriminate | intros H; apply Hocc in H; discriminate].
  - unfold updateThemeColor. destruct (includes "/machine" url); simpl.
    + split; [discriminate|]. intros H. exfalso. apply H. now apply Hocc.
    + split; [|reflexivity]. intros _ H. apply Hocc in H. discriminate.
  - intros Hsub Hinit. unfold navigationEnd. rewrite Hsub.
    assert (Hfields : forall s : State,
      s = updateThemeColor url st ->
      viewInit (comp s) = true
      /\ thumbColorOverride (comp s) = thumbColorOverride (comp st)
      /\ trackColorOverride (comp s) = trackColorOverride (comp st)).
    { intros s ->. unfold updateThemeColor.
      destruct (includes "/machine" url); simpl; now rewrite Hinit. }
    destruct (Hfields _ eq_refl) as (Hinit' & Hthumb & Htrack).
    generalize dependent (updateThemeColor url st). intros s _ Hinit' Hthumb
      Htrack.
    cbv zeta. rewrite Hinit'. unfold applyCustomization. rewrite Hinit'.
    simpl. rewrite Hthumb, Htrack. autorewrite with style.
    rewrite getProperty_set_same.
    repeat split.
    intros t Ht. destruct (track (page s)); [|discriminate].
    injection Ht as <-. simpl. apply getProperty_set_same.
  - intros Hsub Hinit. unfold navigationEnd. rewrite Hsub. cbv zeta.
    replace (viewInit (comp (updateThemeColor url st))) with false;
      [reflexivity|].
    unfold updateThemeColor.
    destruct (includes "/machine" url); simpl; now rewrite Hinit.
  - intros Hsub. unfold navigationEnd. now rewrite Hsub.
  - intros name Hname. unfold navigationEnd, updateThemeColor.
    destruct (routerSubscription (comp st)); [|reflexivity].
    destruct (includes "/machine" url); simpl;
      (destruct (viewInit (comp st)); [|reflexivity]);
      unfold applyCustomization; simpl;
      (destruct (viewInit (comp st)); [|reflexivity]); simpl;
      destruct Hname as [<-|[<-|[<-|[]]]]; now autorewrite with style.
  - unfold navigationEnd, updateThemeColor.
    destruct (routerSubscription (comp st)); [|reflexivity].
    destruct (includes "/machine" url); simpl;
      (destruct (viewInit (comp st)); [|reflexivity]);
      match goal with
      | |- context [applyCustomization toStr ?s] =>
          now destruct (applyCustomization_keeps_position toStr s) as [_ ->]
      end.
Qed.

Lemma theme_follows_url_witness :
  getProperty "background-color"
    (style (thumb (page (Sample.mounted decimalString (Sample.tall 0) 90))))
  = Some ("#08a208", "important")
  /\ getProperty "background-color"
       (style (thumb (page
          (navigationEnd decimalString "/machine/7"
             (Sample.mounted decimalString (Sample.tall 0) 90)))))
     = Some ("#0076CC", "important").
Proof.
  split; [reflexivity|].
  destruct (theme_follows_url decimalString "/machine/7"
              (Sample.mounted decimalString (Sample.tall 0) 90))
    as (_ & _ & Hcolours & _).
  destruct (Hcolours eq_refl eq_refl) as (_ & Hthumb & _).
  rewrite Hthumb. reflexivity.
Defined.

(** ** The scenarios of the specification *)

(** [clientHeight = 300], [scrollHeight = 1000]: the thumb is 90 pixels
    high; at [scrollTop = 0] its offset is 0 and at [scrollTop = 700] it is
    [thumbMaxY = 210].  [clientHeight = scrollHeight = 300]: thumb and track
    are hidden.  A drag from [thumbStartY = 50] by 40 pixels puts the thumb
    at 90 and assigns [90 / 210 * 700 = 300] to [scrollTop].  A URL
    containing [/machine] selects the blue scheme, any other the green. *)
Theorem specification_scenarios :
  same (Geometry.thumbHeight (Sample.tall 0)) (Fin 90)
  /\ same (Geometry.thumbY (Sample.tall 0)
             {| style := []; offsetHeight := 90 |}) (Fin 0)
  /\ same (Geometry.thumbY (Sample.tall 700)
             {| style := []; offsetHeight := 90 |}) (Fin 210)
  /\ (let hidden :=
        state_of (runCallback decimalString Recompute
                    (Sample.mounted decimalString Sample.fitting 0)) in
      getPropertyValue "display" (style (thumb (page hidden))) = "none"
      /\ option_map (fun t => getPropertyValue "display" (style t))
           (track (page hidden)) = Some "none")
  /\ (let moved :=
        state_of (onDocumentMouseMove decimalString (Sample.mouseAt 140)
                    (Sample.dragging decimalString (Sample.tall 0) 90 100
                       (Fin 50))) in
      Geometry.thumbTransform moved = "translate3d(0, 90px, 0)"
      /\ exists top : Q,
           effects (env moved) = [PreventDefault; AssignScrollTop (Fin top)]
           /\ top == 300)
  /\ currentThemeColor
       (comp (updateThemeColor "/plant/machine/7"
                (Sample.newComponent (Sample.tall 0) 90))) = Blue
  /\ currentThemeColor
       (comp (updateThemeColor "/storage/cells"
                (Sample.newComponent (Sample.tall 0) 90))) = Green.
Proof.
  cbv zeta. repeat split; try (vm_compute; reflexivity).
  vm_compute. eexists. split; reflexivity.
Qed.

(** ** Thumb and track are shown and hidden together *)

(** [updateThumbSize] is [updateThumbSize_old] followed by giving the track
    the [display] the thumb has just received: the two versions treat the
    thumb alike, and the old one never touches the track.  After
    [updateThumbSize] the thumb's [display] is [none] exactly when
    [scrollHeight <= clientHeight + 5] and [block] otherwise, and the track,
    when there is one, has the same [display]. *)
Theorem updateThumbSize_extends_old (toStr : num -> string) (st : State) :
  viewInit (comp st) = true ->
  exists old new : State,
    updateThumbSize_old toStr st = Done old
    /\ updateThumbSize toStr st = Done new
    /\ new
       = trackStyle "display"
           (getPropertyValue "display" (style (thumb (page old)))) old
    /\ track (page old) = track (page st)
    /\ (getPropertyValue "display" (style (thumb (page new))) = "none"
        <-> scrollHeight (viewport (page st))
            <= clientHeight (viewport (page st)) + 5)
    /\ (getPropertyValue "display" (style (thumb (page new))) = "block"
        <-> clientHeight (viewport (page st)) + 5
            < scrollHeight (viewport (page st)))
    /\ (forall t, track (page new) = Some t ->
          getPropertyValue "display" (style t)
          = getPropertyValue "display" (style (thumb (page new)))).
Proof.
  intros Hinit. unfold updateThumbSize_old, updateThumbSize.
  rewrite Hinit. cbn [negb le add].
  destruct (Qle_bool _ _) eqn:Hfit.
  - do 2 eexists. split; [reflexivity|]. split; [reflexivity|].
    apply Qle_bool_iff in Hfit.
    rewrite !thumb_trackStyle, !thumb_thumbStyle. cbn [style withStyle].
    rewrite !getPropertyValue_set_same.
    split; [reflexivity|]. split; [reflexivity|].
    split; [tauto|]. split; [split; [discriminate | lra]|].
    intros t Ht. rewrite track_trackStyle, track_thumbStyle in Ht.
    destruct (track (page st)); [|discriminate].
    injection Ht as <-. cbn [style withStyle].
    now rewrite getPropertyValue_set_same.
  - do 2 eexists. split; [reflexivity|]. split; [reflexivity|].
    apply Qle_bool_false in Hfit.
    rewrite !thumb_thumbStyle, !thumb_trackStyle, !thumb_thumbStyle.
    cbn [style withStyle].
    rewrite getPropertyValue_set_other by reflexivity.
    rewrite !getPropertyValue_set_same.
    split.
    { apply State_eq; [reflexivity| |reflexivity].
      apply Page_eq; reflexivity. }
    split; [reflexivity|].
    split; [split; [discriminate | lra]|]. split; [tauto|].
    intros t Ht.
    rewrite track_thumbStyle, track_trackStyle, track_thumbStyle in Ht.
    destruct (track (page st)); [|discriminate].
    injection Ht as <-. cbn [style withStyle].
    now rewrite getPropertyValue_set_same.
Qed.

Lemma updateThumbSize_extends_old_witness :
  exists old new : State,
    updateThumbSize_old decimalString
      (Sample.mounted decimalString (Sample.tall 0) 90) = Done old
    /\ updateThumbSize decimalString
         (Sample.mounted decimalString (Sample.tall 0) 90) = Done new
    /\ track (page old)
       = track (page (Sample.mounted decimalString (Sample.tall 0) 90))
    /\ getPropertyValue "display" (style (thumb (page new))) = "block".
Proof.
  destruct (updateThumbSize_extends_old decimalString
              (Sample.mounted decimalString (Sample.tall 0) 90) eq_refl)
    as (old & new & Hold & Hnew & _ & Htrack & _ & Hblock & _).
  exists old, new. repeat split; try assumption.
  apply Hblock. qconst.
Defined.

(** ** From the thumb to the content and back *)

(** What the three pointer methods compute from a candidate offset [y], when
    the content overflows and the thumb is shorter than the viewport: the
    clamped offset [c] lies on the track, the scroll position [top] obtained
    from it lies in the scroll range, and the position formula of
    [updateThumbPosition] maps [top] back to [c]. *)
Lemma seek_spec (vp : Viewport) (thumbEl : Element) (y : num) :
  y <> NaN ->
  clientHeight vp < scrollHeight vp ->
  offsetHeight thumbEl < clientHeight vp ->
  exists c top : Q,
    Geometry.clampedThumbY vp thumbEl y = Fin c
    /\ Geometry.newScrollTop vp thumbEl (Fin c) = Fin top
    /\ 0 <= c <= clientHeight vp - offsetHeight thumbEl
    /\ 0 <= top <= scrollHeight vp - clientHeight vp
    /\ same (Geometry.thumbY (Geometry.scrolledTo top vp) thumbEl) (Fin c)
    /\ (le y (Fin 0) = true -> c == 0)
    /\ (le (Fin (clientHeight vp - offsetHeight thumbEl)) y = true ->
        c == clientHeight vp - offsetHeight thumbEl)
    /\ (forall q, y = Fin q ->
          0 <= q <= clientHeight vp - offsetHeight thumbEl -> c == q).
Proof.
  intros Hy Hscroll Hthumb.
  set (m := clientHeight vp - offsetHeight thumbEl).
  set (range := scrollHeight vp - clientHeight vp).
  assert (Hm : 0 < m) by (unfold m; lra).
  assert (Hrange : 0 < range) by (unfold range; lra).
  destruct (clamp_spec y m (Qlt_le_weak _ _ Hm) Hy)
    as (c & Hc & Hin & Hlow & Hhigh & Hmid).
  destruct (fraction_range c m Hm Hin) as [Hf0 Hf1].
  assert (Hmz : Qzero (clientHeight vp + - offsetHeight thumbEl) = false).
  { apply Qzero_false.
    fold (Qminus (clientHeight vp) (offsetHeight thumbEl)). fold m. lra. }
  assert (Hrz : Qzero (scrollHeight vp + - clientHeight vp) = false).
  { apply Qzero_false.
    fold (Qminus (scrollHeight vp) (clientHeight vp)). fold range. lra. }
  exists c, (c / m * range).
  split; [exact Hc|]. split.
  { unfold Geometry.newScrollTop, Geometry.thumbMaxY.
    cbn [sub add neg div]. rewrite Hmz. reflexivity. }
  split; [exact Hin|]. split.
  { split; [apply Qmult_le_0_compat; lra|].
    rewrite <- (Qmult_1_l range) at 2. apply Qmult_le_compat_r; lra. }
  split.
  { unfold Geometry.thumbY, Geometry.thumbMaxY, Geometry.scrolledTo.
    cbn [scrollTop scrollHeight clientHeight sub add neg div].
    rewrite Hrz. cbn [mul same].
    fold (Qminus (scrollHeight vp) (clientHeight vp)). fold range.
    fold (Qminus (clientHeight vp) (offsetHeight thumbEl)). fold m.
    field. split; lra. }
  repeat split; assumption.
Qed.

(** A drag move never asks for a scroll position outside the scroll range,
    and it puts the thumb where a scroll event at that position would:
    when the content overflows and the thumb is shorter than the viewport,
    the handler writes the offset [c], assigns to [scrollTop] a [top] with
    [0 <= top <= scrollHeight - clientHeight], and the position formula of
    [updateThumbPosition] at [top] gives [c] again. *)
Theorem drag_scrolls_within_range (toStr : num -> string)
  (event : MouseEvent) (st : State) :
  let vp := viewport (page st) in
  let thumbEl := thumb (page st) in
  viewInit (comp st) = true ->
  isDragging (comp st) = true ->
  thumbStartY (comp st) <> NaN ->
  clientHeight vp < scrollHeight vp ->
  offsetHeight thumbEl < clientHeight vp ->
  exists (st' : State) (c top : Q),
    onDocumentMouseMove toStr event st = Done st'
    /\ Geometry.thumbTransform st' = Geometry.translate3d toStr (Fin c)
    /\ effects (env st')
       = (effects (env st) ++ [PreventDefault; AssignScrollTop (Fin top)])%list
    /\ 0 <= top <= scrollHeight vp - clientHeight vp
    /\ same (Geometry.thumbY (Geometry.scrolledTo top vp) thumbEl) (Fin c).
Proof.
  intros vp thumbEl Hinit Hdrag Hstart Hscroll Hthumb.
  assert (Hcand : Geometry.newThumbY (comp st) (clientY event) <> NaN).
  { unfold Geometry.newThumbY.
    destruct (thumbStartY (comp st)); simpl; congruence. }
  destruct (seek_spec vp thumbEl _ Hcand Hscroll Hthumb)
    as (c & top & Hc & Htop & _ & Hrange & Hback & _).
  eexists. exists c, top.
  split; [apply (onDocumentMouseMove_dragging toStr event st Hinit Hdrag)|].
  fold vp thumbEl. rewrite Hc, Htop.
  unfold Geometry.thumbTransform. simpl. autorewrite with style.
  rewrite <- app_assoc. repeat split; try assumption; apply Hrange.
Qed.

Lemma drag_scrolls_within_range_witness :
  exists (st' : State) (top : Q),
    onDocumentMouseMove decimalString (Sample.mouseAt 1000)
      (Sample.dragging decimalString (Sample.tall 0) 90 100 (Fin 50))
    = Done st'
    /\ effects (env st') = [PreventDefault; AssignScrollTop (Fin top)]
    /\ 0 <= top <= 700.
Proof.
  destruct (drag_scrolls_within_range decimalString (Sample.mouseAt 1000)
              (Sample.dragging decimalString (Sample.tall 0) 90 100 (Fin 50)))
    as (st' & c & top & Hrun & _ & Heffects & Hrange & _).
  - reflexivity.
  - reflexivity.
  - discriminate.
  - qconst.
  - qconst.
  - exists st', top. split; [exact Hrun|]. split; [exact Heffects|].
    exact Hrange.
Defined.



(** ** Listeners are only ever added *)

Section Growth.

Variable toStr : num -> string.

(** Solves [listeners after = listeners before ++ more] for a method whose
    calls to [removeEventListener] pass function objects made on the spot. *)
Ltac grow_solve H :=
  unfold fresh in H; simpl;
  rewrite ?filter_newer
    by (simpl; repeat apply older_filter;
        (eapply older_than_next; [|exact H]); lia);
  repeat match goal with
         | |- context [if ?b then _ else _] => destruct b; simpl
         | |- context [match ?o with Some _ => _ | None => _ end] =>
             destruct o; simpl
         end;
  rewrite ?filter_newer
    by (simpl; repeat apply older_filter;
        (eapply older_than_next; [|exact H]); lia);
  rewrite <- ?app_assoc;
  first [ (exists []; split; [now rewrite app_nil_r | reflexivity])
        | (eexists; split; [reflexivity | reflexivity]) ].

Lemma call_grows (m : Method) (ev : Event) (st : State) :
  fresh st ->
  exists more,
    listeners (env (state_of (call toStr m ev st)))
    = (listeners (env st) ++ more)%list
    /\ forallb wired more = true.
Proof.
  intros H.
  destruct m, ev as [e|e]; simpl;
    try (exists []; split; [now rewrite app_nil_r | reflexivity]);
    unfold onThumbMouseDown, onThumbTouchStart, onDocumentMouseMove,
      onDocumentMouseUp, onDocumentTouchMove, onDocumentTouchEnd;
    grow_solve H.
Qed.

Lemma dispatch_grows (target : Target) (type : string) (ev : Event)
  (st : State) :
  fresh st ->
  exists more,
    listeners (env (dispatch toStr target type ev st))
    = (listeners (env st) ++ more)%list
    /\ forallb wired more = true.
Proof.
  unfold dispatch. generalize (listeners (env st)) at 1 as ls. intros ls.
  revert st. induction ls as [|l ls IH]; intros st H; simpl.
  - exists []. split; [now rewrite app_nil_r | reflexivity].
  - destruct (_ && _).
    + destruct (call_grows (fn_method (on_fn l)) ev st H)
        as (more1 & Hmore1 & Hwired1).
      destruct (IH _ (fresh_call toStr (fn_method (on_fn l)) ev st H))
        as (more2 & Hmore2 & Hwired2).
      exists (more1 ++ more2)%list. split.
      * rewrite Hmore2, Hmore1. now rewrite app_assoc.
      * rewrite forallb_app, Hwired1, Hwired2. reflexivity.
    + now apply IH.
Qed.

Lemma env_updateThumbSize (st : State) :
  env (state_of (updateThumbSize toStr st)) = env st.
Proof.
  unfold updateThumbSize. destruct (viewInit _); simpl; [|reflexivity].
  destruct (Qle_bool _ _); reflexivity.
Qed.

Lemma env_updateThumbPosition (st : State) :
  env (state_of (updateThumbPosition toStr st)) = env st.
Proof.
  unfold updateThumbPosition. now destruct (viewInit _).
Qed.

(** The recomputation leaves listeners, timers and the effect log alone. *)
Lemma env_runCallback (cb : Callback) (st : State) :
  env (state_of (runCallback toStr cb st)) = env st.
Proof.
  destruct cb; simpl; [|apply env_updateThumbSize].
  pose proof (env_updateThumbSize st) as Hsize.
  destruct (updateThumbSize toStr st) as [s|s]; simpl in *; [|exact Hsize].
  now rewrite env_updateThumbPosition.
Qed.

Lemma step_grows (i : Input) (st : State) :
  fresh st ->
  exists more,
    listeners (env (step toStr i st)) = (listeners (env st) ++ more)%list
    /\ forallb wired more = true.
Proof.
  intros H.
  destruct i as [target type ev| |e| | |id|url|vp h];
    [now apply dispatch_grows|..];
    exists []; rewrite app_nil_r; (split; [|reflexivity]); simpl.
  - unfold onContentScroll.
    destruct (isDragging _); simpl;
      [reflexivity | now rewrite env_updateThumbPosition].
  - unfold onTrackClick.
    destruct (targetIsThumb e); [reflexivity|].
    destruct (viewInit _); reflexivity.
  - reflexivity.
  - destruct (contentObserver _) as [o|]; [destruct (observing o)|];
      reflexivity.
  - unfold fire. destruct (find _ _) as [t|]; [|reflexivity].
    rewrite env_runCallback. now destruct (repeats t).
  - unfold navigationEnd, updateThemeColor, applyCustomization.
    destruct (routerSubscription _); [|reflexivity].
    destruct (includes _ _); simpl; destruct (viewInit _); reflexivity.
  - reflexivity.
Qed.

(** In a state with fresh identities no input unregisters a listener: the
    listeners after any run are those before it, followed by wired ones. *)
Lemma run_grows (inputs : list Input) :
  forall st : State,
    fresh st ->
    exists more,
      listeners (env (run toStr inputs st))
      = (listeners (env st) ++ more)%list
      /\ forallb wired more = true.
Proof.
  induction inputs as [|i inputs IH]; intros st H.
  - exists []. split; [now rewrite app_nil_r | reflexivity].
  - destruct (step_grows i st H) as (more1 & Hmore1 & Hwired1).
    destruct (IH _ (fresh_step toStr i st H)) as (more2 & Hmore2 & Hwired2).
    exists (more1 ++ more2)%list. split.
    + change (run toStr (i :: inputs) st)
        with (run toStr inputs (step toStr i st)).
      rewrite Hmore2, Hmore1. now rewrite app_assoc.
    + rewrite forallb_app, Hwired1, Hwired2. reflexivity.
Qed.

End Growth.

(** ** Delivering events to listeners that past drags left behind *)

Section Delivery.

Variable toStr : num -> string.

(** On the document a wired listener calls the method of its event type. *)
Lemma wired_document (l : Listener) :
  wired l = true ->
  on_target l = Document ->
  (fn_method (on_fn l) = OnDocumentMouseMove /\ on_type l = "mousemove")
  \/ (fn_method (on_fn l) = OnDocumentMouseUp /\ on_type l = "mouseup")
  \/ (fn_method (on_fn l) = OnDocumentTouchMove /\ on_type l = "touchmove")
  \/ (fn_method (on_fn l) = OnDocumentTouchEnd /\ on_type l = "touchend").
Proof.
  unfold wired. intros Hw Ht. rewrite Ht in Hw.
  destruct (fn_method (on_fn l)); try discriminate;
    apply String.eqb_eq in Hw; tauto.
Qed.

Lemma wired_thumb (l : Listener) :
  wired l = true ->
  on_target l = ThumbEl ->
  (fn_method (on_fn l) = OnThumbMouseDown /\ on_type l = "mousedown")
  \/ (fn_method (on_fn l) = OnThumbTouchStart /\ on_type l = "touchstart").
Proof.
  unfold wired. intros Hw Ht. rewrite Ht in Hw.
  destruct (fn_method (on_fn l)); try discriminate;
    apply String.eqb_eq in Hw; tauto.
Qed.

Lemma Target_eqb_eq (a b : Target) : Target_eqb a b = true -> a = b.
Proof. destruct a, b; simpl; congruence. Qed.

(** While no drag is active the document methods return at once. *)
Lemma call_idle (l : Listener) (ev : Event) (st : State) :
  wired l = true ->
  on_target l = Document ->
  isDragging (comp st) = false ->
  state_of (call toStr (fn_method (on_fn l)) ev st) = st.
Proof.
  intros Hw Ht Hidle.
  destruct (wired_document l Hw Ht) as [[-> _]|[[-> _]|[[-> _]|[-> _]]]];
    destruct ev as [e|e]; simpl; try reflexivity;
    unfold onDocumentMouseMove, onDocumentMouseUp, onDocumentTouchMove,
      onDocumentTouchEnd; now rewrite Hidle.
Qed.

(** The fold of [dispatch] over any wired listeners, from an idle state. *)
Lemma deliver_idle (type : string) (ev : Event) (ls : list Listener) :
  forallb wired ls = true ->
  forall st : State,
    isDragging (comp st) = false ->
    fold_left
      (fun s l =>
         if Target_eqb (on_target l) Document && String.eqb (on_type l) type
         then state_of (call toStr (fn_method (on_fn l)) ev s)
         else s) ls st
    = st.
Proof.
  induction ls as [|l ls IH]; intros Hw st Hidle; [reflexivity|].
  simpl in Hw. apply andb_true_iff in Hw as [Hl Hls]. simpl.
  destruct (Target_eqb (on_target l) Document) eqn:Ht; simpl;
    [|now apply IH].
  destruct (String.eqb (on_type l) type); [|now apply IH].
  rewrite (call_idle l ev st Hl (Target_eqb_eq _ _ Ht) Hidle).
  now apply IH.
Qed.

Lemma onDocumentMouseUp_idle (st : State) :
  isDragging (comp (state_of (onDocumentMouseUp st))) = false.
Proof.
  unfold onDocumentMouseUp.
  destruct (isDragging (comp st)) eqn:Hdrag; simpl; [|exact Hdrag].
  now destruct (viewInit (comp st)).
Qed.

Lemma onDocumentTouchEnd_idle (st : State) :
  isDragging (comp (state_of (onDocumentTouchEnd st))) = false.
Proof.
  unfold onDocumentTouchEnd.
  destruct (isDragging (comp st)) eqn:Hdrag; simpl; [|exact Hdrag].
  now destruct (viewInit (comp st)).
Qed.

(** The fold of [dispatch] for [mouseup]: the first listener ends the drag,
    the others find none. *)
Lemma deliver_mouseup (e : MouseEvent) (ls : list Listener) :
  forallb wired ls = true ->
  forall st : State,
    fold_left
      (fun s l =>
         if Target_eqb (on_target l) Document
            && String.eqb (on_type l) "mouseup"
         then state_of (call toStr (fn_method (on_fn l)) (Mouse e) s)
         else s) ls st
    = if existsb
           (fun l => Target_eqb (on_target l) Document
                     && String.eqb (on_type l) "mouseup") ls
      then state_of (onDocumentMouseUp st) else st.
Proof.
  induction ls as [|l ls IH]; intros Hw st; [reflexivity|].
  simpl in Hw. apply andb_true_iff in Hw as [Hl Hls]. simpl.
  destruct (Target_eqb (on_target l) Document) eqn:Ht; simpl;
    [|now apply IH].
  destruct (String.eqb (on_type l) "mouseup") eqn:Hty; simpl;
    [|now apply IH].
  apply String.eqb_eq in Hty.
  destruct (wired_document l Hl (Target_eqb_eq _ _ Ht))
    as [[_ Hx]|[[-> _]|[[_ Hx]|[_ Hx]]]]; try congruence.
  simpl. apply deliver_idle; [exact Hls | apply onDocumentMouseUp_idle].
Qed.

Lemma deliver_touchend (e : TouchEvent) (ls : list Listener) :
  forallb wired ls = true ->
  forall st : State,
    fold_left
      (fun s l =>
         if Target_eqb (on_target l) Document
            && String.eqb (on_type l) "touchend"
         then state_of (call toStr (fn_method (on_fn l)) (Touch e) s)
         else s) ls st
    = if existsb
           (fun l => Target_eqb (on_target l) Document
                     && String.eqb (on_type l) "touchend") ls
      then state_of (onDocumentTouchEnd st) else st.
Proof.
  induction ls as [|l ls IH]; intros Hw st; [reflexivity|].
  simpl in Hw. apply andb_true_iff in Hw as [Hl Hls]. simpl.
  destruct (Target_eqb (on_target l) Document) eqn:Ht; simpl;
    [|now apply IH].
  destruct (String.eqb (on_type l) "touchend") eqn:Hty; simpl;
    [|now apply IH].
  apply String.eqb_eq in Hty.
  destruct (wired_document l Hl (Target_eqb_eq _ _ Ht))
    as [[_ Hx]|[[_ Hx]|[[_ Hx]|[-> _]]]]; try congruence.
  simpl. apply deliver_idle; [exact Hls | apply onDocumentTouchEnd_idle].
Qed.

End Delivery.

Section MoveOnce.

Variable toStr : num -> string.

Lemma setProperty_twice (name value priority : string) (s : Style) :
  setProperty name value priority (setProperty name value priority s)
  = setProperty name value priority s.
Proof.
  unfold setProperty. simpl. rewrite String.eqb_refl. simpl.
  now rewrite filter_twice1.
Qed.

(** A move handler reads the component and the page only, and leaves the
    component as it is. *)
Lemma move_view (e : MouseEvent) (s1 s2 : State) :
  comp s1 = comp s2 ->
  page s1 = page s2 ->
  comp (state_of (onDocumentMouseMove toStr e s1)) = comp s1
  /\ page (state_of (onDocumentMouseMove toStr e s1))
     = page (state_of (onDocumentMouseMove toStr e s2)).
Proof.
  destruct s1 as [c1 p1 e1], s2 as [c2 p2 e2]. simpl.
  intros <- <-. unfold onDocumentMouseMove. simpl.
  destruct (isDragging c1); simpl; [|now split].
  destruct (viewInit c1); simpl; now split.
Qed.

(** Running it again on the same event changes nothing more on the page. *)
Lemma move_twice (e : MouseEvent) (st : State) :
  page (state_of (onDocumentMouseMove toStr e
                    (state_of (onDocumentMouseMove toStr e st))))
  = page (state_of (onDocumentMouseMove toStr e st)).
Proof.
  destruct (isDragging (comp st)) eqn:Hdrag.
  - destruct (viewInit (comp st)) eqn:Hinit.
    + rewrite (onDocumentMouseMove_dragging toStr e st Hinit Hdrag).
      cbv zeta. cbn [state_of].
      match goal with
      | |- page (state_of (onDocumentMouseMove _ _ ?s)) = _ =>
          rewrite (onDocumentMouseMove_dragging toStr e s Hinit Hdrag);
          cbv zeta; cbn [state_of];
          change (comp s) with (comp st);
          change (viewport (page s)) with (viewport (page st))
      end.
      apply Page_eq; try reflexivity.
      repeat (change (thumb (page (perform ?x ?s))) with (thumb (page s));
              rewrite !thumb_thumbStyle).
      match goal with
      | |- withStyle (setProperty _ ?w2 _) (withStyle (setProperty _ ?w1 _) _)
           = _ => change w2 with w1; generalize w1
      end.
      intros written. unfold withStyle. cbn [style offsetHeight].
      now rewrite setProperty_twice.
    + unfold onDocumentMouseMove. rewrite Hdrag. simpl.
      rewrite Hinit. simpl. rewrite Hdrag. simpl. now rewrite Hinit.
  - unfold onDocumentMouseMove. rewrite Hdrag. simpl. now rewrite Hdrag.
Qed.

(** The fold of [dispatch] for [mousemove]: as many calls as there are
    listeners, and the component and the page of a single call. *)
Lemma deliver_mousemove (e : MouseEvent) (ls : list Listener) :
  forallb wired ls = true ->
  forall st : State,
    let final :=
      fold_left
        (fun s l =>
           if Target_eqb (on_target l) Document
              && String.eqb (on_type l) "mousemove"
           then state_of (call toStr (fn_method (on_fn l)) (Mouse e) s)
           else s) ls st in
    comp final = comp st
    /\ page final
       = if existsb
              (fun l => Target_eqb (on_target l) Document
                        && String.eqb (on_type l) "mousemove") ls
         then page (state_of (onDocumentMouseMove toStr e st))
         else page st.
Proof.
  induction ls as [|l ls IH]; intros Hw st; [now split|].
  simpl in Hw. apply andb_true_iff in Hw as [Hl Hls]. cbv zeta. simpl.
  destruct (Target_eqb (on_target l) Document) eqn:Ht; simpl;
    [|now apply IH].
  destruct (String.eqb (on_type l) "mousemove") eqn:Hty; simpl;
    [|now apply IH].
  apply String.eqb_eq in Hty.
  destruct (wired_document l Hl (Target_eqb_eq _ _ Ht))
    as [[-> _]|[[_ Hx]|[[_ Hx]|[_ Hx]]]]; try congruence.
  simpl.
  destruct (IH Hls (state_of (onDocumentMouseMove toStr e st)))
    as [Hcomp Hpage].
  destruct (move_view e st st eq_refl eq_refl) as [Hsame _].
  split; [now rewrite Hcomp|].
  rewrite Hpage. destruct (existsb _ ls); [apply move_twice | reflexivity].
Qed.

End MoveOnce.

(** Listeners that earlier drags left on the document do no harm.  With
    any wired listeners registered: while no drag is active, an event
    delivered to the document changes nothing; a [mouseup] (a [touchend])
    has exactly the effect of one call of [onDocumentMouseUp]
    ([onDocumentTouchEnd]); and a [mousemove] leaves the component and the
    page as one call of [onDocumentMouseMove] does. *)
Theorem stale_listeners_harmless (toStr : num -> string) (st : State) :
  forallb wired (listeners (env st)) = true ->
  (isDragging (comp st) = false ->
   forall type ev, dispatch toStr Document type ev st = st)
  /\ (forall e,
        dispatch toStr Document "mouseup" (Mouse e) st
        = if listening Document "mouseup" st
          then state_of (onDocumentMouseUp st) else st)
  /\ (forall e,
        dispatch toStr Document "touchend" (Touch e) st
        = if listening Document "touchend" st
          then state_of (onDocumentTouchEnd st) else st)
  /\ (forall e,
        listening Document "mousemove" st = true ->
        comp (dispatch toStr Document "mousemove" (Mouse e) st) = comp st
        /\ page (dispatch toStr Document "mousemove" (Mouse e) st)
           = page (state_of (onDocumentMouseMove toStr e st))).
Proof.
  intros Hw. unfold dispatch, listening. repeat split.
  - intros Hidle type ev. now apply deliver_idle.
  - intros e. now apply deliver_mouseup.
  - intros e. now apply deliver_touchend.
  - now apply (deliver_mousemove toStr e _ Hw st).
  - destruct (deliver_mousemove toStr e _ Hw st) as [_ Hpage].
    rewrite Hpage, H. reflexivity.
Qed.

Lemma stale_listeners_harmless_witness :
  List.length (listeners (env
    (run decimalString
       [TimerFired 0;
        Deliver ThumbEl "mousedown" (Mouse (Sample.mouseAt 100));
        Deliver Document "mouseup" (Mouse (Sample.mouseAt 100));
        Deliver ThumbEl "mousedown" (Mouse (Sample.mouseAt 120))]
       (Sample.mounted decimalString (Sample.tall 0) 90)))) = 6%nat
  /\ isDragging (comp
       (dispatch decimalString Document "mouseup" (Mouse (Sample.mouseAt 150))
          (run decimalString
             [TimerFired 0;
              Deliver ThumbEl "mousedown" (Mouse (Sample.mouseAt 100));
              Deliver Document "mouseup" (Mouse (Sample.mouseAt 100));
              Deliver ThumbEl "mousedown" (Mouse (Sample.mouseAt 120))]
             (Sample.mounted decimalString (Sample.tall 0) 90))))
     = false.
Proof.
  split; [vm_compute; reflexivity|].
  destruct (stale_listeners_harmless decimalString
              (run decimalString
                 [TimerFired 0;
                  Deliver ThumbEl "mousedown" (Mouse (Sample.mouseAt 100));
                  Deliver Document "mouseup" (Mouse (Sample.mouseAt 100));
                  Deliver ThumbEl "mousedown" (Mouse (Sample.mouseAt 120))]
                 (Sample.mounted decimalString (Sample.tall 0) 90)))
    as (_ & Hup & _).
  - vm_compute. reflexivity.
  - rewrite Hup. vm_compute. reflexivity.
Defined.

(** ** What stays true of a mounted component *)

Section Live.

Variable toStr : num -> string.

Lemma comp_updateThumbSize (st : State) :
  comp (state_of (updateThumbSize toStr st)) = comp st.
Proof.
  unfold updateThumbSize. destruct (viewInit _); simpl; [|reflexivity].
  destruct (Qle_bool _ _); reflexivity.
Qed.

Lemma comp_updateThumbPosition (st : State) :
  comp (state_of (updateThumbPosition toStr st)) = comp st.
Proof.
  unfold updateThumbPosition. now destruct (viewInit _).
Qed.

(** The recomputation reads the component and writes the page only. *)
Lemma comp_runCallback (cb : Callback) (st : State) :
  comp (state_of (runCallback toStr cb st)) = comp st.
Proof.
  destruct cb; simpl; [|apply comp_updateThumbSize].
  pose proof (comp_updateThumbSize st) as Hsize.
  destruct (updateThumbSize toStr st) as [s|s]; simpl in *; [|exact Hsize].
  now rewrite comp_updateThumbPosition.
Qed.

Lemma viewInit_call (m : Method) (ev : Event) (st : State) :
  viewInit (comp (state_of (call toStr m ev st))) = viewInit (comp st).
Proof.
  destruct m, ev as [e|e]; simpl; try reflexivity;
    unfold onThumbMouseDown, onThumbTouchStart, onDocumentMouseMove,
      onDocumentMouseUp, onDocumentTouchMove, onDocumentTouchEnd; simpl;
    repeat match goal with
           | |- context [if ?b then _ else _] => destruct b eqn:?; simpl
           | |- context [match ?o with Some _ => _ | None => _ end] =>
               destruct o eqn:?; simpl
           end;
    congruence.
Qed.

Lemma viewInit_dispatch (target : Target) (type : string) (ev : Event)
  (st : State) :
  viewInit (comp (dispatch toStr target type ev st)) = viewInit (comp st).
Proof.
  unfold dispatch. generalize (listeners (env st)) as ls. intros ls.
  revert st. induction ls as [|l ls IH]; intros st; simpl; [reflexivity|].
  rewrite IH. destruct (_ && _); [apply viewInit_call | reflexivity].
Qed.

Lemma viewInit_step (i : Input) (st : State) :
  viewInit (comp (step toStr i st)) = viewInit (comp st).
Proof.
  destruct i as [target type ev| |e| | |id|url|vp h]; simpl.
  - apply viewInit_dispatch.
  - unfold onContentScroll.
    destruct (isDragging _); simpl;
      [reflexivity | now rewrite comp_updateThumbPosition].
  - unfold onTrackClick.
    destruct (targetIsThumb e); [reflexivity|].
    cbn [comp perform Update.onEnv].
    destruct (viewInit (comp st)) eqn:H; simpl; congruence.
  - reflexivity.
  - destruct (contentObserver _) as [o|]; [destruct (observing o)|];
      reflexivity.
  - unfold fire. destruct (find _ _) as [t|]; [|reflexivity].
    rewrite comp_runCallback. now destruct (repeats t).
  - unfold navigationEnd, updateThemeColor, applyCustomization.
    destruct (routerSubscription _); [|reflexivity].
    destruct (includes _ _); simpl; destruct (viewInit (comp st)) eqn:H;
      simpl; congruence.
  - reflexivity.
Qed.

Lemma listening_app (target : Target) (type : string) (st st' : State)
  (more : list Listener) :
  listeners (env st') = (listeners (env st) ++ more)%list ->
  listening target type st = true ->
  listening target type st' = true.
Proof.
  unfold listening. intros -> H. rewrite existsb_app, H. reflexivity.
Qed.

Lemma live_step (i : Input) (st : State) :
  live st -> live (step toStr i st).
Proof.
  intros (Hinit & Hfresh & Hwired & Hdown).
  destruct (step_grows toStr i st Hfresh) as (more & Hmore & Hw).
  repeat split.
  - now rewrite viewInit_step.
  - now apply fresh_step.
  - rewrite Hmore, forallb_app, Hwired, Hw. reflexivity.
  - now apply (listening_app _ _ st _ more).
Qed.

Lemma live_ngAfterViewInit (st : State) :
  fresh st ->
  forallb wired (listeners (env st)) = true ->
  live (ngAfterViewInit toStr st).
Proof.
  intros Hfresh Hwired. repeat split.
  - unfold ngAfterViewInit, applyCustomization, setupContentObserver.
    simpl. now destruct (hasMutationObserver _).
  - now apply fresh_ngAfterViewInit.
  - unfold ngAfterViewInit, applyCustomization, setupContentObserver.
    simpl.
    repeat match goal with
           | |- context [if ?b then _ else _] => destruct b; simpl
           end;
    rewrite ?forallb_app, ?Hwired; reflexivity.
  - unfold listening, ngAfterViewInit, applyCustomization,
      setupContentObserver.
    unfold fresh in Hfresh. simpl.
    destruct (hasMutationObserver _); simpl;
      match goal with
      | |- context [existsb (sameListener ThumbEl "mousedown" ?f)
                      (listeners (env st))] =>
          rewrite (existsb_newer ThumbEl "mousedown" f (listeners (env st)))
            by (simpl; (eapply older_than_next; [|exact Hfresh]); lia)
      end;
      match goal with
      | |- context [if ?b then _ else _] => destruct b; simpl
      end;
      rewrite ?existsb_app; simpl;
      rewrite ?orb_true_r; reflexivity.
Qed.

End Live.

(** From [ngAfterViewInit] on, whatever reaches the component, the view
    stays initialised, identities stay fresh, every registered listener is
    wired, and the thumb keeps listening for [mousedown]: no input, the
    end of a drag included, unregisters anything. *)
Theorem mounted_stays_live (toStr : num -> string) (inputs : list Input)
  (st : State) :
  fresh st ->
  forallb wired (listeners (env st)) = true ->
  live (run toStr inputs (ngAfterViewInit toStr st))
  /\ exists more,
       listeners (env (run toStr inputs (ngAfterViewInit toStr st)))
       = (listeners (env (ngAfterViewInit toStr st)) ++ more)%list.
Proof.
  intros Hfresh Hwired.
  pose proof (live_ngAfterViewInit toStr st Hfresh Hwired) as Hlive.
  split.
  - revert Hlive. generalize (ngAfterViewInit toStr st) as s.
    induction inputs as [|i inputs IH]; intros s Hlive; [exact Hlive|].
    apply (IH (step toStr i s)). now apply live_step.
  - destruct (run_grows toStr inputs (ngAfterViewInit toStr st))
      as (more & Hmore & _); [apply Hlive|].
    now exists more.
Qed.

Lemma mounted_stays_live_witness :
  live (run decimalString
          [Deliver ThumbEl "mousedown" (Mouse (Sample.mouseAt 100));
           Deliver Document "mouseup" (Mouse (Sample.mouseAt 140));
           Navigated "/machine"; TimerFired 0]
          (Sample.mounted decimalString (Sample.tall 0) 90)).
Proof.
  apply (mounted_stays_live decimalString
           [Deliver ThumbEl "mousedown" (Mouse (Sample.mouseAt 100));
            Deliver Document "mouseup" (Mouse (Sample.mouseAt 140));
            Navigated "/machine"; TimerFired 0]
           (ngOnInit (Sample.newComponent (Sample.tall 0) 90))).
  - apply Forall_nil.
  - reflexivity.
Defined.

(** ** A press and a release *)

Section Press.

Variable toStr : num -> string.

Lemma existsb_sameListener (target : Target) (type : string) (f : BoundFn)
  (ls : list Listener) :
  existsb (sameListener target type f) ls = true ->
  existsb
    (fun l => Target_eqb (on_target l) target && String.eqb (on_type l) type)
    ls = true.
Proof.
  induction ls as [|l ls IH]; simpl; [easy|].
  intros H. apply orb_true_iff in H as [H|H].
  - unfold sameListener in H. apply andb_true_iff in H as [H _].
    now rewrite H.
  - rewrite (IH H). apply orb_true_r.
Qed.

(** What one call of [onThumbMouseDown] leaves behind once the view is
    initialised. *)
Lemma onThumbMouseDown_pressed (e : MouseEvent) (st : State) :
  viewInit (comp st) = true ->
  let st' := state_of (onThumbMouseDown e st) in
  isDragging (comp st') = true
  /\ dragStartY (comp st') = clientY e
  /\ thumbStartY (comp st')
     = match match_translate3d
               (getPropertyValue "transform" (style (thumb (page st)))) with
       | Some group1 => parseFloat group1
       | None => Fin 0
       end
  /\ thumb (page st')
     = withStyle (setProperty "opacity" "0.8" "") (thumb (page st))
  /\ viewport (page st') = viewport (page st)
  /\ listening Document "mouseup" st' = true.
Proof.
  intros Hinit. cbv zeta. unfold onThumbMouseDown. simpl.
  rewrite Hinit. simpl. repeat split.
  unfold listening. simpl.
  match goal with
  | |- context [if existsb (sameListener Document "mouseup" ?f) ?l
                then _ else _] =>
      destruct (existsb (sameListener Document "mouseup" f) l) eqn:Hsame
  end.
  - now apply existsb_sameListener in Hsame.
  - rewrite existsb_app. simpl. apply orb_true_r.
Qed.

(** The fold of [dispatch] for a [mousedown] on the thumb: every listener
    starts the drag anew, from the same offset. *)
Lemma deliver_mousedown (e : MouseEvent) (ls : list Listener) :
  forallb wired ls = true ->
  forall st : State,
    viewInit (comp st) = true ->
    let start :=
      match match_translate3d
              (getPropertyValue "transform" (style (thumb (page st)))) with
      | Some group1 => parseFloat group1
      | None => Fin 0
      end in
    let final :=
      fold_left
        (fun s l =>
           if Target_eqb (on_target l) ThumbEl
              && String.eqb (on_type l) "mousedown"
           then state_of (call toStr (fn_method (on_fn l)) (Mouse e) s)
           else s) ls st in
    viewport (page final) = viewport (page st)
    /\ getPropertyValue "transform" (style (thumb (page final)))
       = getPropertyValue "transform" (style (thumb (page st)))
    /\ (existsb
          (fun l => Target_eqb (on_target l) ThumbEl
                    && String.eqb (on_type l) "mousedown") ls = true
        \/ (isDragging (comp st) = true
            /\ dragStartY (comp st) = clientY e
            /\ thumbStartY (comp st) = start
            /\ getPropertyValue "opacity" (style (thumb (page st))) = "0.8"
            /\ listening Document "mouseup" st = true) ->
        isDragging (comp final) = true
        /\ dragStartY (comp final) = clientY e
        /\ thumbStartY (comp final) = start
        /\ getPropertyValue "opacity" (style (thumb (page final))) = "0.8"
        /\ listening Document "mouseup" final = true).
Proof.
  induction ls as [|l ls IH]; intros Hw st Hinit; cbv zeta.
  - simpl. split; [reflexivity|]. split; [reflexivity|].
    intros [Hx|Hx]; [discriminate | exact Hx].
  - simpl in Hw. apply andb_true_iff in Hw as [Hl Hls]. simpl.
    destruct (Target_eqb (on_target l) ThumbEl) eqn:Ht; simpl;
      [|now apply IH].
    destruct (String.eqb (on_type l) "mousedown") eqn:Hty; simpl;
      [|now apply IH].
    apply String.eqb_eq in Hty.
    destruct (wired_thumb l Hl (Target_eqb_eq _ _ Ht)) as [[-> _]|[_ Hx]];
      [|congruence].
    simpl.
    destruct (onThumbMouseDown_pressed e st Hinit)
      as (Hdrag & Hy & Hstart & Hthumb & Hvp & Hup).
    assert (Hinit1 : viewInit (comp (state_of (onThumbMouseDown e st)))
                     = true)
      by (rewrite <- Hinit;
          apply (viewInit_call toStr OnThumbMouseDown (Mouse e) st)).
    assert (Htr : getPropertyValue "transform"
                    (style (thumb (page (state_of (onThumbMouseDown e st)))))
                  = getPropertyValue "transform" (style (thumb (page st))))
      by (rewrite Hthumb; unfold withStyle; simpl;
          now autorewrite with style).
    assert (Hop : getPropertyValue "opacity"
                    (style (thumb (page (state_of (onThumbMouseDown e st)))))
                  = "0.8")
      by (rewrite Hthumb; unfold withStyle; simpl;
          now autorewrite with style).
    specialize (IH Hls (state_of (onThumbMouseDown e st)) Hinit1).
    cbv zeta in IH. rewrite Htr in IH.
    destruct IH as (IHvp & IHtr & IHdrag).
    split; [now rewrite IHvp|]. split; [exact IHtr|].
    intros _. apply IHdrag. right. rewrite <- Hstart. tauto.
Qed.

(** What [onDocumentMouseUp] leaves behind when it ends a drag. *)
Lemma onDocumentMouseUp_released (st : State) :
  viewInit (comp st) = true ->
  isDragging (comp st) = true ->
  let st' := state_of (onDocumentMouseUp st) in
  isDragging (comp st') = false
  /\ dragStartY (comp st') = dragStartY (comp st)
  /\ thumbStartY (comp st') = thumbStartY (comp st)
  /\ thumb (page st')
     = withStyle (setProperty "opacity" "" "") (thumb (page st))
  /\ viewport (page st') = viewport (page st)
  /\ effects (env st') = effects (env st).
Proof.
  intros Hinit Hdrag. cbv zeta. unfold onDocumentMouseUp.
  rewrite Hdrag. simpl. rewrite Hinit. simpl. repeat split.
Qed.

End Press.

(** A press on the thumb and a release, on any component that is [live]:
    delivering [mousedown] to the thumb starts a drag from the offset
    written in the thumb's transform; delivering [mouseup] to the document
    ends it, whatever listeners earlier drags left there.  The viewport and
    the thumb's transform are as before the press, the opacity is reset,
    and the component is [live] again. *)
Theorem press_then_release (toStr : num -> string) (down up : MouseEvent)
  (st : State) :
  live st ->
  let pressed := dispatch toStr ThumbEl "mousedown" (Mouse down) st in
  let released := dispatch toStr Document "mouseup" (Mouse up) pressed in
  (isDragging (comp pressed) = true
   /\ dragStartY (comp pressed) = clientY down
   /\ thumbStartY (comp pressed)
      = match match_translate3d
                (getPropertyValue "transform" (style (thumb (page st)))) with
        | Some group1 => parseFloat group1
        | None => Fin 0
        end
   /\ getPropertyValue "opacity" (style (thumb (page pressed))) = "0.8")
  /\ (isDragging (comp released) = false
      /\ getPropertyValue "opacity" (style (thumb (page released))) = ""
      /\ getPropertyValue "transform" (style (thumb (page released)))
         = getPropertyValue "transform" (style (thumb (page st)))
      /\ viewport (page released) = viewport (page st)
      /\ effects (env released) = effects (env pressed)
      /\ live released).
Proof.
  intros (Hinit & Hfresh & Hwired & Hdown). cbv zeta.
  destruct (deliver_mousedown toStr down (listeners (env st)) Hwired st Hinit)
    as (Hvp & Htr & Hpress).
  fold (dispatch toStr ThumbEl "mousedown" (Mouse down) st) in Hvp, Htr, Hpress.
  destruct (Hpress (or_introl Hdown)) as (Hdrag & Hy & Hstart & Hop & Hup).
  set (pressed := dispatch toStr ThumbEl "mousedown" (Mouse down) st) in *.
  assert (Hinit1 : viewInit (comp pressed) = true)
    by (unfold pressed; now rewrite viewInit_dispatch).
  assert (Hfresh1 : fresh pressed) by now apply fresh_dispatch.
  destruct (dispatch_grows toStr ThumbEl "mousedown" (Mouse down) st Hfresh)
    as (more1 & Hmore1 & Hw1).
  fold pressed in Hmore1.
  assert (Hwired1 : forallb wired (listeners (env pressed)) = true)
    by (rewrite Hmore1, forallb_app, Hwired, Hw1; reflexivity).
  assert (Hrel : dispatch toStr Document "mouseup" (Mouse up) pressed
                 = state_of (onDocumentMouseUp pressed)).
  { unfold dispatch at 1.
    rewrite (deliver_mouseup toStr up (listeners (env pressed)) Hwired1).
    unfold listening in Hup. now rewrite Hup. }
  destruct (onDocumentMouseUp_released pressed Hinit1 Hdrag)
    as (Hidle & _ & _ & Hthumb & Hvp2 & Heff).
  split; [tauto|].
  destruct (dispatch_grows toStr Document "mouseup" (Mouse up) pressed Hfresh1)
    as (more2 & Hmore2 & Hw2).
  rewrite Hrel in *.
  split; [exact Hidle|].
  split; [rewrite Hthumb; unfold withStyle; simpl;
          now autorewrite with style|].
  split; [rewrite Hthumb; unfold withStyle; simpl;
          autorewrite with style; exact Htr|].
  split; [now rewrite Hvp2|].
  split; [exact Heff|].
  repeat split.
  - rewrite <- Hinit1.
    apply (viewInit_call toStr OnDocumentMouseUp (Mouse up) pressed).
  - apply (fresh_call toStr OnDocumentMouseUp (Mouse up) pressed Hfresh1).
  - rewrite Hmore2, forallb_app, Hwired1, Hw2. reflexivity.
  - apply (listening_app _ _ pressed _ more2 Hmore2).
    now apply (listening_app _ _ st _ more1 Hmore1).
Qed.

Lemma press_then_release_witness :
  isDragging (comp
    (dispatch decimalString Document "mouseup" (Mouse (Sample.mouseAt 140))
       (dispatch decimalString ThumbEl "mousedown"
          (Mouse (Sample.mouseAt 100))
          (run decimalString [TimerFired 0]
             (Sample.mounted decimalString (Sample.tall 350) 90)))))
  = false.
Proof.
  refine (proj1 (proj2
    (press_then_release decimalString (Sample.mouseAt 100)
       (Sample.mouseAt 140)
       (run decimalString [TimerFired 0]
          (Sample.mounted decimalString (Sample.tall 350) 90)) _))).
  repeat split.
  - apply fresh_run, fresh_mounted.
Defined.

(** ** Touch and mouse *)

(** Removing a function object newer than every registered listener
    changes nothing. *)
Lemma removeEventListener_newer (target : Target) (type : string)
  (f : BoundFn) (st : State) :
  Forall (fun l => (fn_id (on_fn l) < fn_id f)%nat) (listeners (env st)) ->
  removeEventListener target type f st = st.
Proof.
  destruct st as [c p [ls ts n eff hm url]]. simpl. intros H.
  unfold removeEventListener, Update.onEnv, Update.listeners_. simpl.
  now rewrite filter_newer.
Qed.

Lemma fresh_onComp (f : Component -> Component) (st : State) :
  fresh st -> fresh (Update.onComp f st).
Proof. intros H. exact H. Qed.

(** The touch handlers are the mouse handlers read at [touches[0]].  For a
    touch event whose first touch is at the [clientY] of a mouse event:
    [onDocumentTouchMove] returns what [onDocumentMouseMove] returns;
    [onThumbTouchStart] leaves the component, the page, the effects, the
    timers and the next identity as [onThumbMouseDown] does, and registers
    two listeners as well; and, identities being fresh, [onDocumentTouchEnd]
    and [onDocumentMouseUp] lead to the same state. *)
Theorem touch_mirrors_mouse (toStr : num -> string) (m : MouseEvent)
  (more : list Q) (st : State) :
  fresh st ->
  let t := {| touches := clientY m :: more |} in
  onDocumentTouchMove toStr t st = onDocumentMouseMove toStr m st
  /\ (let a := state_of (onThumbTouchStart t st) in
      let b := state_of (onThumbMouseDown m st) in
      comp a = comp b /\ page a = page b
      /\ effects (env a) = effects (env b)
      /\ timers (env a) = timers (env b)
      /\ nextId (env a) = nextId (env b)
      /\ List.length (listeners (env a)) = List.length (listeners (env b)))
  /\ state_of (onDocumentTouchEnd st) = state_of (onDocumentMouseUp st).
Proof.
  intros Hfresh. cbv zeta. split; [reflexivity|]. split.
  - unfold onThumbTouchStart, onThumbMouseDown. simpl.
    destruct (viewInit (comp st)); simpl; [|repeat split].
    unfold fresh in Hfresh.
    rewrite !(existsb_newer Document _ _ (listeners (env st)))
      by (simpl; exact Hfresh).
    rewrite !existsb_newer
      by (simpl; apply Forall_app; split;
          [(eapply older_than_next; [|exact Hfresh]); lia
          | apply Forall_cons; [simpl; lia | apply Forall_nil]]).
    repeat split. now rewrite !length_app.
  - unfold onDocumentTouchEnd, onDocumentMouseUp, fresh in *.
    destruct (isDragging (comp st)); simpl; [|reflexivity].
    rewrite !removeEventListener_newer
      by (simpl; repeat apply older_filter;
          (eapply older_than_next; [|exact Hfresh]); lia).
    reflexivity.
Qed.

Lemma touch_mirrors_mouse_witness :
  onDocumentTouchMove decimalString {| touches := [130; 400] |}
    (Sample.dragging decimalString (Sample.tall 0) 90 100 (Fin 0))
  = onDocumentMouseMove decimalString (Sample.mouseAt 130)
      (Sample.dragging decimalString (Sample.tall 0) 90 100 (Fin 0)).
Proof.
  refine (proj1
    (touch_mirrors_mouse decimalString (Sample.mouseAt 130) [400]
       (Sample.dragging decimalString (Sample.tall 0) 90 100 (Fin 0)) _)).
  unfold Sample.dragging. apply fresh_onComp, fresh_mounted.
Defined.

(** ** The interval is never cleared *)

Section Timers.

Variable toStr : num -> string.

(** Dropping timers keeps the identifiers of the others apart. *)
Lemma distinct_ids_filter (keep : Timer -> bool) (ts : list Timer) :
  NoDup (map timer_id ts) -> NoDup (map timer_id (filter keep ts)).
Proof.
  intros Hdup. induction ts as [|t ts IH]; [exact Hdup|].
  simpl in Hdup. apply NoDup_cons_iff in Hdup as [Hnew Hdup].
  simpl. destruct (keep t); [|now apply IH].
  simpl. apply NoDup_cons; [|now apply IH].
  intros Hin. apply Hnew.
  apply in_map_iff in Hin as (t' & Hid & Hin).
  apply filter_In in Hin as [Hin _].
  apply in_map_iff. now exists t'.
Qed.

(** Two pending timers with one identifier are one timer. *)
Lemma distinct_ids_same (ts : list Timer) (a b : Timer) :
  NoDup (map timer_id ts) ->
  In a ts -> In b ts -> timer_id a = timer_id b -> a = b.
Proof.
  induction ts as [|t ts IH]; simpl; intros Hdup Ha Hb Hid; [easy|].
  apply NoDup_cons_iff in Hdup as [Hnew Hdup].
  destruct Ha as [->|Ha], Hb as [->|Hb]; try reflexivity.
  - exfalso. apply Hnew. rewrite Hid. now apply in_map.
  - exfalso. apply Hnew. rewrite <- Hid. now apply in_map.
  - now apply IH.
Qed.

(** Timers stay distinct when identifiers only grow and timers are only
    dropped. *)
Lemma distinctTimers_kept (p : Timer -> bool) (st st' : State) :
  timers (env st') = filter p (timers (env st)) ->
  (nextId (env st) <= nextId (env st'))%nat ->
  distinctTimers st -> distinctTimers st'.
Proof.
  intros Ht Hn [Hold Hdup]. unfold distinctTimers. rewrite Ht. split.
  - apply Forall_forall. intros t Hin. apply filter_In in Hin as [Hin _].
    pose proof (proj1 (Forall_forall _ _) Hold t Hin). simpl in *. lia.
  - now apply distinct_ids_filter.
Qed.

Lemma distinctTimers_same (st st' : State) :
  timers (env st') = timers (env st) ->
  (nextId (env st) <= nextId (env st'))%nat ->
  distinctTimers st -> distinctTimers st'.
Proof.
  intros Ht Hn [Hold Hdup]. unfold distinctTimers. rewrite Ht.
  split; [|exact Hdup].
  eapply Forall_impl; [|exact Hold]. simpl. intros t Hlt. lia.
Qed.

Lemma distinctTimers_schedule (again : bool) (cb : Callback) (ms : Z)
  (st : State) :
  distinctTimers st -> distinctTimers (schedule again cb ms st).
Proof.
  intros [Hold Hdup]. unfold distinctTimers, schedule. simpl. split.
  - apply Forall_app. split.
    + eapply Forall_impl; [|exact Hold]. simpl. intros. lia.
    + apply Forall_cons; [simpl; lia | apply Forall_nil].
  - rewrite map_app. simpl.
    apply NoDup_app; [exact Hdup | repeat constructor; easy |].
    intros n Hn [<-|[]]. apply in_map_iff in Hn as (t & Ht & Hin).
    pose proof (proj1 (Forall_forall _ _) Hold t Hin). simpl in *. lia.
Qed.

Lemma timers_call (m : Method) (ev : Event) (st : State) :
  timers (env (state_of (call toStr m ev st))) = timers (env st)
  /\ (nextId (env st) <= nextId (env (state_of (call toStr m ev st))))%nat.
Proof.
  destruct m, ev as [e|e]; simpl; try (split; [reflexivity | lia]);
    unfold onThumbMouseDown, onThumbTouchStart, onDocumentMouseMove,
      onDocumentMouseUp, onDocumentTouchMove, onDocumentTouchEnd; simpl;
    repeat match goal with
           | |- context [if ?b then _ else _] => destruct b; simpl
           | |- context [match ?o with Some _ => _ | None => _ end] =>
               destruct o; simpl
           end;
    (split; [reflexivity | lia]).
Qed.

Lemma timers_dispatch (target : Target) (type : string) (ev : Event)
  (st : State) :
  timers (env (dispatch toStr target type ev st)) = timers (env st)
  /\ (nextId (env st) <= nextId (env (dispatch toStr target type ev st)))%nat.
Proof.
  unfold dispatch. generalize (listeners (env st)) as ls. intros ls.
  revert st. induction ls as [|l ls IH]; intros st; simpl;
    [split; [reflexivity | lia]|].
  destruct (_ && _); [|apply IH].
  destruct (timers_call (fn_method (on_fn l)) ev st) as [Ht Hn].
  destruct (IH (state_of (call toStr (fn_method (on_fn l)) ev st)))
    as [Ht' Hn'].
  split; [now rewrite Ht', Ht | lia].
Qed.

(** A step keeps the timers distinct and keeps every interval. *)
Lemma step_keeps_intervals (i : Input) (st : State) :
  distinctTimers st ->
  distinctTimers (step toStr i st)
  /\ forall t, In t (timers (env st)) -> repeats t = true ->
               In t (timers (env (step toStr i st))).
Proof.
  intros Hd.
  assert (Hsame : forall st' : State,
    timers (env st') = timers (env st) ->
    (nextId (env st) <= nextId (env st'))%nat ->
    distinctTimers st'
    /\ forall t, In t (timers (env st)) -> repeats t = true ->
                 In t (timers (env st'))).
  { intros st' Ht Hn. split; [now apply (distinctTimers_same st)|].
    intros t Hin _. now rewrite Ht. }
  assert (Hsched : forall cb ms,
    distinctTimers (setTimeout cb ms st)
    /\ forall t, In t (timers (env st)) -> repeats t = true ->
                 In t (timers (env (setTimeout cb ms st)))).
  { intros cb ms. split; [now apply distinctTimers_schedule|].
    intros t Hin _. unfold setTimeout, schedule. simpl.
    apply in_or_app. now left. }
  destruct i as [target type ev| |e| | |id|url|vp h].
  - apply Hsame; apply timers_dispatch.
  - apply Hsame; simpl; unfold onContentScroll;
      destruct (isDragging _); simpl;
      rewrite ?env_updateThumbPosition; reflexivity || lia.
  - apply Hsame; simpl; unfold onTrackClick;
      destruct (targetIsThumb e); simpl; try reflexivity; try lia;
      destruct (viewInit _); simpl; reflexivity || lia.
  - apply (Hsched Recompute 100%Z).
  - simpl. destruct (contentObserver _) as [o|]; [destruct (observing o)|];
      try apply (Hsched Recompute 50%Z); apply Hsame; reflexivity || lia.
  - simpl. unfold fire. destruct (find _ _) as [t0|] eqn:Hfind;
      [|apply Hsame; reflexivity || lia].
    destruct (repeats t0) eqn:Hrep;
      [apply Hsame; rewrite env_runCallback; reflexivity || lia|].
    split.
    + apply (distinctTimers_kept
               (fun t' => negb (Nat.eqb (timer_id t') id)) st);
        [rewrite env_runCallback; reflexivity
        | rewrite env_runCallback; simpl; lia
        | exact Hd].
    + intros t Hin Ht. rewrite env_runCallback. simpl.
      apply filter_In. split; [exact Hin|].
      apply negb_true_iff. apply Nat.eqb_neq. intros Hid.
      apply find_some in Hfind as [Hin0 Hid0].
      apply Nat.eqb_eq in Hid0.
      assert (t = t0)
        by (apply (distinct_ids_same (timers (env st)));
            [apply Hd | exact Hin | exact Hin0 | congruence]).
      congruence.
  - apply Hsame; simpl;
      unfold navigationEnd, updateThemeColor, applyCustomization;
      destruct (routerSubscription _); simpl; try reflexivity; try lia;
      destruct (includes _ _); simpl; destruct (viewInit _); simpl;
      reflexivity || lia.
  - apply Hsame; reflexivity || lia.
Qed.

Lemma run_keeps_intervals (inputs : list Input) :
  forall st : State,
    distinctTimers st ->
    distinctTimers (run toStr inputs st)
    /\ forall t, In t (timers (env st)) -> repeats t = true ->
                 In t (timers (env (run toStr inputs st))).
Proof.
  induction inputs as [|i inputs IH]; intros st Hd; [now split|].
  destruct (step_keeps_intervals i st Hd) as [Hd1 Hkeep1].
  destruct (IH _ Hd1) as [Hd2 Hkeep2].
  split; [exact Hd2|]. intros t Hin Hrep.
  apply Hkeep2; [now apply Hkeep1 | exact Hrep].
Qed.

Lemma distinctTimers_ngAfterViewInit (st : State) :
  distinctTimers st ->
  distinctTimers (ngAfterViewInit toStr st)
  /\ In {| timer_id := S (nextId (env st)); repeats := true;
           delay := 1000; callback := Recheck |}
        (timers (env (ngAfterViewInit toStr st))).
Proof.
  intros Hd.
  pose proof (distinctTimers_schedule true Recheck 1000 _
                (distinctTimers_schedule false Recompute 200 st Hd))
    as [Hold Hdup].
  unfold ngAfterViewInit, applyCustomization, setupContentObserver,
    distinctTimers.
  simpl in *.
  destruct (hasMutationObserver _); simpl;
    (split; [split|]);
    try exact Hdup;
    try (eapply Forall_impl; [|exact Hold]; simpl; intros; lia);
    repeat match goal with
           | |- context [if ?b then _ else _] => destruct b; simpl
           end;
    rewrite <- ?app_assoc; apply in_or_app; right; simpl; tauto.
Qed.

End Timers.

(** The interval that [setupContentObserver] starts is never cleared.
    Whatever reaches the component after [ngAfterViewInit], the periodic
    recheck is still pending, with the identifier it was given; it is still
    pending after [ngOnDestroy]; and when it fires, then or before, it runs
    [updateThumbSize] and stays. *)
Theorem interval_never_cleared (toStr : num -> string) (inputs : list Input)
  (st : State) :
  distinctTimers st ->
  let recheck :=
    {| timer_id := S (nextId (env st)); repeats := true; delay := 1000;
       callback := Recheck |} in
  let later := run toStr inputs (ngAfterViewInit toStr st) in
  In recheck (timers (env later))
  /\ In recheck (timers (env (ngOnDestroy later)))
  /\ fire toStr (timer_id recheck) later
     = state_of (updateThumbSize toStr later)
  /\ fire toStr (timer_id recheck) (ngOnDestroy later)
     = state_of (updateThumbSize toStr (ngOnDestroy later))
  /\ timers (env (fire toStr (timer_id recheck) (ngOnDestroy later)))
     = timers (env later).
Proof.
  intros Hd. cbv zeta.
  destruct (distinctTimers_ngAfterViewInit toStr st Hd) as [Hd0 Hin0].
  destruct (run_keeps_intervals toStr inputs _ Hd0) as [Hd1 Hkeep].
  specialize (Hkeep _ Hin0 eq_refl).
  set (later := run toStr inputs (ngAfterViewInit toStr st)) in *.
  set (recheck := {| timer_id := S (nextId (env st)); repeats := true;
                     delay := 1000; callback := Recheck |}) in *.
  assert (Hfire : forall s : State,
    timers (env s) = timers (env later) ->
    fire toStr (timer_id recheck) s = state_of (updateThumbSize toStr s)).
  { intros s Hs. unfold fire. rewrite Hs.
    destruct (find _ _) as [t0|] eqn:Hfind.
    - apply find_some in Hfind as [Hin1 Hid1]. apply Nat.eqb_eq in Hid1.
      assert (t0 = recheck)
        by (apply (distinct_ids_same (timers (env later)));
            [apply Hd1 | exact Hin1 | exact Hkeep | exact Hid1]).
      subst t0. reflexivity.
    - exfalso.
      pose proof (find_none _ _ Hfind recheck Hkeep) as Hno.
      simpl in Hno. now rewrite Nat.eqb_refl in Hno. }
  split; [exact Hkeep|].
  split; [now rewrite ngOnDestroy_keeps_timers|].
  split; [now apply Hfire|].
  split; [apply Hfire, ngOnDestroy_keeps_timers|].
  rewrite (Hfire _ (ngOnDestroy_keeps_timers later)).
  rewrite env_updateThumbSize. apply ngOnDestroy_keeps_timers.
Qed.

Lemma interval_never_cleared_witness :
  In {| timer_id := 1; repeats := true; delay := 1000; callback := Recheck |}
    (timers (env
       (run decimalString
          [TimerFired 0; WindowResized; TimerFired 1; ContentMutated;
           TimerFired 2; TimerFired 1]
          (Sample.mounted decimalString (Sample.tall 0) 90)))).
Proof.
  refine (proj1
    (interval_never_cleared decimalString
       [TimerFired 0; WindowResized; TimerFired 1; ContentMutated;
        TimerFired 2; TimerFired 1]
       (ngOnInit (Sample.newComponent (Sample.tall 0) 90)) _)).
  split; [apply Forall_nil | apply NoDup_nil].
Defined.

(** ** What the transform pattern accepts *)

Section PatternLanguage.

Context {A : Type}.

Lemma lit_sound (l s : string) (k : string -> option A) (r : A) :
  lit l k s = Some r -> exists rest, s = l ++ rest /\ k rest = Some r.
Proof.
  intros H.
  assert (E : String.prefix l s = true)
    by (unfold lit in H; destruct (String.prefix l s);
        [reflexivity | discriminate]).
  apply prefix_append in E as [rest ->]. rewrite lit_append in H.
  now exists rest.
Qed.

Lemma star_sound (c : ascii -> bool) (k : string -> option A) (r : A) :
  forall s : string,
    star c k s = Some r ->
    exists w rest, s = w ++ rest /\ every c w = true /\ k rest = Some r.
Proof.
  induction s as [|a s IH]; intros H.
  - exists "", "". now repeat split.
  - cbn [star] in H. destruct (c a) eqn:Ha.
    + destruct (star c k s) as [r'|] eqn:Hs.
      * destruct (IH H) as (w & rest & -> & Hw & Hk).
        exists (String a w), rest. repeat split.
        -- simpl. now rewrite Ha.
        -- exact Hk.
      * exists "", (String a s). now repeat split.
    + exists "", (String a s). now repeat split.
Qed.

Lemma star_complete (c : ascii -> bool) (k : string -> option A)
  (rest : string) :
  k rest <> None ->
  forall w : string, every c w = true -> star c k (w ++ rest) <> None.
Proof.
  intros Hk. induction w as [|a w IH]; intros Hw.
  - simpl. destruct rest as [|b rest]; [exact Hk|].
    cbn [star]. destruct (c b); [|exact Hk].
    now destruct (star c k rest).
  - simpl in Hw. apply andb_true_iff in Hw as [Ha Hw].
    change (String a w ++ rest) with (String a (w ++ rest)).
    rewrite star_cons_true by exact Ha.
    specialize (IH Hw). now destruct (star c k (w ++ rest)).
Qed.

Lemma plus_from_sound (c : ascii -> bool) (k : string -> string -> option A)
  (r : A) :
  forall (s : string) (acc : list ascii),
    plus_from c acc k s = Some r ->
    exists g rest,
      s = g ++ rest /\ g <> "" /\ every c g = true
      /\ k (string_of_list_ascii (rev acc) ++ g) rest = Some r.
Proof.
  induction s as [|a s IH]; intros acc H; [discriminate|].
  cbn [plus_from] in H. destruct (c a) eqn:Ha; [|discriminate].
  destruct (plus_from c (a :: acc) k s) as [r'|] eqn:Hs.
  - injection H as ->.
    destruct (IH _ Hs) as (g & rest & -> & _ & Hg & Hk).
    exists (String a g), rest. repeat split.
    + discriminate.
    + simpl. now rewrite Ha.
    + rewrite <- string_of_rev_cons. exact Hk.
  - exists (String a ""), s. repeat split.
    + discriminate.
    + simpl. now rewrite Ha.
    + rewrite <- string_of_rev_cons, append_empty_r. exact H.
Qed.

Lemma plus_from_complete (c : ascii -> bool)
  (k : string -> string -> option A) (rest : string) :
  (forall group1, k group1 rest <> None) ->
  forall (g : string) (acc : list ascii),
    g <> "" -> every c g = true -> plus_from c acc k (g ++ rest) <> None.
Proof.
  intros Hk. induction g as [|a g IH]; intros acc Hne Hg; [congruence|].
  simpl in Hg. apply andb_true_iff in Hg as [Ha Hg].
  change (String a g ++ rest) with (String a (g ++ rest)).
  cbn [plus_from]. rewrite Ha.
  destruct g as [|b g].
  - simpl. destruct (plus_from c (a :: acc) k rest); [discriminate|].
    apply Hk.
  - specialize (IH (a :: acc)).
    destruct (plus_from c (a :: acc) k (String b g ++ rest));
      [discriminate|].
    exfalso. now apply IH.
Qed.

End PatternLanguage.

(** The texts in which [/translate3d\(0,\s*([^,]+)px,\s*0\)/] finds a match
    are those that contain [translate3d(0,], white space, a non-empty text
    without a comma, [px,], white space and [0)]; the group that
    [match_translate3d] answers with is such a text of the input.  Any other
    transform makes a drag start from offset 0. *)
Theorem match_translate3d_language (s : string) :
  (forall group1 : string,
     match_translate3d s = Some group1 ->
     exists before ws1 ws2 after,
       s = before ++ "translate3d(0," ++ ws1 ++ group1 ++ "px," ++ ws2
           ++ "0)" ++ after
       /\ every is_space ws1 = true
       /\ every is_space ws2 = true
       /\ group1 <> ""
       /\ every not_comma group1 = true)
  /\ (match_translate3d s = None ->
      forall before ws1 text ws2 after,
        every is_space ws1 = true ->
        every is_space ws2 = true ->
        text <> "" ->
        every not_comma text = true ->
        s <> before ++ "translate3d(0," ++ ws1 ++ text ++ "px," ++ ws2
             ++ "0)" ++ after).
Proof.
  split.
  - intros group1. induction s as [|a s IH]; intros H.
    + discriminate.
    + cbn [match_translate3d] in H.
      destruct (translate3d_at (String a s)) as [g|] eqn:Hat.
      * injection H as ->. unfold translate3d_at in Hat.
        apply lit_sound in Hat as (r1 & Hs & Hat).
        apply star_sound in Hat as (ws1 & r2 & -> & Hws1 & Hat).
        apply plus_from_sound in Hat as (g & r3 & -> & Hne & Hg & Hat).
        unfold after_group in Hat. simpl string_of_list_ascii in Hat.
        change ("" ++ g) with g in Hat.
        apply lit_sound in Hat as (r4 & -> & Hat).
        apply star_sound in Hat as (ws2 & r5 & -> & Hws2 & Hat).
        apply lit_sound in Hat as (after & -> & Hat).
        injection Hat as <-.
        exists "", ws1, ws2, after. now rewrite Hs.
      * destruct (IH H) as (before & ws1 & ws2 & after & -> & Hrest).
        now exists (String a before), ws1, ws2, after.
  - intros Hnone before ws1 text ws2 after Hws1 Hws2 Hne Htext ->.
    revert Hnone. induction before as [|a before IH].
    + change ("" ++ ?x) with x.
      assert (Hat : translate3d_at
                ("translate3d(0," ++ ws1 ++ text ++ "px," ++ ws2
                 ++ "0)" ++ after) <> None).
      { unfold translate3d_at. rewrite lit_append.
        apply star_complete; [|exact Hws1].
        apply plus_from_complete; [|exact Hne|exact Htext].
        intros g. unfold after_group. rewrite lit_append.
        apply star_complete; [|exact Hws2].
        rewrite lit_append. discriminate. }
      destruct ("translate3d(0," ++ ws1 ++ text ++ "px," ++ ws2
                ++ "0)" ++ after) as [|c rest] eqn:E; [discriminate|].
      cbn [match_translate3d].
      destruct (translate3d_at (String c rest)); [discriminate | congruence].
    + change (String a before ++ ?x) with (String a (before ++ x)).
      cbn [match_translate3d].
      destruct (translate3d_at _); [discriminate | exact IH].
Qed.

(** ** What scrolls the viewport *)

Section Quiet.

Variable toStr : num -> string.

(** Only the two move handlers assign [scrollTop]. *)
Lemma call_quiet (m : Method) (ev : Event) (st : State) :
  m <> OnDocumentMouseMove ->
  m <> OnDocumentTouchMove ->
  filter scrolls (effects (env (state_of (call toStr m ev st))))
  = filter scrolls (effects (env st)).
Proof.
  intros Hmouse Htouch.
  destruct m, ev as [e|e]; try congruence; simpl; try reflexivity;
    unfold onThumbMouseDown, onThumbTouchStart, onDocumentMouseUp,
      onDocumentTouchEnd; simpl;
    repeat match goal with
           | |- context [if ?b then _ else _] => destruct b; simpl
           | |- context [match ?o with Some _ => _ | None => _ end] =>
               destruct o; simpl
           end;
    rewrite ?filter_app; simpl; rewrite ?app_nil_r; reflexivity.
Qed.

Lemma deliver_quiet (target : Target) (type : string) (ev : Event)
  (ls : list Listener) :
  forallb wired ls = true ->
  (target = Document -> type <> "mousemove" /\ type <> "touchmove") ->
  forall st : State,
    filter scrolls
      (effects (env
         (fold_left
            (fun s l =>
               if Target_eqb (on_target l) target
                  && String.eqb (on_type l) type
               then state_of (call toStr (fn_method (on_fn l)) ev s)
               else s) ls st)))
    = filter scrolls (effects (env st)).
Proof.
  intros Hw Htype. induction ls as [|l ls IH]; intros st; [reflexivity|].
  simpl in Hw. apply andb_true_iff in Hw as [Hl Hls]. simpl.
  destruct (Target_eqb (on_target l) target) eqn:Ht; simpl;
    [|now apply IH].
  destruct (String.eqb (on_type l) type) eqn:Hty; [|now apply IH].
  rewrite (IH Hls). apply Target_eqb_eq in Ht. apply String.eqb_eq in Hty.
  apply call_quiet; intros Hm; unfold wired in Hl; rewrite Ht, Hm in Hl;
    destruct target; try discriminate;
    apply String.eqb_eq in Hl; destruct (Htype eq_refl); congruence.
Qed.

End Quiet.

(** The component moves the viewport in two places only: a click on the
    track, and a [mousemove] or [touchmove] on the document during a drag.
    Any other input, in any state whose listeners are wired, adds no
    assignment to [scrollTop] and no call of [scrollTo]. *)
Theorem scrolls_only_on_pointer (toStr : num -> string) (i : Input)
  (st : State) :
  forallb wired (listeners (env st)) = true ->
  (forall e, i <> TrackClicked e) ->
  (isDragging (comp st) = true ->
   forall ev, i <> Deliver Document "mousemove" ev
              /\ i <> Deliver Document "touchmove" ev) ->
  filter scrolls (effects (env (step toStr i st)))
  = filter scrolls (effects (env st)).
Proof.
  intros Hw Hclick Hmove.
  destruct i as [target type ev| |e| | |id|url|vp h]; simpl.
  - unfold dispatch. destruct (isDragging (comp st)) eqn:Hdrag.
    + apply deliver_quiet; [exact Hw|]. intros ->.
      destruct (Hmove eq_refl ev) as [H1 H2].
      split; intros ->; congruence.
    + destruct target; [apply deliver_quiet; [exact Hw | discriminate]|].
      now rewrite (deliver_idle toStr type ev _ Hw st Hdrag).
  - unfold onContentScroll. destruct (isDragging _); simpl;
      [reflexivity | now rewrite env_updateThumbPosition].
  - now destruct (Hclick e).
  - reflexivity.
  - destruct (contentObserver _) as [o|]; [destruct (observing o)|];
      reflexivity.
  - unfold fire. destruct (find _ _) as [t|]; [|reflexivity].
    rewrite env_runCallback. now destruct (repeats t).
  - unfold navigationEnd, updateThemeColor, applyCustomization.
    destruct (routerSubscription _); [|reflexivity].
    destruct (includes _ _); simpl; destruct (viewInit _); reflexivity.
  - reflexivity.
Qed.

Lemma scrolls_only_on_pointer_witness :
  filter scrolls (effects (env
    (step decimalString
       (Deliver Document "mouseup" (Mouse (Sample.mouseAt 140)))
       (run decimalString
          [TimerFired 0;
           Deliver ThumbEl "mousedown" (Mouse (Sample.mouseAt 100));
           Deliver Document "mousemove" (Mouse (Sample.mouseAt 130))]
          (Sample.mounted decimalString (Sample.tall 0) 90)))))
  = [AssignScrollTop (Fin (30 / (300 - 90) * (1000 - 300)))].
Proof.
  rewrite (scrolls_only_on_pointer decimalString
             (Deliver Document "mouseup" (Mouse (Sample.mouseAt 140)))
             (run decimalString
                [TimerFired 0;
                 Deliver ThumbEl "mousedown" (Mouse (Sample.mouseAt 100));
                 Deliver Document "mousemove" (Mouse (Sample.mouseAt 130))]
                (Sample.mounted decimalString (Sample.tall 0) 90))).
  - vm_compute. reflexivity.
  - vm_compute. reflexivity.
  - intros e. discriminate.
  - intros _ ev. split; discriminate.
Defined.

(** ** Timeouts *)

Section Timeouts.

Variable toStr : num -> string.

Lemma find_newest (n : nat) (x : Timer) (ts : list Timer) :
  Forall (fun t => (timer_id t < n)%nat) ts ->
  timer_id x = n ->
  find (fun t => Nat.eqb (timer_id t) n) (ts ++ [x]) = Some x
  /\ filter (fun t => negb (Nat.eqb (timer_id t) n)) (ts ++ [x]) = ts
  /\ find (fun t => Nat.eqb (timer_id t) n) ts = None.
Proof.
  intros Hold Hx. induction ts as [|t ts IH]; simpl.
  - rewrite Hx, Nat.eqb_refl. now repeat split.
  - inversion Hold as [|? ? Ht Hts]; subst.
    destruct (IH Hts) as (Hfind & Hfilter & Hnone).
    replace (Nat.eqb (timer_id t) (timer_id x)) with false
      by (symmetry; apply Nat.eqb_neq; lia).
    simpl. rewrite Hfind, Hfilter, Hnone. now repeat split.
Qed.

(** A timeout, fired, runs its callback in the state it was set in, one
    identifier later, and is spent. *)
Lemma fire_timeout (cb : Callback) (ms : Z) (st : State) :
  distinctTimers st ->
  let fired := fire toStr (nextId (env st)) (setTimeout cb ms st) in
  fired
  = state_of (runCallback toStr cb
                (Update.onEnv (Update.nextId_ (S (nextId (env st)))) st))
  /\ fire toStr (nextId (env st)) fired = fired.
Proof.
  intros [Hold _]. cbv zeta.
  destruct st as [c p [ls ts n eff hm url]]. simpl in Hold.
  destruct (find_newest n
              {| timer_id := n; repeats := false; delay := ms;
                 callback := cb |} ts Hold eq_refl)
    as (Hfind & Hfilter & Hnone).
  assert (Hfired :
    fire toStr n
      (setTimeout cb ms
         {| comp := c; page := p;
            env := {| listeners := ls; timers := ts; nextId := n;
                      effects := eff; hasMutationObserver := hm;
                      routerUrl := url |} |})
    = state_of (runCallback toStr cb
        {| comp := c; page := p;
           env := {| listeners := ls; timers := ts; nextId := S n;
                     effects := eff; hasMutationObserver := hm;
                     routerUrl := url |} |})).
  { unfold fire, setTimeout, schedule. cbn [env timers Update.onEnv
      Update.timers_ Update.nextId_ nextId comp page listeners effects
      hasMutationObserver routerUrl].
    rewrite Hfind. cbn [repeats callback]. do 2 f_equal.
    unfold Update.onEnv, Update.timers_, Update.nextId_. simpl.
    now rewrite Hfilter. }
  cbn [env nextId]. split; [exact Hfired|].
  rewrite Hfired. unfold fire at 1. rewrite env_runCallback.
  cbn [env timers]. now rewrite Hnone.
Qed.

(** [ngOnDestroy] disconnects the observer, when there is one. *)
Lemma ngOnDestroy_disconnects (st : State) :
  contentObserver (comp (ngOnDestroy st))
  = match contentObserver (comp st) with
    | Some _ => Some {| observing := false |}
    | None => None
    end.
Proof.
  destruct st as [c p e].
  unfold ngOnDestroy, removeEventListener, bind, Update.onEnv, Update.onComp.
  simpl.
  destruct (viewInit c) eqn:Hinit; simpl; repeat (rewrite Hinit; simpl);
    destruct (contentObserver c) eqn:Hobs; simpl; rewrite ?Hobs;
    reflexivity.
Qed.

End Timeouts.

(** Every resize of the window, and every mutation of the content while
    the observer is connected, sets a timeout of its own; when it fires, it
    recomputes the thumb once, in the state it finds, and is spent: firing
    it again does nothing.  After [ngOnDestroy] a mutation of the content
    sets no timeout any more. *)
Theorem recompute_runs_once (toStr : num -> string) (st : State) :
  distinctTimers st ->
  let id := nextId (env st) in
  let next := Update.onEnv (Update.nextId_ (S id)) st in
  let resized := step toStr (TimerFired id) (step toStr WindowResized st) in
  let mutated := step toStr (TimerFired id) (step toStr ContentMutated st) in
  resized = state_of (updateThumbSize toStr next ;; updateThumbPosition toStr)
  /\ step toStr (TimerFired id) resized = resized
  /\ timers (env resized) = timers (env st)
  /\ (contentObserver (comp st) = Some {| observing := true |} ->
      mutated = resized)
  /\ step toStr ContentMutated (ngOnDestroy st) = ngOnDestroy st.
Proof.
  intros Hd. cbv zeta.
  destruct (fire_timeout toStr Recompute 100 st Hd) as [Hfired Hspent].
  destruct (fire_timeout toStr Recompute 50 st Hd) as [Hfired' _].
  cbv zeta in *.
  change (step toStr (TimerFired (nextId (env st)))
            (step toStr WindowResized st))
    with (fire toStr (nextId (env st)) (setTimeout Recompute 100 st)).
  split; [exact Hfired|]. split; [exact Hspent|]. split.
  - rewrite Hfired, env_runCallback. reflexivity.
  - split.
    + intros Hobs. simpl. rewrite Hobs. simpl.
      unfold observerCallback. now rewrite Hfired, Hfired'.
    + cbn [step]. rewrite ngOnDestroy_disconnects.
      destruct (contentObserver (comp st)); reflexivity.
Qed.

Lemma recompute_runs_once_witness :
  timers (env
    (step decimalString
       (TimerFired
          (nextId (env (Sample.mounted decimalString (Sample.tall 350) 90))))
       (step decimalString WindowResized
          (Sample.mounted decimalString (Sample.tall 350) 90))))
  = timers (env (Sample.mounted decimalString (Sample.tall 350) 90)).
Proof.
  refine (proj1 (proj2 (proj2
    (recompute_runs_once decimalString
       (Sample.mounted decimalString (Sample.tall 350) 90) _)))).
  apply (distinctTimers_ngAfterViewInit decimalString
           (ngOnInit (Sample.newComponent (Sample.tall 350) 90))).
  split; [apply Forall_nil | apply NoDup_nil].
Defined.

(** ** Before the view is initialised *)

Section BeforeViewInit.

Variable toStr : num -> string.

Lemma call_before_view (m : Method) (ev : Event) (st : State) :
  viewInit (comp st) = false ->
  page (state_of (call toStr m ev st)) = page st
  /\ filter scrolls (effects (env (state_of (call toStr m ev st))))
     = filter scrolls (effects (env st)).
Proof.
  intros Hinit.
  destruct m, ev as [e|e]; simpl; try (split; reflexivity);
    unfold onThumbMouseDown, onThumbTouchStart, onDocumentMouseMove,
      onDocumentMouseUp, onDocumentTouchMove, onDocumentTouchEnd; simpl;
    rewrite ?Hinit; simpl;
    repeat match goal with
           | |- context [if ?b then _ else _] => destruct b; simpl
           | |- context [match ?o with Some _ => _ | None => _ end] =>
               destruct o; simpl
           end;
    rewrite ?Hinit; simpl;
    rewrite ?filter_app; simpl; rewrite ?app_nil_r; split; reflexivity.
Qed.

Lemma step_before_view (i : Input) (st : State) :
  viewInit (comp st) = false ->
  (forall vp h, i <> Layout vp h) ->
  page (step toStr i st) = page st
  /\ filter scrolls (effects (env (step toStr i st)))
     = filter scrolls (effects (env st)).
Proof.
  intros Hinit Hlayout.
  destruct i as [target type ev| |e| | |id|url|vp h]; simpl.
  - unfold dispatch. generalize (listeners (env st)) as ls. intros ls.
    revert st Hinit. induction ls as [|l ls IH]; intros st Hinit; simpl;
      [now split|].
    destruct (_ && _); [|now apply IH].
    destruct (call_before_view (fn_method (on_fn l)) ev st Hinit)
      as [Hpage Hlog].
    destruct (IH (state_of (call toStr (fn_method (on_fn l)) ev st)))
      as [Hpage' Hlog'];
      [now rewrite viewInit_call|].
    split; congruence.
  - unfold onContentScroll, updateThumbPosition.
    destruct (isDragging _); simpl; [now split|].
    rewrite Hinit. now split.
  - unfold onTrackClick. destruct (targetIsThumb e); [now split|].
    simpl. rewrite Hinit. simpl. rewrite filter_app. simpl.
    now rewrite app_nil_r.
  - now split.
  - destruct (contentObserver _) as [o|]; [destruct (observing o)|];
      now split.
  - unfold fire. destruct (find _ _) as [t|]; [|now split].
    rewrite env_runCallback.
    unfold runCallback, updateThumbSize.
    destruct (repeats t), (callback t); simpl; rewrite Hinit; now split.
  - unfold navigationEnd, updateThemeColor.
    destruct (routerSubscription _); [|now split].
    destruct (includes _ _); simpl; rewrite Hinit; now split.
  - now destruct (Hlayout vp h).
Qed.

End BeforeViewInit.

(** Until [ngAfterViewInit] has run the component writes nothing: whatever
    inputs reach it (a navigation, a resize, an event, a timer), the
    page changes only when the browser lays it out again, and the viewport
    is never scrolled.  The methods that need the elements end in a
    [TypeError]; [navigationEnd] skips [applyCustomization]. *)
Theorem nothing_written_before_view_init (toStr : num -> string)
  (inputs : list Input) (st : State) :
  viewInit (comp st) = false ->
  (forall vp h, ~ In (Layout vp h) inputs) ->
  page (run toStr inputs st) = page st
  /\ filter scrolls (effects (env (run toStr inputs st)))
     = filter scrolls (effects (env st))
  /\ viewInit (comp (run toStr inputs st)) = false
  /\ updateThumbSize toStr (run toStr inputs st)
     = TypeError (run toStr inputs st)
  /\ updateThumbPosition toStr (run toStr inputs st)
     = TypeError (run toStr inputs st).
Proof.
  intros Hinit Hlayout.
  assert (Hrun : page (run toStr inputs st) = page st
                 /\ filter scrolls (effects (env (run toStr inputs st)))
                    = filter scrolls (effects (env st))
                 /\ viewInit (comp (run toStr inputs st)) = false).
  { revert st Hinit. induction inputs as [|i inputs IH]; intros st Hinit;
      [now repeat split|].
    change (run toStr (i :: inputs) st)
      with (run toStr inputs (step toStr i st)).
    destruct (step_before_view toStr i st Hinit) as [Hpage Hlog].
    { intros vp h ->. apply (Hlayout vp h). now left. }
    destruct (IH (fun vp h Hin => Hlayout vp h (or_intror Hin))
                (step toStr i st)) as (Hpage' & Hlog' & Hinit');
      [now rewrite viewInit_step|].
    repeat split; congruence. }
  destruct Hrun as (Hpage & Hlog & Hinit').
  repeat split; try assumption.
  - unfold updateThumbSize. now rewrite Hinit'.
  - unfold updateThumbPosition. now rewrite Hinit'.
Qed.

Lemma nothing_written_before_view_init_witness :
  page (run decimalString
          [Navigated "/machine"; WindowResized; TimerFired 0;
           Deliver ThumbEl "mousedown" (Mouse (Sample.mouseAt 100));
           TrackClicked (Sample.mouseAt 200); ViewportScrolled]
          (ngOnInit (Sample.newComponent (Sample.tall 350) 90)))
  = page (ngOnInit (Sample.newComponent (Sample.tall 350) 90)).
Proof.
  refine (proj1
    (nothing_written_before_view_init decimalString
       [Navigated "/machine"; WindowResized; TimerFired 0;
        Deliver ThumbEl "mousedown" (Mouse (Sample.mouseAt 100));
        TrackClicked (Sample.mouseAt 200); ViewportScrolled]
       (ngOnInit (Sample.newComponent (Sample.tall 350) 90)) _ _)).
  - reflexivity.
  - intros vp h Hin. simpl in Hin. intuition discriminate.
Defined.
